(** * Chinese-Vietnamese dictionary pipeline: a shallow embedding

    The development follows the Python sources of the repository:
    - [pinyin_utils.py]       (tone-number to diacritic transform),
    - [integrate_cedict.py]   (the Reconciler: match, update, insert),
    - [deepseek_enhancer.py]  (the Enrichment Client and Scheduler),
    - [ai_data_completion.py] (the Completion Reporter's statistics).

    Python [str] values are modelled by [string], read as UTF-8 bytes; the
    character-level operations of Python ([len], [strip], [split], indexing
    from the end) go through [chars], which groups the bytes of one code
    point.  SQLite tables are lists of records in rowid order.  Python's
    [json] module and the HTTP exchange are external to the repository and
    enter the model as parameters. *)

From Stdlib Require Import List String Ascii Bool ZArith Lia.
From Stdlib Require Import QArith Lqa Permutation Sorted RelationClasses.
Import ListNotations.

#[local] Set Warnings "-register-all".
Local Open Scope string_scope.
Local Open Scope Z_scope.

(* ================================================================== *)
(** * Part I: the model                                                *)
(* ================================================================== *)

(** ** Python values and strings *)

Module Py.

(** Exceptions that the modelled code lets escape or catches. *)
Inductive exn : Type :=
| JSONDecodeError      (* json.JSONDecodeError, a ValueError *)
| ValueError           (* any other ValueError *)
| ZeroDivisionError
| RecursionError       (* more nested calls than the interpreter allows *)
| KeyError             (* a subscript that is no key of the dict *)
| OtherError.          (* sqlite3.Error, IndexError, TypeError, ... *)

(** A computation that returns or raises. *)
Inductive result (A : Type) : Type :=
| Ok (a : A)
| Raise (e : exn).
Arguments Ok {A} a.
Arguments Raise {A} e.

Definition bind {A B} (m : result A) (k : A -> result B) : result B :=
  match m with
  | Ok a => k a
  | Raise e => Raise e
  end.

(** [bytes [194; 160]] is the string made of these byte values. *)
Fixpoint bytes (l : list nat) : string :=
  match l with
  | [] => EmptyString
  | n :: r => String (ascii_of_nat n) (bytes r)
  end.

(** A UTF-8 continuation byte, 10xxxxxx. *)
Definition is_continuation (c : ascii) : bool :=
  let n := nat_of_ascii c in (128 <=? n)%nat && (n <? 192)%nat.

Definition starts_with_continuation (s : string) : bool :=
  match s with
  | EmptyString => false
  | String c _ => is_continuation c
  end.

(** The characters (code points) of a string, each as its UTF-8 bytes. *)
Fixpoint chars (s : string) : list string :=
  match s with
  | EmptyString => []
  | String c r =>
      match chars r with
      | h :: t =>
          if starts_with_continuation h then String c h :: t
          else String c EmptyString :: h :: t
      | [] => [String c EmptyString]
      end
  end.

(** Python's [len(s)]; also SQLite's [LENGTH] on a TEXT value. *)
Definition len (s : string) : Z := Z.of_nat (List.length (chars s)).

(** The characters for which [str.isspace] holds: U+0009..U+000D,
    U+001C..U+0020, U+0085, U+00A0, U+1680, U+2000..U+200A, U+2028,
    U+2029, U+202F, U+205F and U+3000. *)
Definition whitespace : list string :=
  map (fun n => bytes [n]) [9; 10; 11; 12; 13; 28; 29; 30; 31; 32]%nat
  ++ [bytes [194; 133]; bytes [194; 160]; bytes [225; 154; 128]]%nat
  ++ map (fun n => bytes [226; 128; n]%nat) (seq 128 11)
  ++ [bytes [226; 128; 168]; bytes [226; 128; 169]; bytes [226; 128; 175];
      bytes [226; 129; 159]; bytes [227; 128; 128]]%nat.

Definition isspace (ch : string) : bool :=
  existsb (String.eqb ch) whitespace.

(** [s.strip() == ''] *)
Definition strip_is_empty (s : string) : bool := forallb isspace (chars s).

Fixpoint drop_spaces (cs : list string) : list string :=
  match cs with
  | c :: r => if isspace c then drop_spaces r else cs
  | [] => []
  end.

(** [s.strip()] *)
Definition strip (s : string) : string :=
  String.concat EmptyString (rev (drop_spaces (rev (drop_spaces (chars s))))).

(** [s.split()]: the maximal runs of non-whitespace characters. *)
Fixpoint split_chars (cs : list string) (cur : option string) : list string :=
  match cs with
  | [] => match cur with Some w => [w] | None => [] end
  | c :: r =>
      if isspace c then
        match cur with
        | Some w => w :: split_chars r None
        | None => split_chars r None
        end
      else
        split_chars r (Some (match cur with Some w => w ++ c | None => c end))
  end.

Definition split (s : string) : list string := split_chars (chars s) None.

(** [sep.join(l)] *)
Definition join (sep : string) (l : list string) : string := String.concat sep l.

(** [v in s] for strings. *)
Fixpoint contains (v s : string) : bool :=
  prefix v s ||
  match s with
  | EmptyString => false
  | String _ r => contains v r
  end.

Fixpoint drop (n : nat) (s : string) : string :=
  match n, s with
  | O, _ => s
  | S k, String _ r => drop k r
  | S _, EmptyString => EmptyString
  end.

(** [s.replace(old, new, 1)] *)
Fixpoint replace_first (old new s : string) : string :=
  if prefix old s then new ++ drop (String.length old) s
  else match s with
       | EmptyString => EmptyString
       | String c r => String c (replace_first old new r)
       end.

(** [s.find(c)] and [s.rfind(c)] for a one-byte ASCII [c].  The result is a
    byte offset; it is used only to slice the same string, where byte and
    character offsets select the same text. *)
Fixpoint find_from (c : ascii) (s : string) (i : Z) : Z :=
  match s with
  | EmptyString => -1
  | String d r => if Ascii.eqb c d then i else find_from c r (i + 1)
  end.

Definition find (c : ascii) (s : string) : Z := find_from c s 0.

Fixpoint rfind_from (c : ascii) (s : string) (i : Z) (best : Z) : Z :=
  match s with
  | EmptyString => best
  | String d r => rfind_from c r (i + 1) (if Ascii.eqb c d then i else best)
  end.

Definition rfind (c : ascii) (s : string) : Z := rfind_from c s 0 (-1).

(** [s[i:j]] for [0 <= i]. *)
Definition slice (s : string) (i j : Z) : string :=
  substring (Z.to_nat i) (Z.to_nat (j - i)) s.

(** Truth value of a string: [bool(s)]. *)
Definition str_truthy (s : string) : bool :=
  match s with EmptyString => false | _ => true end.

(** Truth value of a nullable TEXT cell: [None] and [''] are false. *)
Definition truthy (v : option string) : bool :=
  match v with
  | None => false
  | Some s => str_truthy s
  end.

End Py.

(** ** pinyin_utils.py *)

Module PinyinUtils.
Import Py.

(** The [tone_marks] table. *)
Definition tone_marks : list (string * list string) :=
  [ ("a", ["a"; "ā"; "á"; "ǎ"; "à"]);
    ("e", ["e"; "ē"; "é"; "ě"; "è"]);
    ("i", ["i"; "ī"; "í"; "ǐ"; "ì"]);
    ("o", ["o"; "ō"; "ó"; "ǒ"; "ò"]);
    ("u", ["u"; "ū"; "ú"; "ǔ"; "ù"]);
    ("ü", ["ü"; "ǖ"; "ǘ"; "ǚ"; "ǜ"]);
    ("A", ["A"; "Ā"; "Á"; "Ǎ"; "À"]);
    ("E", ["E"; "Ē"; "É"; "Ě"; "È"]);
    ("I", ["I"; "Ī"; "Í"; "Ǐ"; "Ì"]);
    ("O", ["O"; "Ō"; "Ó"; "Ǒ"; "Ò"]);
    ("U", ["U"; "Ū"; "Ú"; "Ǔ"; "Ù"]);
    ("Ü", ["Ü"; "Ǖ"; "Ǘ"; "Ǚ"; "Ǜ"]) ].

Definition vowels : list string :=
  ["a"; "e"; "i"; "o"; "u"; "ü"; "A"; "E"; "I"; "O"; "U"; "Ü"].

(** [tone_marks[v][tone]] *)
Definition tone_mark (v : string) (tone : Z) : string :=
  match List.find (fun p => String.eqb (fst p) v) tone_marks with
  | Some (_, marks) => nth (Z.to_nat tone) marks v
  | None => v
  end.

(** [int(ch)] when [ch.isdigit()], for the ASCII digits.  ([str.isdigit]
    also holds of non-ASCII digit characters; they are not recognised
    here.) *)
Definition digit_value (ch : string) : option Z :=
  match ch with
  | String c EmptyString =>
      let n := nat_of_ascii c in
      if (48 <=? n)%nat && (n <=? 57)%nat then Some (Z.of_nat (n - 48)) else None
  | _ => None
  end.

(** The search for the vowel to mark: the body of the [for v in [...]]
    loop, which stops at the first vowel present in [clean_word]. *)
Fixpoint mark_vowel (vs : list string) (clean_word : string) (tone : Z) : string :=
  match vs with
  | [] => clean_word
  | v :: rest =>
      if contains v clean_word then
        let absent x := negb (contains x clean_word) in
        let v' :=
          if String.eqb v "i" && contains "u" clean_word
             && absent "a" && absent "o" && absent "e" then "u"
          else if String.eqb v "u" && contains "i" clean_word
             && absent "a" && absent "o" && absent "e" then "i"
          else v in
        replace_first v' (tone_mark v' tone) clean_word
      else mark_vowel rest clean_word tone
  end.

Definition convert_word (word : string) : string :=
  let cs := chars word in
  let '(tone, clean_word) :=
    match digit_value (last cs EmptyString) with
    | Some d => (d, String.concat EmptyString (removelast cs))
    | None => (0, word)
    end in
  if (tone <? 1) || (tone >? 4) then word
  else mark_vowel vowels clean_word tone.

Definition convert_pinyin_tone_numbers (pinyin : string) : string :=
  if negb (str_truthy pinyin) then pinyin
  else join " " (map convert_word (split pinyin)).

End PinyinUtils.

(** ** Python's json module

    [json.loads] and [json.dumps] belong to Python's library.  The functions
    of the repository take them as parameters ([loads_fn], [dumps_fn]); the
    parser [Json.loads] below is a reference instance, used to run the model
    on concrete documents. *)

Module Json.
Import Py.

(** The Python values [json.loads] produces. *)
Inductive value : Type :=
| JNull                                   (* None *)
| JBool (b : bool)
| JInt (z : Z)
| JFloat (mantissa exponent : Z)          (* mantissa * 10 ^ exponent *)
| JNonFinite (literal : string)           (* NaN, Infinity, -Infinity *)
| JStr (s : string)
| JArr (items : list value)               (* list *)
| JObj (members : list (string * value)). (* dict, in document order *)

Definition loads_fn : Type := string -> result value.
Definition dumps_fn : Type := value -> string.

(** [bool(v)] *)
Definition truthy (v : value) : bool :=
  match v with
  | JNull => false
  | JBool b => b
  | JInt z => negb (z =? 0)
  | JFloat m _ => negb (m =? 0)
  | JNonFinite _ => true
  | JStr s => str_truthy s
  | JArr l => match l with [] => false | _ => true end
  | JObj l => match l with [] => false | _ => true end
  end.

(** [isinstance(v, list)] *)
Definition is_list (v : value) : bool :=
  match v with JArr _ => true | _ => false end.

(** [d.get(k)]: a later member with the same key replaces an earlier one;
    on a value that is not a dict the method does not exist. *)
Fixpoint lookup (k : string) (l : list (string * value)) : option value :=
  match l with
  | [] => None
  | (k', v) :: r =>
      match lookup k r with
      | Some w => Some w
      | None => if String.eqb k k' then Some v else None
      end
  end.

Definition get (v : value) (k : string) : result value :=
  match v with
  | JObj l => Ok (match lookup k l with Some w => w | None => JNull end)
  | _ => Raise OtherError
  end.

(** *** A reference parser *)

(** The decoder's whitespace: space, tab, line feed, carriage return. *)
Definition is_ws (c : ascii) : bool :=
  let n := nat_of_ascii c in
  (n =? 32)%nat || (n =? 9)%nat || (n =? 10)%nat || (n =? 13)%nat.

Fixpoint skip_ws (s : string) : string :=
  match s with
  | String c r => if is_ws c then skip_ws r else s
  | EmptyString => s
  end.

Definition digit_of (c : ascii) : option Z :=
  let n := nat_of_ascii c in
  if (48 <=? n)%nat && (n <=? 57)%nat then Some (Z.of_nat (n - 48)) else None.

Definition hex_of (c : ascii) : option Z :=
  let n := nat_of_ascii c in
  if (48 <=? n)%nat && (n <=? 57)%nat then Some (Z.of_nat (n - 48))
  else if (65 <=? n)%nat && (n <=? 70)%nat then Some (Z.of_nat (n - 55))
  else if (97 <=? n)%nat && (n <=? 102)%nat then Some (Z.of_nat (n - 87))
  else None.

(** A run of digits: its value, its length and the rest. *)
Fixpoint digits (s : string) (acc : Z) (n : Z) : Z * Z * string :=
  match s with
  | String c r =>
      match digit_of c with
      | Some d => digits r (10 * acc + d) (n + 1)
      | None => (acc, n, s)
      end
  | EmptyString => (acc, n, s)
  end.

(** The integer part [0|[1-9]\d*]. *)
Definition int_part (s : string) : option (Z * string) :=
  match s with
  | String c r =>
      match digit_of c with
      | Some 0 => Some (0, r)
      | Some d => let '(v, _, rest) := digits r d 1 in Some (v, rest)
      | None => None
      end
  | EmptyString => None
  end.

(** The optional fraction [\.\d+]: digits and their number. *)
Definition frac_part (s : string) : option (Z * Z * string) :=
  match s with
  | String "." r =>
      let '(v, n, rest) := digits r 0 0 in
      if n =? 0 then None else Some (v, n, rest)
  | _ => None
  end.

(** The optional exponent [[eE][-+]?\d+]. *)
Definition exp_part (s : string) : option (Z * string) :=
  let unsigned (sign : Z) (r : string) :=
    let '(v, n, rest) := digits r 0 0 in
    if n =? 0 then None else Some (sign * v, rest) in
  match s with
  | String c r =>
      if Ascii.eqb c "e" || Ascii.eqb c "E" then
        match r with
        | String "-" r' => unsigned (-1) r'
        | String "+" r' => unsigned 1 r'
        | _ => unsigned 1 r
        end
      else None
  | EmptyString => None
  end.

Definition number (s : string) : option (value * string) :=
  let '(sign, s1) :=
    match s with String "-" r => (-1, r) | _ => (1, s) end in
  match int_part s1 with
  | None => None
  | Some (i, s2) =>
      match frac_part s2, exp_part s2 with
      | None, None => Some (JInt (sign * i), s2)
      | None, Some (e, s3) => Some (JFloat (sign * i) e, s3)
      | Some (f, n, s3), _ =>
          let m := sign * (i * 10 ^ n + f) in
          match exp_part s3 with
          | Some (e, s4) => Some (JFloat m (e - n), s4)
          | None => Some (JFloat m (- n), s3)
          end
      end
  end.

(** UTF-8 encoding of a code point. *)
Definition utf8 (n : Z) : string :=
  let b (z : Z) := ascii_of_nat (Z.to_nat z) in
  let cont (z : Z) := b (128 + z mod 64) in
  if n <? 128 then String (b n) EmptyString
  else if n <? 2048 then String (b (192 + n / 64)) (String (cont n) EmptyString)
  else if n <? 65536 then
    String (b (224 + n / 4096)) (String (cont (n / 64)) (String (cont n) EmptyString))
  else
    String (b (240 + n / 262144))
      (String (cont (n / 4096)) (String (cont (n / 64)) (String (cont n) EmptyString))).

Definition hex4 (s : string) : option (Z * string) :=
  match s with
  | String a (String b (String c (String d r))) =>
      match hex_of a, hex_of b, hex_of c, hex_of d with
      | Some x, Some y, Some z, Some w => Some (4096 * x + 256 * y + 16 * z + w, r)
      | _, _, _, _ => None
      end
  | _ => None
  end.

(** The body of a string literal, after the opening quote. *)
Fixpoint string_body (fuel : nat) (s : string) (acc : string) : option (string * string) :=
  match fuel with
  | O => None
  | S f =>
      match s with
      | EmptyString => None
      | String c r =>
          if Ascii.eqb c "034" then Some (acc, r)
          else if Ascii.eqb c "\" then
            match r with
            | String e r' =>
                let simple (x : nat) := string_body f r' (acc ++ bytes [x]) in
                if Ascii.eqb e "034" then simple 34%nat
                else if Ascii.eqb e "\" then simple 92%nat
                else if Ascii.eqb e "/" then simple 47%nat
                else if Ascii.eqb e "b" then simple 8%nat
                else if Ascii.eqb e "f" then simple 12%nat
                else if Ascii.eqb e "n" then simple 10%nat
                else if Ascii.eqb e "r" then simple 13%nat
                else if Ascii.eqb e "t" then simple 9%nat
                else if Ascii.eqb e "u" then
                  match hex4 r' with
                  | Some (hi, r2) =>
                      let pair :=
                        if (55296 <=? hi) && (hi <=? 56319) then
                          match r2 with
                          | String "\" (String "u" r3) =>
                              match hex4 r3 with
                              | Some (lo, r4) =>
                                  if (56320 <=? lo) && (lo <=? 57343)
                                  then Some (65536 + (hi - 55296) * 1024 + (lo - 56320), r4)
                                  else None
                              | None => None
                              end
                          | _ => None
                          end
                        else None in
                      match pair with
                      | Some (cp, r4) => string_body f r4 (acc ++ utf8 cp)
                      | None => string_body f r2 (acc ++ utf8 hi)
                      end
                  | None => None
                  end
                else None
            | EmptyString => None
            end
          else if (nat_of_ascii c <? 32)%nat then None
          else string_body f r (acc ++ String c EmptyString)
      end
  end.

Definition after (lit : string) (s : string) : option string :=
  if prefix lit s then Some (drop (String.length lit) s) else None.

(** One value at the head of [s] (no leading whitespace), array items and
    object members; [fuel] bounds the nesting and the number of items. *)
Fixpoint parse_value (fuel : nat) (s : string) : option (value * string) :=
  match fuel with
  | O => None
  | S f =>
      match s with
      | String "{" r =>
          match skip_ws r with
          | String "}" r' => Some (JObj [], r')
          | r' => parse_members f r' []
          end
      | String "[" r =>
          match skip_ws r with
          | String "]" r' => Some (JArr [], r')
          | r' => parse_items f r' []
          end
      | String "034" r =>
          match string_body (S (String.length r)) r EmptyString with
          | Some (str, r') => Some (JStr str, r')
          | None => None
          end
      | _ =>
          match after "null" s, after "true" s, after "false" s with
          | Some r, _, _ => Some (JNull, r)
          | _, Some r, _ => Some (JBool true, r)
          | _, _, Some r => Some (JBool false, r)
          | None, None, None =>
              match after "NaN" s, after "Infinity" s, after "-Infinity" s with
              | Some r, _, _ => Some (JNonFinite "NaN", r)
              | _, Some r, _ => Some (JNonFinite "Infinity", r)
              | _, _, Some r => Some (JNonFinite "-Infinity", r)
              | None, None, None => number s
              end
          end
      end
  end
with parse_items (fuel : nat) (s : string) (acc : list value) : option (value * string) :=
  match fuel with
  | O => None
  | S f =>
      match parse_value f s with
      | Some (v, r) =>
          match skip_ws r with
          | String "]" r' => Some (JArr (acc ++ [v]), r')
          | String "," r' => parse_items f (skip_ws r') (acc ++ [v])
          | _ => None
          end
      | None => None
      end
  end
with parse_members (fuel : nat) (s : string) (acc : list (string * value)) : option (value * string) :=
  match fuel with
  | O => None
  | S f =>
      match s with
      | String "034" r =>
          match string_body (S (String.length r)) r EmptyString with
          | Some (k, r1) =>
              match skip_ws r1 with
              | String ":" r2 =>
                  match parse_value f (skip_ws r2) with
                  | Some (v, r3) =>
                      match skip_ws r3 with
                      | String "}" r4 => Some (JObj (acc ++ [(k, v)]), r4)
                      | String "," r4 => parse_members f (skip_ws r4) (acc ++ [(k, v)])
                      | _ => None
                      end
                  | None => None
                  end
              | _ => None
              end
          | None => None
          end
      | _ => None
      end
  end.

(** [json.loads] on a [str]: one value between optional whitespace, or
    [JSONDecodeError].  The interpreter's resource limits (recursion depth,
    the length of integer literals, the range of floats) are not part of
    this instance. *)
Definition loads : loads_fn := fun s =>
  match parse_value (2 * String.length s + 4) (skip_ws s) with
  | Some (v, r) =>
      match skip_ws r with
      | EmptyString => Ok v
      | _ => Raise JSONDecodeError
      end
  | None => Raise JSONDecodeError
  end.

(** *** The reference parser under a recursion limit *)

(** What the scanner makes of a text: a value and the rest of the text, a
    syntax error, or a container nested deeper than the interpreter allows. *)
Inductive scanned : Type :=
| Scanned (v : value) (rest : string)
| Malformed
| TooDeep.

(** As [parse_value], with the check the decoder makes each time it enters
    an object or an array: [depth] is the number of nested containers the
    interpreter still allows.  The check comes first, before the decoder
    looks at what the container holds. *)
Fixpoint scan_value (fuel depth : nat) (s : string) : scanned :=
  match fuel with
  | O => Malformed
  | S f =>
      match s with
      | String "{" r =>
          match depth with
          | O => TooDeep
          | S d =>
              match skip_ws r with
              | String "}" r' => Scanned (JObj []) r'
              | r' => scan_members f d r' []
              end
          end
      | String "[" r =>
          match depth with
          | O => TooDeep
          | S d =>
              match skip_ws r with
              | String "]" r' => Scanned (JArr []) r'
              | r' => scan_items f d r' []
              end
          end
      | _ =>
          (* a string, a literal or a number: no nesting *)
          match parse_value 1 s with
          | Some (v, r) => Scanned v r
          | None => Malformed
          end
      end
  end
with scan_items (fuel depth : nat) (s : string) (acc : list value) : scanned :=
  match fuel with
  | O => Malformed
  | S f =>
      match scan_value f depth s with
      | Scanned v r =>
          match skip_ws r with
          | String "]" r' => Scanned (JArr (acc ++ [v])) r'
          | String "," r' => scan_items f depth (skip_ws r') (acc ++ [v])
          | _ => Malformed
          end
      | Malformed => Malformed
      | TooDeep => TooDeep
      end
  end
with scan_members (fuel depth : nat) (s : string) (acc : list (string * value)) : scanned :=
  match fuel with
  | O => Malformed
  | S f =>
      match s with
      | String "034" r =>
          match string_body (S (String.length r)) r EmptyString with
          | Some (k, r1) =>
              match skip_ws r1 with
              | String ":" r2 =>
                  match scan_value f depth (skip_ws r2) with
                  | Scanned v r3 =>
                      match skip_ws r3 with
                      | String "}" r4 => Scanned (JObj (acc ++ [(k, v)])) r4
                      | String "," r4 => scan_members f depth (skip_ws r4) (acc ++ [(k, v)])
                      | _ => Malformed
                      end
                  | Malformed => Malformed
                  | TooDeep => TooDeep
                  end
              | _ => Malformed
              end
          | None => Malformed
          end
      | _ => Malformed
      end
  end.

(** [json.loads] on a [str] in an interpreter that allows [limit] nested
    containers: the value, [JSONDecodeError], or [RecursionError] when the
    text nests deeper.  [limit] is what is left of
    [sys.getrecursionlimit()], 1000 unless it was changed, when the decoder
    starts. *)
Definition loads_limited (limit : nat) : loads_fn := fun s =>
  match scan_value (2 * String.length s + 4) limit (skip_ws s) with
  | Scanned v r =>
      match skip_ws r with
      | EmptyString => Ok v
      | _ => Raise JSONDecodeError
      end
  | Malformed => Raise JSONDecodeError
  | TooDeep => Raise RecursionError
  end.

End Json.

(** ** The two SQLite tables *)

(** [LIMIT n]: a negative [n] means no limit. *)
Definition sql_limit {A : Type} (n : Z) (l : list A) : list A :=
  if n <? 0 then l else firstn (Z.to_nat n) l.

(** [ORDER BY]: the rows sorted by the order [leb]; rows that the order does
    not separate keep their table order. *)
Fixpoint sql_insert {A : Type} (leb : A -> A -> bool) (x : A) (l : list A) : list A :=
  match l with
  | [] => [x]
  | y :: r => if leb x y then x :: l else y :: sql_insert leb x r
  end.

Definition sql_order_by {A : Type} (leb : A -> A -> bool) (l : list A) : list A :=
  fold_right (sql_insert leb) [] l.

(** The Primary Store: table [dictionary] of [chinese_vietnamese_dict.db],
    with the columns of [create_dictionary_db.py] and those that
    [add_missing_database_columns] adds. *)
Module Dictionary.
Import Py.

Record Entry : Type := mkEntry {
  id : Z;
  word : string;
  traditional : option string;
  simplified : option string;
  pinyin : option string;
  zhuyin : option string;
  vi_meaning : option string;
  en_meaning : option string;
  part_of_speech : option string;
  hsk_level : option Z;
  tocfl_level : option Z;
  frequency_rank : option Z;
  hanviet_reading : option string;
  created_at : option string;
  updated_at : option string;
  cedict_definitions : option string;
  source : option string
}.

(** A row with only [id] and [word] set; the other columns are NULL. *)
Definition blank (i : Z) (w : string) : Entry :=
  mkEntry i w None None None None None None None None None None None None None None None.

(** The TEXT columns that the pipeline reads and writes by name. *)
Definition text_columns : list string :=
  ["traditional"; "simplified"; "pinyin"; "zhuyin"; "vi_meaning"; "en_meaning";
   "part_of_speech"; "hanviet_reading"; "cedict_definitions"; "source"].

(** [entry.get(k)] on a row dict, for a TEXT column; a key that is not a
    column gives [None], as does NULL. *)
Definition get (e : Entry) (k : string) : option string :=
  if String.eqb k "word" then Some (word e)
  else if String.eqb k "traditional" then traditional e
  else if String.eqb k "simplified" then simplified e
  else if String.eqb k "pinyin" then pinyin e
  else if String.eqb k "zhuyin" then zhuyin e
  else if String.eqb k "vi_meaning" then vi_meaning e
  else if String.eqb k "en_meaning" then en_meaning e
  else if String.eqb k "part_of_speech" then part_of_speech e
  else if String.eqb k "hanviet_reading" then hanviet_reading e
  else if String.eqb k "cedict_definitions" then cedict_definitions e
  else if String.eqb k "source" then source e
  else None.

(** [SET k = v] on one row; [None] when [k] is not a column of the table
    (SQLite then refuses the statement). *)
Definition set (k : string) (v : string) (e : Entry) : option Entry :=
  let '(mkEntry i w tr si pi zh vi en po hs to fr hv ca ua cd so) := e in
  if String.eqb k "traditional" then Some (mkEntry i w (Some v) si pi zh vi en po hs to fr hv ca ua cd so)
  else if String.eqb k "simplified" then Some (mkEntry i w tr (Some v) pi zh vi en po hs to fr hv ca ua cd so)
  else if String.eqb k "pinyin" then Some (mkEntry i w tr si (Some v) zh vi en po hs to fr hv ca ua cd so)
  else if String.eqb k "zhuyin" then Some (mkEntry i w tr si pi (Some v) vi en po hs to fr hv ca ua cd so)
  else if String.eqb k "vi_meaning" then Some (mkEntry i w tr si pi zh (Some v) en po hs to fr hv ca ua cd so)
  else if String.eqb k "en_meaning" then Some (mkEntry i w tr si pi zh vi (Some v) po hs to fr hv ca ua cd so)
  else if String.eqb k "part_of_speech" then Some (mkEntry i w tr si pi zh vi en (Some v) hs to fr hv ca ua cd so)
  else if String.eqb k "hanviet_reading" then Some (mkEntry i w tr si pi zh vi en po hs to fr (Some v) ca ua cd so)
  else if String.eqb k "cedict_definitions" then Some (mkEntry i w tr si pi zh vi en po hs to fr hv ca ua (Some v) so)
  else if String.eqb k "source" then Some (mkEntry i w tr si pi zh vi en po hs to fr hv ca ua cd (Some v))
  else if String.eqb k "updated_at" then Some (mkEntry i w tr si pi zh vi en po hs to fr hv ca (Some v) cd so)
  else None.

(** The SET clauses of one UPDATE, applied left to right. *)
Fixpoint set_all (updates : list (string * string)) (e : Entry) : option Entry :=
  match updates with
  | [] => Some e
  | (k, v) :: r =>
      match set k v e with
      | Some e' => set_all r e'
      | None => None
      end
  end.

(** [UPDATE dictionary SET ... WHERE id = ?]: the statement fails as a
    whole when it names a column the table does not have. *)
Definition update (updates : list (string * string)) (i : Z) (rows : list Entry)
  : result (list Entry) :=
  if forallb (fun kv => match set (fst kv) (snd kv) (blank 0 EmptyString) with
                        | Some _ => true | None => false end) updates
  then Ok (map (fun r => if id r =? i
                         then match set_all updates r with Some r' => r' | None => r end
                         else r) rows)
  else Raise OtherError.

(** The id an INSERT assigns: larger than every id in the table.  (The
    AUTOINCREMENT counter of ids used in the past is not kept.) *)
Definition next_id (rows : list Entry) : Z :=
  1 + fold_right (fun r m => Z.max (id r) m) 0 rows.

End Dictionary.

(** The Source Store: table [cedict_entries] of [cedict.db]
    ([download_cedict.py]); every column is NOT NULL. *)
Module Cedict.

Record Entry : Type := mkEntry {
  id : Z;
  traditional : string;
  simplified : string;
  pinyin : string;
  english : string;
  definitions : string;
  created_at : string
}.

End Cedict.

(** ** integrate_cedict.py: class CEDICTIntegrator *)

Module IntegrateCedict.
Import Py.

(** The dict that [integrate_full] returns. *)
Record Results : Type := mkResults {
  matched_entries : Z;
  updated_entries : Z;
  added_entries : Z;
  total_before : Z;
  total_after : Z
}.

(** [ORDER BY LENGTH(simplified), simplified]: shorter first, then in the
    binary order of the text. *)
Definition order_leb (a b : Cedict.Entry) : bool :=
  let la := len (Cedict.simplified a) in
  let lb := len (Cedict.simplified b) in
  (la <? lb) || ((la =? lb) && String.leb (Cedict.simplified a) (Cedict.simplified b)).

Definition order_by_length_simplified (l : list Cedict.Entry) : list Cedict.Entry :=
  sql_order_by order_leb l.

Definition mem (w : string) (ws : list string) : bool := existsb (String.eqb w) ws.

(** [entry[1] not in existing_words and entry[2] not in existing_words], on a
    row of the raw [SELECT *]: in the column order of the table, [entry[1]]
    is the traditional form and [entry[2]] the simplified one. *)
Definition is_new (existing_words : list string) (entry : Cedict.Entry) : bool :=
  negb (mem (Cedict.traditional entry) existing_words)
  && negb (mem (Cedict.simplified entry) existing_words).

(** The filter loop of [add_new_cedict_entries]: keep an entry when neither
    form is an existing word, and stop once [limit] entries are kept. *)
Fixpoint select_new (existing_words : list string) (limit : Z)
    (entries new_entries : list Cedict.Entry) : list Cedict.Entry :=
  match entries with
  | [] => new_entries
  | entry :: rest =>
      if is_new existing_words entry
      then
        let new_entries' := (new_entries ++ [entry])%list in
        if Z.of_nat (List.length new_entries') >=? limit then new_entries'
        else select_new existing_words limit rest new_entries'
      else select_new existing_words limit rest new_entries
  end.

(** [not v or v.strip() == ''] *)
Definition missing (v : option string) : bool :=
  match v with
  | None => true
  | Some s => negb (str_truthy s) || strip_is_empty s
  end.

Section Integrator.
(** [json.loads], and the reading of [datetime.now().isoformat()] used
    for the timestamps of a run. *)
Variable json_loads : Json.loads_fn.
Variable now : string.

(** The two SELECT ... LIMIT 1 of the match loop: the first row whose
    simplified form is the text, else the first whose traditional form
    is. *)
Definition lookup_cedict (chinese_text : string) (cedict : list Cedict.Entry)
  : option Cedict.Entry :=
  match List.find (fun c => String.eqb (Cedict.simplified c) chinese_text) cedict with
  | Some c => Some c
  | None => List.find (fun c => String.eqb (Cedict.traditional c) chinese_text) cedict
  end.

Fixpoint find_matching_entries (main_entries : list Dictionary.Entry)
    (cedict : list Cedict.Entry) : list (Dictionary.Entry * Cedict.Entry) :=
  match main_entries with
  | [] => []
  | main_entry :: rest =>
      match lookup_cedict (Dictionary.word main_entry) cedict with
      | Some cedict_entry =>
          (main_entry, cedict_entry) :: find_matching_entries rest cedict
      | None => find_matching_entries rest cedict
      end
  end.

(** The part of the patch that depends on [json.loads]. *)
Definition definitions_update (cedict_entry : Cedict.Entry)
  : result (list (string * string)) :=
  let d := Cedict.definitions cedict_entry in
  if str_truthy d then
    match json_loads d with
    | Ok definitions =>
        Ok (if Json.truthy definitions then [("cedict_definitions", d)] else [])
    | Raise JSONDecodeError => Ok [("cedict_definitions", d)]
    | Raise e => Raise e
    end
  else Ok [].

(** The [updates] dict, in insertion order. *)
Definition enhance_entry_with_cedict (main_entry : Dictionary.Entry)
    (cedict_entry : Cedict.Entry) : result (list (string * string)) :=
  let get := Dictionary.get main_entry in
  let en :=
    if missing (get "en_meaning") && str_truthy (Cedict.english cedict_entry)
    then [("en_meaning", Cedict.english cedict_entry)] else [] in
  let py :=
    if missing (get "pinyin") && str_truthy (Cedict.pinyin cedict_entry)
    then [("pinyin", Cedict.pinyin cedict_entry)] else [] in
  let tr :=
    if missing (get "traditional")
       && negb (String.eqb (Cedict.traditional cedict_entry) (Cedict.simplified cedict_entry))
    then [("traditional", Cedict.traditional cedict_entry)] else [] in
  let si :=
    if missing (get "simplified")
       && negb (String.eqb (Cedict.simplified cedict_entry) (Cedict.traditional cedict_entry))
    then [("simplified", Cedict.simplified cedict_entry)] else [] in
  bind (definitions_update cedict_entry)
       (fun de => Ok (en ++ py ++ tr ++ si ++ de)%list).

(** One iteration of the loop of [update_existing_entries]: an exception
    is logged and the loop goes on. *)
Definition update_one (m : Dictionary.Entry * Cedict.Entry)
    (st : list Dictionary.Entry * Z) : list Dictionary.Entry * Z :=
  let '(rows, updated_count) := st in
  let '(main_entry, cedict_entry) := m in
  match enhance_entry_with_cedict main_entry cedict_entry with
  | Ok [] => st
  | Ok updates =>
      match Dictionary.update (updates ++ [("updated_at", now)])%list
              (Dictionary.id main_entry) rows with
      | Ok rows' => (rows', updated_count + 1)
      | Raise _ => st
      end
  | Raise _ => st
  end.

Definition update_existing_entries (matches : list (Dictionary.Entry * Cedict.Entry))
    (rows : list Dictionary.Entry) : list Dictionary.Entry * Z :=
  fold_left (fun st m => update_one m st) matches (rows, 0).

(** The [new_entries] list of [add_new_cedict_entries]. *)
Definition new_cedict_entries (limit : Z) (rows : list Dictionary.Entry)
    (cedict : list Cedict.Entry) : list Cedict.Entry :=
  let existing_words := map Dictionary.word rows in
  let all_cedict_entries :=
    sql_limit (limit * 3) (order_by_length_simplified cedict) in
  select_new existing_words limit all_cedict_entries [].

(** The row that the INSERT statement writes for [entry], a row of the raw
    [SELECT *] read by position: [chinese_text = entry[1]] is the
    traditional column of [cedict_entries] (the source comments call it the
    simplified one), [entry[2]] the simplified column. *)
Definition inserted_row (i : Z) (entry : Cedict.Entry) : Dictionary.Entry :=
  let entry_1 := Cedict.traditional entry in
  let entry_2 := Cedict.simplified entry in
  Dictionary.mkEntry i entry_1
    (if negb (String.eqb entry_2 entry_1) then Some entry_2 else None)
    (Some entry_1)
    (Some (Cedict.pinyin entry))
    None
    (Some EmptyString)
    (Some (Cedict.english entry))
    None None None None None
    (Some now) (Some now)
    (Some (Cedict.definitions entry))
    (Some "CC-CEDICT").

(** Whether the body of the insert loop reaches the INSERT: an exception
    of [json.loads] other than JSONDecodeError skips the entry. *)
Definition insertable (entry : Cedict.Entry) : bool :=
  match json_loads (Cedict.definitions entry) with
  | Ok _ => true
  | Raise JSONDecodeError => true
  | Raise _ => false
  end.

Definition insert_one (st : list Dictionary.Entry * Z) (entry : Cedict.Entry)
  : list Dictionary.Entry * Z :=
  let '(rows, added_count) := st in
  if insertable entry
  then ((rows ++ [inserted_row (Dictionary.next_id rows) entry])%list, added_count + 1)
  else st.

Definition add_new_cedict_entries (limit : Z) (rows : list Dictionary.Entry)
    (cedict : list Cedict.Entry) : list Dictionary.Entry * Z :=
  fold_left insert_one (new_cedict_entries limit rows cedict) (rows, 0).

(** [get_main_dict_stats()['total_entries']] *)
Definition total_entries (rows : list Dictionary.Entry) : Z :=
  Z.of_nat (List.length rows).

(** [integrate_full]: the table after the run and the result dict.
    [add_missing_database_columns] leaves the rows as they are: a column
    it adds is NULL in every row, which is how [Dictionary.Entry] holds
    a column that was absent. *)
Definition integrate_full (add_new_limit : Z) (rows : list Dictionary.Entry)
    (cedict : list Cedict.Entry) : list Dictionary.Entry * Results :=
  let matches := find_matching_entries rows cedict in
  let '(rows1, updated_count) := update_existing_entries matches rows in
  let '(rows2, added_count) := add_new_cedict_entries add_new_limit rows1 cedict in
  (rows2,
   mkResults (Z.of_nat (List.length matches)) updated_count added_count
             (total_entries rows) (total_entries rows2)).

End Integrator.

End IntegrateCedict.

(** ** deepseek_enhancer.py: class DeepSeekEnhancer *)

Module DeepseekEnhancer.
Import Py.

(** What a prompt is built from: the kind of request, the word and the
    optional context. *)
Inductive Request : Type :=
| Pronunciation (chinese_text : string)
| Vietnamese (chinese_text : string) (english_meaning : option string)
| Examples (chinese_text : string) (vietnamese_meaning : option string)
| GrammarInfo (chinese_text : string).

Definition max_tokens (r : Request) : Z :=
  match r with
  | Vietnamese _ _ => 200
  | Examples _ _ => 800
  | _ => 1000
  end.

(** The enhancer object together with the clock it reads: [time] is the
    value of [time.time()], [slept] the arguments of the calls of
    [time.sleep] so far (latest first), [conn] the rows of [dictionary]. *)
Record State : Type := mkState {
  request_delay : Q;
  last_request_time : Q;
  time : Q;
  slept : list Q;
  conn : list Dictionary.Entry
}.

(** [time.sleep(d)] *)
Definition sleep (d : Q) (st : State) : State :=
  mkState (request_delay st) (last_request_time st) (time st + d)%Q
          (d :: slept st) (conn st).

Definition set_last_request_time (t : Q) (st : State) : State :=
  mkState (request_delay st) t (time st) (slept st) (conn st).

Definition set_conn (rows : list Dictionary.Entry) (st : State) : State :=
  mkState (request_delay st) (last_request_time st) (time st) (slept st) rows.

(** The duration [_rate_limit] sleeps for, if it sleeps. *)
Definition rate_limit_sleep (st : State) : option Q :=
  let current_time := time st in
  let time_since_last := (current_time - last_request_time st)%Q in
  if Qle_bool (request_delay st) time_since_last then None
  else Some (request_delay st - time_since_last)%Q.

Definition _rate_limit (st : State) : State :=
  let st1 :=
    match rate_limit_sleep st with
    | Some d => sleep d st
    | None => st
    end in
  set_last_request_time (time st1) st1.

(** [ORDER BY frequency_rank DESC, id ASC]: NULL ranks come last. *)
Definition before (a b : Dictionary.Entry) : bool :=
  match Dictionary.frequency_rank a, Dictionary.frequency_rank b with
  | Some x, Some y =>
      (y <? x) || ((x =? y) && (Dictionary.id a <=? Dictionary.id b))
  | Some _, None => true
  | None, Some _ => false
  | None, None => Dictionary.id a <=? Dictionary.id b
  end.

Definition order_by_rank (l : list Dictionary.Entry) : list Dictionary.Entry :=
  sql_order_by before l.

(** The WHERE clause of the selection query. *)
Definition needs_enhancement (e : Dictionary.Entry) : bool :=
  negb (truthy (Dictionary.zhuyin e))
  || negb (truthy (Dictionary.vi_meaning e))
  || negb (truthy (Dictionary.hanviet_reading e)).

Definition find_entries_needing_enhancement (limit : Z)
    (rows : list Dictionary.Entry) : list Dictionary.Entry :=
  sql_limit limit (order_by_rank (filter needs_enhancement rows)).

(** The running totals of [enhance_batch]. *)
Record Progress : Type := mkProgress {
  enhanced_count : Z;
  total_processed : Z
}.

Section Enhancer.
(** Python's [json] module, the HTTP exchange of [_call_deepseek_api]
    (the reply to a request sent at a given time, [None] on any
    failure), and the text SQLite stores for a bound parameter. *)
Variable json_loads : Json.loads_fn.
Variable json_dumps : Json.dumps_fn.
Variable post : Request -> Q -> option string.
Variable bind_parameter : Json.value -> result string.

Definition _call_deepseek_api (r : Request) (st : State) : State * option string :=
  let st1 := _rate_limit st in
  (st1, post r (time st1)).

(** The text from the first [open] to the last [close], when there is
    one after the other. *)
Definition bracketed (open close : ascii) (response : string) : option string :=
  let json_start := find open response in
  let json_end := rfind close response + 1 in
  if (json_start >=? 0) && (json_end >? json_start)
  then Some (slice response json_start json_end)
  else None.

(** The extraction shared by [enhance_missing_pronunciation] and
    [enhance_missing_grammar_info], from the reply of the API on. *)
Definition extract_object (response : option string) : result Json.value :=
  match response with
  | None => Ok (Json.JObj [])
  | Some r =>
      if negb (str_truthy r) then Ok (Json.JObj [])
      else
        match bracketed "{" "}" r with
        | Some json_str =>
            match json_loads json_str with
            | Ok v => Ok v
            | Raise JSONDecodeError => Ok (Json.JObj [])
            | Raise ValueError => Ok (Json.JObj [])
            | Raise e => Raise e
            end
        | None => Ok (Json.JObj [])
        end
  end.

Definition extract_array (response : option string) : result Json.value :=
  match response with
  | None => Ok (Json.JArr [])
  | Some r =>
      if negb (str_truthy r) then Ok (Json.JArr [])
      else
        match bracketed "[" "]" r with
        | Some json_str =>
            match json_loads json_str with
            | Ok examples =>
                Ok (if Json.is_list examples then examples else Json.JArr [])
            | Raise JSONDecodeError => Ok (Json.JArr [])
            | Raise ValueError => Ok (Json.JArr [])
            | Raise e => Raise e
            end
        | None => Ok (Json.JArr [])
        end
  end.

Definition enhance_missing_pronunciation (chinese_text : string) (st : State)
  : State * result Json.value :=
  let '(st1, response) := _call_deepseek_api (Pronunciation chinese_text) st in
  (st1, extract_object response).

Definition enhance_missing_vietnamese (chinese_text : string)
    (english_meaning : option string) (st : State) : State * string :=
  let '(st1, response) :=
    _call_deepseek_api (Vietnamese chinese_text english_meaning) st in
  (st1, match response with
        | Some r => if str_truthy r then strip r else EmptyString
        | None => EmptyString
        end).

Definition enhance_missing_examples (chinese_text : string)
    (vietnamese_meaning : option string) (st : State) : State * result Json.value :=
  let '(st1, response) :=
    _call_deepseek_api (Examples chinese_text vietnamese_meaning) st in
  (st1, extract_array response).

Definition enhance_missing_grammar_info (chinese_text : string) (st : State)
  : State * result Json.value :=
  let '(st1, response) := _call_deepseek_api (GrammarInfo chinese_text) st in
  (st1, extract_object response).

(** [updates[k] = d[k]] when [d.get(k)] is true (and [guard] holds). *)
Definition take (d : Json.value) (k field : string) (guard : bool)
  : result (list (string * Json.value)) :=
  bind (Json.get d k)
       (fun v => Ok (if Json.truthy v && guard then [(field, v)] else [])).

(** The pronunciation part of [enhance_entry]. *)
Definition pronunciation_updates (entry : Dictionary.Entry) (st : State)
  : State * result (list (string * Json.value)) :=
  if negb (truthy (Dictionary.get entry "zhuyin"))
     || negb (truthy (Dictionary.get entry "hanviet_reading"))
  then
    let '(st1, r) := enhance_missing_pronunciation (Dictionary.word entry) st in
    (st1,
     bind r (fun pronunciation_data =>
     bind (take pronunciation_data "zhuyin" "zhuyin" true) (fun zh =>
     bind (take pronunciation_data "hanviet" "hanviet_reading" true) (fun hv =>
     bind (take pronunciation_data "pinyin_tones" "pinyin"
             (negb (truthy (Dictionary.get entry "pinyin")))) (fun pt =>
     Ok (zh ++ hv ++ pt)%list)))))
  else (st, Ok []).

Definition vietnamese_updates (entry : Dictionary.Entry) (st : State)
  : State * list (string * Json.value) :=
  if negb (truthy (Dictionary.get entry "vi_meaning")) then
    let '(st1, vietnamese_meaning) :=
      enhance_missing_vietnamese (Dictionary.word entry)
        (Dictionary.get entry "en_meaning") st in
    (st1, if str_truthy vietnamese_meaning
          then [("vi_meaning", Json.JStr vietnamese_meaning)] else [])
  else (st, []).

(** [updates.get('vi_meaning', entry.get('vi_meaning', ''))] *)
Definition examples_context (entry : Dictionary.Entry)
    (vi : list (string * Json.value)) : option string :=
  match vi with
  | (_, Json.JStr s) :: _ => Some s
  | _ => Dictionary.get entry "vi_meaning"
  end.

Definition examples_updates (entry : Dictionary.Entry)
    (vi : list (string * Json.value)) (st : State)
  : State * result (list (string * Json.value)) :=
  if negb (truthy (Dictionary.get entry "examples")) then
    let '(st1, r) :=
      enhance_missing_examples (Dictionary.word entry) (examples_context entry vi) st in
    (st1, bind r (fun examples =>
          Ok (if Json.truthy examples
              then [("examples", Json.JStr (json_dumps examples))] else [])))
  else (st, Ok []).

Definition grammar_updates (entry : Dictionary.Entry) (st : State)
  : State * result (list (string * Json.value)) :=
  if negb (truthy (Dictionary.get entry "grammar_info")) then
    let '(st1, r) := enhance_missing_grammar_info (Dictionary.word entry) st in
    (st1, bind r (fun grammar_info =>
          Ok (if Json.truthy grammar_info
              then [("grammar_info", Json.JStr (json_dumps grammar_info))] else [])))
  else (st, Ok []).

(** The [updates] dict of [enhance_entry], in insertion order; an
    exception ends the computation where it is raised. *)
Definition entry_updates (entry : Dictionary.Entry) (st : State)
  : State * result (list (string * Json.value)) :=
  let '(st1, r1) := pronunciation_updates entry st in
  match r1 with
  | Raise e => (st1, Raise e)
  | Ok pr =>
      let '(st2, vi) := vietnamese_updates entry st1 in
      let '(st3, r3) := examples_updates entry vi st2 in
      match r3 with
      | Raise e => (st3, Raise e)
      | Ok ex =>
          let '(st4, r4) := grammar_updates entry st3 in
          match r4 with
          | Raise e => (st4, Raise e)
          | Ok gr => (st4, Ok (pr ++ vi ++ ex ++ gr)%list)
          end
      end
  end.

(** The parameters of the UPDATE, as the text the TEXT columns store. *)
Fixpoint bind_all (updates : list (string * Json.value))
  : result (list (string * string)) :=
  match updates with
  | [] => Ok []
  | (k, v) :: r =>
      bind (bind_parameter v) (fun s =>
      bind (bind_all r) (fun r' => Ok ((k, s) :: r')))
  end.

(** [_update_database_entry]: any exception gives [False]. *)
Definition _update_database_entry (entry_id : Z)
    (updates : list (string * Json.value)) (now : string) (st : State)
  : State * bool :=
  match bind_all updates with
  | Ok values =>
      match Dictionary.update (values ++ [("updated_at", now)])%list entry_id (conn st) with
      | Ok rows => (set_conn rows st, true)
      | Raise _ => (st, false)
      end
  | Raise _ => (st, false)
  end.

(** The reading of [datetime.now().isoformat()] at a given time. *)
Variable isoformat : Q -> string.

Definition enhance_entry (entry : Dictionary.Entry) (st : State)
  : State * result bool :=
  let '(st1, r) := entry_updates entry st in
  match r with
  | Raise e => (st1, Raise e)
  | Ok [] => (st1, Ok false)
  | Ok updates =>
      let '(st2, b) :=
        _update_database_entry (Dictionary.id entry) updates (isoformat (time st1)) st1 in
      (st2, Ok b)
  end.

(** The [for entry in entries] loop of [enhance_batch]. *)
Fixpoint process_entries (entries : list Dictionary.Entry) (max_entries : Z)
    (st : State) (p : Progress) : State * Progress :=
  match entries with
  | [] => (st, p)
  | entry :: rest =>
      if total_processed p >=? max_entries then (st, p)
      else
        let '(st1, r) := enhance_entry entry st in
        let p1 :=
          match r with
          | Ok true => mkProgress (enhanced_count p + 1) (total_processed p + 1)
          | Ok false => mkProgress (enhanced_count p) (total_processed p + 1)
          | Raise _ => mkProgress (enhanced_count p) (total_processed p + 1)
          end in
        process_entries rest max_entries st1 p1
  end.

(** The [while total_processed < max_entries] loop, for at most [fuel]
    selection queries; [None] when the fuel runs out. *)
Fixpoint batch_loop (fuel : nat) (batch_size max_entries : Z)
    (st : State) (p : Progress) : option (State * Progress) :=
  if total_processed p <? max_entries then
    match fuel with
    | O => None
    | S fuel' =>
        match find_entries_needing_enhancement batch_size (conn st) with
        | [] => Some (st, p)
        | entries =>
            let '(st1, p1) := process_entries entries max_entries st p in
            batch_loop fuel' batch_size max_entries st1 p1
        end
    end
  else Some (st, p).

(** [enhance_batch]: the state after the run and the two counters; the
    method returns [enhanced_count]. *)
Definition enhance_batch (batch_size max_entries : Z) (st : State)
  : option (State * Progress) :=
  batch_loop (Z.to_nat max_entries) batch_size max_entries st (mkProgress 0 0).

End Enhancer.

End DeepseekEnhancer.

(** ** ai_data_completion.py: class ComprehensiveDataCompletion *)

Module AiDataCompletion.
Import Py.

Record Statistics : Type := mkStatistics {
  total_entries : Z;
  with_english : Z;
  with_vietnamese : Z;
  with_pinyin : Z;
  with_zhuyin : Z;
  with_hanviet : Z;
  english_rate : Q;
  vietnamese_rate : Q;
  pinyin_rate : Q;
  zhuyin_rate : Q;
  hanviet_rate : Q
}.

(** [a / b] on Python ints. *)
Definition truediv (a b : Z) : result Q :=
  if b =? 0 then Raise ZeroDivisionError else Ok (inject_Z a / inject_Z b)%Q.

(** [(n / total * 100) if total > 0 else 0] *)
Definition completion_rate (n total : Z) : result Q :=
  if total >? 0 then bind (truediv n total) (fun q => Ok (q * 100)%Q)
  else Ok 0%Q.

(** [SELECT COUNT( * ) FROM dictionary WHERE c IS NOT NULL AND c != ''] *)
Definition count_with (column : Dictionary.Entry -> option string)
    (rows : list Dictionary.Entry) : Z :=
  Z.of_nat (List.length (filter (fun e => truthy (column e)) rows)).

(** How a cursor of the connection hands out a row: sqlite3's own way is a
    tuple of the cells; [__init__] installs a factory that zips the column
    names of [cursor.description] with the cells into a dict. *)
Inductive RowFactory : Type :=
| TupleRows
| DictRows.

(** A subscript: an int as in [row[0]], or a str as in [row['word']]. *)
Inductive Key : Type :=
| KInt (i : Z)
| KStr (s : string).

Definition key_eqb (a b : Key) : bool :=
  match a, b with
  | KInt i, KInt j => i =? j
  | KStr x, KStr y => String.eqb x y
  | _, _ => false
  end.

(** A fetched row whose cells are integers. *)
Inductive Row : Type :=
| Tuple (cells : list Z)
| Dict (items : list (Key * Z)).

(** [self.conn]: its row factory and the rows of [dictionary]. *)
Record Connection : Type := mkConnection {
  row_factory : RowFactory;
  dictionary : list Dictionary.Entry
}.

(** [__init__]: [sqlite3.connect] and the assignment of the dict-building
    lambda to [self.conn.row_factory]. *)
Definition __init__ (rows : list Dictionary.Entry) : Connection :=
  mkConnection DictRows rows.

(** The name SQLite gives the column of a [SELECT COUNT( * )]. *)
Definition count_column : string := "COUNT(" ++ "*)".

(** The row object for the cells [cells] of the columns [description]. *)
Definition make_row (f : RowFactory) (description : list string) (cells : list Z) : Row :=
  match f with
  | TupleRows => Tuple cells
  | DictRows => Dict (combine (map KStr description) cells)
  end.

(** [cursor.fetchone()] after a COUNT query whose result is [n]. *)
Definition fetchone (self : Connection) (n : Z) : Row :=
  make_row (row_factory self) [count_column] [n].

(** [row[k]]: on a tuple the cell at an index (negative ones count from the
    end); on a dict the value of the key, [KeyError] when [k] is no key. *)
Definition getitem (row : Row) (k : Key) : result Z :=
  match row with
  | Tuple cells =>
      match k with
      | KInt i =>
          let n := Z.of_nat (List.length cells) in
          let j := if i <? 0 then n + i else i in
          if (0 <=? j) && (j <? n)
          then match nth_error cells (Z.to_nat j) with
               | Some c => Ok c
               | None => Raise OtherError
               end
          else Raise OtherError          (* IndexError *)
      | KStr _ => Raise OtherError       (* TypeError *)
      end
  | Dict items =>
      match List.find (fun kv => key_eqb (fst kv) k) items with
      | Some (_, c) => Ok c
      | None => Raise KeyError
      end
  end.

(** [cursor.execute(<a COUNT query>); cursor.fetchone()[0]] *)
Definition fetch_count (self : Connection) (n : Z) : result Z :=
  getitem (fetchone self n) (KInt 0).

Definition get_initial_statistics (self : Connection) : result Statistics :=
  let rows := dictionary self in
  bind (fetch_count self (Z.of_nat (List.length rows))) (fun total =>
  bind (fetch_count self (count_with Dictionary.en_meaning rows)) (fun with_english =>
  bind (fetch_count self (count_with Dictionary.vi_meaning rows)) (fun with_vietnamese =>
  bind (fetch_count self (count_with Dictionary.pinyin rows)) (fun with_pinyin =>
  bind (fetch_count self (count_with Dictionary.zhuyin rows)) (fun with_zhuyin =>
  bind (fetch_count self (count_with Dictionary.hanviet_reading rows)) (fun with_hanviet =>
  bind (completion_rate with_english total) (fun english_rate =>
  bind (completion_rate with_vietnamese total) (fun vietnamese_rate =>
  bind (completion_rate with_pinyin total) (fun pinyin_rate =>
  bind (completion_rate with_zhuyin total) (fun zhuyin_rate =>
  bind (completion_rate with_hanviet total) (fun hanviet_rate =>
  Ok (mkStatistics total with_english with_vietnamese with_pinyin with_zhuyin
        with_hanviet english_rate vietnamese_rate pinyin_rate zhuyin_rate
        hanviet_rate)))))))))))).

End AiDataCompletion.

(** ** Concrete stores and collaborators used by the examples *)

Module Scenario.
Import Py.

(** [quoted "a"] is the text of the JSON string literal for [a]. *)
Definition quoted (s : string) : string :=
  String "034" (s ++ String "034" EmptyString).

(** The Primary Store of the reconciliation scenario: one entry for
    [word] with an empty translation. *)
Definition primary_entry (i : Z) : Dictionary.Entry :=
  Dictionary.mkEntry i "你好" None None None None (Some EmptyString) None
    None None None None None None None None None.

(** Its Source Store entry, with the serialized definitions [d]. *)
Definition source_entry (i : Z) (d created : string) : Cedict.Entry :=
  Cedict.mkEntry i "你好" "你好" "ni3 hao3" "hello" d created.

(** The definitions column as [download_cedict.py] writes it for the gloss
    [hello]. *)
Definition hello_definitions : string := "[" ++ quoted "hello" ++ "]".

Definition primary : list Dictionary.Entry := [primary_entry 1].
Definition source : list Cedict.Entry :=
  [source_entry 1 hello_definitions "2024-01-01 00:00:00"].

(** A second Source Store with two entries that are new to [primary]. *)
Definition source3 : list Cedict.Entry :=
  source ++ [Cedict.mkEntry 2 "一" "一" "yi1" "one" ("[" ++ quoted "one" ++ "]") "2024-01-01 00:00:00";
             Cedict.mkEntry 3 "貓" "猫" "mao1" "cat" ("[" ++ quoted "cat" ++ "]") "2024-01-01 00:00:00"]%list.

(** An entry that already carries definitions, a translation and both
    secondary readings but no borrowed-script reading. *)
Definition curated_entry : Dictionary.Entry :=
  Dictionary.mkEntry 7 "你好" None None (Some "nǐ hǎo") (Some "ㄋㄧˇ ㄏㄠˇ")
    (Some "xin chào") (Some "hi") None None None (Some 5) None None None
    (Some ("[" ++ quoted "hi there" ++ "]")) None.

(** An API that never answers: every exchange fails. *)
Definition no_reply : DeepseekEnhancer.Request -> Q -> option string :=
  fun _ _ => None.

(** An API that answers every request with the same text. *)
Definition always (reply : string) : DeepseekEnhancer.Request -> Q -> option string :=
  fun _ _ => Some reply.

(** Parameter binding for the values the examples store: a [str] is
    stored as it is; a list or a dict is refused, and so is every other
    value in this instance. *)
Definition bind_str (v : Json.value) : result string :=
  match v with
  | Json.JStr s => Ok s
  | _ => Raise OtherError
  end.

Definition dumps_placeholder : Json.dumps_fn := fun _ => "[...]".

Definition isoformat_epoch : Q -> string := fun _ => "1970-01-01T00:00:00".

(** A fresh enhancer ([request_delay = 1.0], [last_request_time = 0])
    over [rows], at time [t]. *)
Definition enhancer (t : Q) (rows : list Dictionary.Entry) : DeepseekEnhancer.State :=
  DeepseekEnhancer.mkState 1 0 t [] rows.

(** Twenty-five entries, ids 1 to 25, all without a translation. *)
Definition twenty_five : list Dictionary.Entry :=
  map (fun n => Dictionary.blank (Z.of_nat n) "字") (seq 1 25).

(** [n] opening square brackets before [inner]. *)
Fixpoint nested (n : nat) (inner : string) : string :=
  match n with
  | O => inner
  | S m => String "[" (nested m inner)
  end.

(** A reply of 1001 opening square brackets, a letter and one closing
    bracket: no part of it is a JSON array. *)
Definition deep_reply : string := nested 1001 "x]".

End Scenario.

(** ** The claims of the specification, as predicates on the model *)

Module Spec.
Import Py.

(** A patch is non-destructive for an entry when every field it assigns
    is empty or NULL in the entry. *)
Definition non_destructive {V : Type} (entry : Dictionary.Entry)
    (updates : list (string * V)) : Prop :=
  Forall (fun kv => truthy (Dictionary.get entry (fst kv)) = false) updates.

(** The fields the Reconciler's patch assigns only when they are missing. *)
Definition reconciler_guarded : list string :=
  ["en_meaning"; "pinyin"; "traditional"; "simplified"].

(** The fields the Scheduler's patch assigns only when they are empty. *)
Definition scheduler_guarded : list string :=
  ["pinyin"; "vi_meaning"; "examples"; "grammar_info"].

(** A key of the Reconciler's patch: a guarded field that is missing in
    the entry. *)
Definition reconciler_ok (main_entry : Dictionary.Entry) (kv : string * string) : Prop :=
  In (fst kv) reconciler_guarded
  /\ IntegrateCedict.missing (Dictionary.get main_entry (fst kv)) = true.

(** A key of the Scheduler's patch: a guarded field that is empty in the
    entry, or one of the two readings requested together. *)
Definition scheduler_ok {V : Type} (entry : Dictionary.Entry) (kv : string * V) : Prop :=
  (In (fst kv) scheduler_guarded
   /\ truthy (Dictionary.get entry (fst kv)) = false)
  \/ In (fst kv) ["zhuyin"; "hanviet_reading"].

(** A second run of [integrate_full] right after a first one reports no
    match, no update and no insertion. *)
Definition second_run_counts_zero (json_loads : Json.loads_fn) (now : string)
    (K : Z) (rows : list Dictionary.Entry) (cedict : list Cedict.Entry) : Prop :=
  let rows1 := fst (IntegrateCedict.integrate_full json_loads now K rows cedict) in
  let r2 := snd (IntegrateCedict.integrate_full json_loads now K rows1 cedict) in
  IntegrateCedict.matched_entries r2 = 0
  /\ IntegrateCedict.updated_entries r2 = 0
  /\ IntegrateCedict.added_entries r2 = 0.

(** The Source entries that the insert phase writes to the table. *)
Definition inserted_sources (json_loads : Json.loads_fn) (limit : Z)
    (rows : list Dictionary.Entry) (cedict : list Cedict.Entry) : list Cedict.Entry :=
  filter (IntegrateCedict.insertable json_loads)
         (IntegrateCedict.new_cedict_entries limit rows cedict).

(** The table as the insert phase of a run finds it. *)
Definition rows_before_insert (json_loads : Json.loads_fn) (now : string)
    (rows : list Dictionary.Entry) (cedict : list Cedict.Entry) : list Dictionary.Entry :=
  fst (IntegrateCedict.update_existing_entries json_loads now
         (IntegrateCedict.find_matching_entries rows cedict) rows).

(** [w] has a match in the Source Store. *)
Definition has_match (cedict : list Cedict.Entry) (w : string) : bool :=
  match IntegrateCedict.lookup_cedict w cedict with
  | Some _ => true
  | None => false
  end.

(** [w] is the identity string of some row. *)
Definition is_identity (w : string) (rows : list Dictionary.Entry) : Prop :=
  In w (map Dictionary.word rows).

(** A reply holds no valid bracketed structure of a kind when it has no
    opening bracket followed by a closing one, or when the text between
    the first opening and the last closing bracket is not a JSON
    document. *)
Definition no_valid_structure (json_loads : Json.loads_fn) (open close : ascii)
    (reply : option string) : Prop :=
  match reply with
  | None => True
  | Some r =>
      match DeepseekEnhancer.bracketed open close r with
      | None => True
      | Some json_str => json_loads json_str = Raise JSONDecodeError
      end
  end.

(** Descending frequency rank, NULL ranks last. *)
Definition rank_gt (x y : option Z) : Prop :=
  match x, y with
  | Some a, Some b => b < a
  | Some _, None => True
  | None, _ => False
  end.

(** [a] may come before [b] in the selection: a higher frequency rank, or
    the same rank and an id that is not larger. *)
Definition precedes (a b : Dictionary.Entry) : Prop :=
  rank_gt (Dictionary.frequency_rank a) (Dictionary.frequency_rank b)
  \/ (Dictionary.frequency_rank a = Dictionary.frequency_rank b
      /\ Dictionary.id a <= Dictionary.id b).

(** The counters of a batch stay ordered:
    [0 <= enhanced_count <= total_processed]. *)
Definition counters_ordered (p : DeepseekEnhancer.Progress) : Prop :=
  0 <= DeepseekEnhancer.enhanced_count p <= DeepseekEnhancer.total_processed p.

(** The time since the previous call, at the start of [_rate_limit]. *)
Definition elapsed (st : DeepseekEnhancer.State) : Q :=
  (DeepseekEnhancer.time st - DeepseekEnhancer.last_request_time st)%Q.

(** The exceptions the extraction catches:
    [except (json.JSONDecodeError, ValueError)]. *)
Definition caught (e : exn) : bool :=
  match e with
  | JSONDecodeError | ValueError => true
  | _ => false
  end.

(** C5 as it is worded.  A reply holds no valid bracketed structure when it
    has no bracketed text or [json.loads] does not accept the one it has,
    whatever way it refuses it. *)
Definition not_a_document (json_loads : Json.loads_fn) (open close : ascii)
    (reply : option string) : Prop :=
  match reply with
  | None => True
  | Some r =>
      match DeepseekEnhancer.bracketed open close r with
      | None => True
      | Some json_str => forall v, json_loads json_str <> Ok v
      end
  end.

(** On such a reply to an examples request the client returns the empty
    list and does not raise. *)
Definition tolerates_malformed_examples (json_loads : Json.loads_fn)
    (post : DeepseekEnhancer.Request -> Q -> option string)
    (chinese_text : string) (vietnamese_meaning : option string)
    (st : DeepseekEnhancer.State) : Prop :=
  not_a_document json_loads "[" "]"
    (snd (DeepseekEnhancer._call_deepseek_api post
            (DeepseekEnhancer.Examples chinese_text vietnamese_meaning) st)) ->
  snd (DeepseekEnhancer.enhance_missing_examples json_loads post chinese_text
         vietnamese_meaning st) = Ok (Json.JArr []).

(** C7 as it is worded.  Within a frequency rank the entries come in
    ascending order of their identity, the word string (compared byte by
    byte, as SQLite compares TEXT). *)
Definition precedes_by_identity (a b : Dictionary.Entry) : Prop :=
  rank_gt (Dictionary.frequency_rank a) (Dictionary.frequency_rank b)
  \/ (Dictionary.frequency_rank a = Dictionary.frequency_rank b
      /\ String.leb (Dictionary.word a) (Dictionary.word b) = true).

(** The selection holds only entries of the table that miss a field, in
    that order, and no more of them than the limit (none for a negative
    one). *)
Definition selection_as_stated (limit : Z) (rows : list Dictionary.Entry) : Prop :=
  let out := DeepseekEnhancer.find_entries_needing_enhancement limit rows in
  (forall e, In e out ->
     In e rows /\ DeepseekEnhancer.needs_enhancement e = true)
  /\ StronglySorted precedes_by_identity out
  /\ Z.of_nat (List.length out) <= Z.max 0 limit.

(** The time [_rate_limit] blocks for. *)
Definition blocked (st : DeepseekEnhancer.State) : Q :=
  match DeepseekEnhancer.rate_limit_sleep st with
  | Some d => d
  | None => 0
  end.

(** C8 as it is worded, at the start of a call. *)
Definition rate_limit_as_stated (st : DeepseekEnhancer.State) : Prop :=
  ((elapsed st < DeepseekEnhancer.request_delay st)%Q ->
   (blocked st == DeepseekEnhancer.request_delay st - elapsed st)%Q)
  /\ (blocked st <= DeepseekEnhancer.request_delay st)%Q
  /\ ((DeepseekEnhancer.request_delay st <= elapsed st)%Q -> (blocked st == 0)%Q).

(** The enhancer when [time.time()] has moved by [d] since the state [st]:
    nothing else differs.  A clock that was set back gives a negative [d]. *)
Definition later (d : Q) (st : DeepseekEnhancer.State) : DeepseekEnhancer.State :=
  DeepseekEnhancer.mkState (DeepseekEnhancer.request_delay st)
    (DeepseekEnhancer.last_request_time st) (DeepseekEnhancer.time st + d)%Q
    (DeepseekEnhancer.slept st) (DeepseekEnhancer.conn st).

End Spec.

(** ** integrate_cedict.py: statistics and schema evolution *)

Module IntegrateCedictSchema.
Import Py.

(** The dict of [get_main_dict_stats]. *)
Record MainStats : Type := mkMainStats {
  total_entries : Z;
  with_english : Z;
  with_vietnamese : Z
}.

(** The dict of [get_cedict_stats]. *)
Record CedictStats : Type := mkCedictStats {
  cedict_total_entries : Z;
  unique_simplified : Z;
  unique_traditional : Z
}.

(** [SELECT COUNT( * ) FROM dictionary WHERE c IS NOT NULL AND c != ''] *)
Definition count_filled (column : Dictionary.Entry -> option string)
    (rows : list Dictionary.Entry) : Z :=
  Z.of_nat (List.length (filter (fun e => truthy (column e)) rows)).

Definition get_main_dict_stats (rows : list Dictionary.Entry) : MainStats :=
  mkMainStats (Z.of_nat (List.length rows))
    (count_filled Dictionary.en_meaning rows)
    (count_filled Dictionary.vi_meaning rows).

(** [SELECT COUNT(DISTINCT c) FROM cedict_entries], for a NOT NULL column. *)
Definition count_distinct (column : Cedict.Entry -> string)
    (cedict : list Cedict.Entry) : Z :=
  Z.of_nat (List.length (nodup string_dec (map column cedict))).

Definition get_cedict_stats (cedict : list Cedict.Entry) : CedictStats :=
  mkCedictStats (Z.of_nat (List.length cedict))
    (count_distinct Cedict.simplified cedict)
    (count_distinct Cedict.traditional cedict).

(** The keys of [required_columns], in the order of the dict. *)
Definition required_columns : list string :=
  ["traditional"; "simplified"; "cedict_definitions"; "source"].

(** Column names are compared by SQLite without regard to the case of the
    ASCII letters. *)
Definition ascii_lower (c : ascii) : ascii :=
  let n := nat_of_ascii c in
  if (65 <=? n)%nat && (n <=? 90)%nat then ascii_of_nat (n + 32) else c.

Fixpoint lower (s : string) : string :=
  match s with
  | EmptyString => EmptyString
  | String c r => String (ascii_lower c) (lower r)
  end.

Definition same_column (a b : string) : bool := String.eqb (lower a) (lower b).

(** [ALTER TABLE dictionary ADD COLUMN c TEXT]: the new column comes last;
    [None] when the table has a column of that name already. *)
Definition add_column (c : string) (columns : list string) : option (list string) :=
  if existsb (same_column c) columns then None else Some (columns ++ [c])%list.

(** One iteration of the loop over [required_columns]; [existing_columns]
    is the set read by the PRAGMA before the loop.  A failed ALTER is logged
    and the loop goes on. *)
Definition add_if_missing (existing_columns : list string)
    (columns : list string) (column : string) : list string :=
  if negb (existsb (String.eqb column) existing_columns) then
    match add_column column columns with
    | Some columns' => columns'
    | None => columns
    end
  else columns.

(** [add_missing_database_columns], on the list of the column names of
    [dictionary] in table order. *)
Definition add_missing_database_columns (columns : list string) : list string :=
  fold_left (add_if_missing columns) required_columns columns.

End IntegrateCedictSchema.

(** ** ai_data_completion.py: the quality check and the overall score *)

Module QualityCheck.
Import Py.

(** [dict(cursor.fetchall())] after the GROUP BY query.  From tuples
    [(source, count)] it is the dict from each source to its count.  A dict
    row is read as the sequence of its two keys, the column names, so every
    row gives the one item from ['source'] to the name of the count column. *)
Inductive SourceCounts : Type :=
| BySource (counts : list (string * Z))
| ByColumn (names : list (string * string)).

Record Counts : Type := mkCounts {
  missing_critical : Z;
  no_pronunciation : Z;
  no_translation : Z;
  source_counts : SourceCounts
}.

(** [c IS NULL OR c = ''] *)
Definition empty (v : option string) : bool := negb (truthy v).

Definition count (p : Dictionary.Entry -> bool) (rows : list Dictionary.Entry) : Z :=
  Z.of_nat (List.length (filter p rows)).

(** The sources of the rows whose source is not NULL, in table order. *)
Fixpoint sources (rows : list Dictionary.Entry) : list string :=
  match rows with
  | [] => []
  | r :: rest =>
      match Dictionary.source r with
      | Some s => s :: sources rest
      | None => sources rest
      end
  end.

(** The rows of [SELECT source, COUNT( * ) ... WHERE source IS NOT NULL
    GROUP BY source]: one per source, with the number of its entries. *)
Definition group_by_source (rows : list Dictionary.Entry) : list (string * Z) :=
  map (fun s => (s, Z.of_nat (count_occ string_dec (sources rows) s)))
      (nodup string_dec (sources rows)).

Definition dict_fetchall (self : AiDataCompletion.Connection)
    (groups : list (string * Z)) : SourceCounts :=
  match AiDataCompletion.row_factory self with
  | AiDataCompletion.TupleRows => BySource groups
  | AiDataCompletion.DictRows =>
      ByColumn (match groups with
                | [] => []
                | _ :: _ => [("source", AiDataCompletion.count_column)]
                end)
  end.

Definition step4_quality_check (self : AiDataCompletion.Connection) : result Counts :=
  let rows := AiDataCompletion.dictionary self in
  bind (AiDataCompletion.fetch_count self
          (count (fun e => empty (Dictionary.pinyin e) || empty (Dictionary.en_meaning e)) rows))
       (fun missing_critical =>
  bind (AiDataCompletion.fetch_count self
          (count (fun e => empty (Dictionary.pinyin e) && empty (Dictionary.zhuyin e)) rows))
       (fun no_pronunciation =>
  bind (AiDataCompletion.fetch_count self
          (count (fun e => empty (Dictionary.en_meaning e) && empty (Dictionary.vi_meaning e)) rows))
       (fun no_translation =>
  Ok (mkCounts missing_critical no_pronunciation no_translation
        (dict_fetchall self (group_by_source rows)))))).

(** The overall completion score of the report and of
    [run_complete_workflow]: the unweighted mean of the five rates. *)
Definition avg_completion (s : AiDataCompletion.Statistics) : Q :=
  ((AiDataCompletion.english_rate s + AiDataCompletion.vietnamese_rate s
    + AiDataCompletion.pinyin_rate s + AiDataCompletion.zhuyin_rate s
    + AiDataCompletion.hanviet_rate s) / 5)%Q.

End QualityCheck.

(** ** merge_zhuyin.py *)

Module MergeZhuyin.
Import Py.

(** A row of [SELECT word, zhuyin FROM zhuyin]. *)
Record Row : Type := mkRow {
  word : string;
  zhuyin : option string
}.

(** [{row['word']: row['zhuyin'] for row in ... if row['zhuyin']}], as the
    list of its assignments in order. *)
Fixpoint zhuyin_map (zrows : list Row) : list (string * string) :=
  match zrows with
  | [] => []
  | r :: rest =>
      if truthy (zhuyin r)
      then match zhuyin r with
           | Some z => (word r, z) :: zhuyin_map rest
           | None => zhuyin_map rest
           end
      else zhuyin_map rest
  end.

(** [d.get(k)]: the latest assignment to [k]. *)
Fixpoint dict_get (k : string) (d : list (string * string)) : option string :=
  match d with
  | [] => None
  | (k', v) :: rest =>
      match dict_get k rest with
      | Some w => Some w
      | None => if String.eqb k k' then Some v else None
      end
  end.

(** One iteration of the loop over the rows read from [dictionary]. *)
Definition merge_one (zmap : list (string * string))
    (st : result (list Dictionary.Entry * Z)) (row : Dictionary.Entry)
  : result (list Dictionary.Entry * Z) :=
  bind st (fun '(rows, update_count) =>
    match dict_get (Dictionary.word row) zmap with
    | Some z =>
        if str_truthy z then
          bind (Dictionary.update [("zhuyin", z)] (Dictionary.id row) rows)
               (fun rows' => Ok (rows', update_count + 1))
        else Ok (rows, update_count)
    | None => Ok (rows, update_count)
    end).

(** The script: the table after it and [update_count]. *)
Definition merge_zhuyin (zrows : list Row) (rows : list Dictionary.Entry)
  : result (list Dictionary.Entry * Z) :=
  fold_left (merge_one (zhuyin_map zrows)) rows (Ok (rows, 0)).

End MergeZhuyin.

(** ** import_vietnamese_data.py: import_existing_databases *)

Module ImportVietnameseData.

Definition is_null {A : Type} (v : option A) : bool :=
  match v with None => true | Some _ => false end.

Definition with_zhuyin (v : option string) (e : Dictionary.Entry) : Dictionary.Entry :=
  let '(Dictionary.mkEntry i w tr si pi zh vi en po hs to fr hv ca ua cd so) := e in
  Dictionary.mkEntry i w tr si pi v vi en po hs to fr hv ca ua cd so.

Definition with_hanviet (v : option string) (e : Dictionary.Entry) : Dictionary.Entry :=
  let '(Dictionary.mkEntry i w tr si pi zh vi en po hs to fr hv ca ua cd so) := e in
  Dictionary.mkEntry i w tr si pi zh vi en po hs to fr v ca ua cd so.

(** [UPDATE dictionary SET zhuyin = ? WHERE word = ? AND zhuyin IS NULL] *)
Definition update_zhuyin (rows : list Dictionary.Entry)
    (data : string * option string) : list Dictionary.Entry :=
  let '(word, zhuyin) := data in
  map (fun r => if String.eqb (Dictionary.word r) word && is_null (Dictionary.zhuyin r)
                then with_zhuyin zhuyin r else r) rows.

(** [UPDATE dictionary SET hanviet_reading = ? WHERE word = ? AND
    hanviet_reading IS NULL] *)
Definition update_hanviet (rows : list Dictionary.Entry)
    (data : string * option string) : list Dictionary.Entry :=
  let '(word, hanviet) := data in
  map (fun r => if String.eqb (Dictionary.word r) word
                   && is_null (Dictionary.hanviet_reading r)
                then with_hanviet hanviet r else r) rows.

(** [import_existing_databases], both side tables being present:
    [zhuyin_data] and [hanviet_data] are the rows of the two SELECTs, with
    words that are not NULL. *)
Definition import_existing_databases (zhuyin_data hanviet_data : list (string * option string))
    (rows : list Dictionary.Entry) : list Dictionary.Entry :=
  fold_left update_hanviet hanviet_data (fold_left update_zhuyin zhuyin_data rows).

End ImportVietnameseData.

(** ** download_cedict.py: create_cedict_database *)

Module DownloadCedict.

(** The dict that [parse_cedict_line] returns. *)
Record Parsed : Type := mkParsed {
  traditional : string;
  simplified : string;
  pinyin : string;
  definitions : list string;
  english : string
}.

(** The columns of [UNIQUE(traditional, simplified, pinyin)]. *)
Definition key (e : Cedict.Entry) : string * string * string :=
  (Cedict.traditional e, Cedict.simplified e, Cedict.pinyin e).

Definition parsed_key (p : Parsed) : string * string * string :=
  (traditional p, simplified p, pinyin p).

Definition key_eqb (a b : string * string * string) : bool :=
  let '(a1, a2, a3) := a in
  let '(b1, b2, b3) := b in
  String.eqb a1 b1 && String.eqb a2 b2 && String.eqb a3 b3.

Definition next_id (rows : list Cedict.Entry) : Z :=
  1 + fold_right (fun r m => Z.max (Cedict.id r) m) 0 rows.

Section Importer.
(** [json.dumps(definitions, ensure_ascii=False)] on a list of strings, and
    the CURRENT_TIMESTAMP of the import. *)
Variable dumps_definitions : list string -> string.
Variable current_timestamp : string.

(** One [INSERT OR IGNORE]: the row is ignored when the table holds one with
    the same three key columns. *)
Definition insert_or_ignore (st : list Cedict.Entry * Z * Z) (entry : Parsed)
  : list Cedict.Entry * Z * Z :=
  let '(rows, inserted, skipped) := st in
  if existsb (fun r => key_eqb (key r) (parsed_key entry)) rows
  then (rows, inserted, skipped + 1)
  else ((rows ++ [Cedict.mkEntry (next_id rows) (traditional entry) (simplified entry)
                    (pinyin entry) (english entry)
                    (dumps_definitions (definitions entry)) current_timestamp])%list,
        inserted + 1, skipped).

(** [create_cedict_database], from the rows the table holds already (none
    for a new database): the table after it, [inserted] and [skipped]. *)
Definition create_cedict_database (entries : list Parsed) (rows : list Cedict.Entry)
  : list Cedict.Entry * Z * Z :=
  fold_left insert_or_ignore entries (rows, 0, 0).

End Importer.

End DownloadCedict.

(** ** Predicates used by the further properties *)

Module Props.



(** [r'] is the row [r] after updates that may only touch the rows whose id
    is in [ids]: same id, same identity string, and the same row altogether
    when its id is not in [ids]. *)
Definition kept_outside (ids : list Z) (r r' : Dictionary.Entry) : Prop :=
  Dictionary.id r' = Dictionary.id r
  /\ Dictionary.word r' = Dictionary.word r
  /\ (~ In (Dictionary.id r) ids -> r' = r).

(** The entry after the UPDATE that the Reconciler builds from its patch (no
    UPDATE is issued for an empty patch); [None] when the patch could not be
    computed or applied. *)
Definition reconciled (json_loads : Json.loads_fn) (now : string)
    (main_entry : Dictionary.Entry) (cedict_entry : Cedict.Entry) : option Dictionary.Entry :=
  match IntegrateCedict.enhance_entry_with_cedict json_loads main_entry cedict_entry with
  | Py.Ok [] => Some main_entry
  | Py.Ok updates => Dictionary.set_all (updates ++ [("updated_at", now)])%list main_entry
  | Py.Raise _ => None
  end.

End Props.

Module PropsEnhancer.

(** The character [c] does not occur in [s]. *)
Fixpoint lacks (c : ascii) (s : string) : Prop :=
  match s with
  | EmptyString => True
  | String d r => d <> c /\ lacks c r
  end.

(** Two rows agree on every column but zhuyin. *)
Definition same_but_zhuyin (r r' : Dictionary.Entry) : Prop :=
  ImportVietnameseData.with_zhuyin None r' = ImportVietnameseData.with_zhuyin None r.

(** Two rows agree on every column but hanviet_reading. *)
Definition same_but_hanviet (r r' : Dictionary.Entry) : Prop :=
  ImportVietnameseData.with_hanviet None r' = ImportVietnameseData.with_hanviet None r.

End PropsEnhancer.

Module PropsReporter.

(** The sum of the counts of a [GROUP BY] result. *)
Definition total_count (groups : list (string * Z)) : Z :=
  fold_right (fun kv acc => snd kv + acc) 0 groups.

(** A rate is a percentage. *)
Definition percentage (q : Q) : Prop := (0 <= q <= 100)%Q.

End PropsReporter.

Module PropsImport.

(** A row after [merge_zhuyin.py]: its zhuyin is the one the side table has
    for its word, when it has one. *)
Definition merged (zmap : list (string * string)) (r : Dictionary.Entry) : Dictionary.Entry :=
  match MergeZhuyin.dict_get (Dictionary.word r) zmap with
  | Some z => ImportVietnameseData.with_zhuyin (Some z) r
  | None => r
  end.

(** The side table has a zhuyin for the word of the row. *)
Definition in_map (zmap : list (string * string)) (r : Dictionary.Entry) : bool :=
  match MergeZhuyin.dict_get (Dictionary.word r) zmap with
  | Some _ => true
  | None => false
  end.

(** What [import_existing_databases] may do to a row: fill a zhuyin or a
    hanviet_reading that is NULL, and nothing else. *)
Definition filled (r r' : Dictionary.Entry) : Prop :=
  ImportVietnameseData.with_zhuyin None (ImportVietnameseData.with_hanviet None r')
  = ImportVietnameseData.with_zhuyin None (ImportVietnameseData.with_hanviet None r)
  /\ (Dictionary.zhuyin r <> None -> Dictionary.zhuyin r' = Dictionary.zhuyin r)
  /\ (Dictionary.hanviet_reading r <> None ->
      Dictionary.hanviet_reading r' = Dictionary.hanviet_reading r).

(** The first reading that is not NULL among the rows of a side table for
    [word]; NULL when there is none. *)
Definition first_reading (word : string) (data : list (string * option string))
  : option string :=
  match List.find (fun d => String.eqb (fst d) word
                            && negb (ImportVietnameseData.is_null (snd d))) data with
  | Some (_, v) => v
  | None => None
  end.

(** What the UPDATEs of one side table do to one row. *)
Definition zhuyin_step (r : Dictionary.Entry) (d : string * option string) : Dictionary.Entry :=
  if String.eqb (Dictionary.word r) (fst d) && ImportVietnameseData.is_null (Dictionary.zhuyin r)
  then ImportVietnameseData.with_zhuyin (snd d) r else r.

Definition hanviet_step (r : Dictionary.Entry) (d : string * option string) : Dictionary.Entry :=
  if String.eqb (Dictionary.word r) (fst d) && ImportVietnameseData.is_null (Dictionary.hanviet_reading r)
  then ImportVietnameseData.with_hanviet (snd d) r else r.

End PropsImport.

(* ================================================================== *)
(** * Part II: the properties                                          *)
(* ================================================================== *)

(** ** Tone-mark rendering *)

Module PinyinFacts.
Import PinyinUtils.

Example convert_ni3_hao3 :
  convert_pinyin_tone_numbers "ni3 hao3" = "nǐ hǎo".
Proof. vm_compute. reflexivity. Qed.

(** The transform is a function of its argument only: it leaves the empty
    string alone and works word by word. *)
Lemma convert_empty : convert_pinyin_tone_numbers EmptyString = EmptyString.
Proof. reflexivity. Qed.

(** Only the final character of a word is read as its tone: the digit
    inside [zhong1guo] stays, and the first vowel in table order that the
    word contains, the [o] of [zhong], takes the mark of tone 2. *)
Example convert_word_zhong1guo2 : convert_word "zhong1guo2" = "zhóng1guo".
Proof. vm_compute. reflexivity. Qed.

(** C9 (tone-mark rendering), evaluated on the code: the transform maps
    [ni3 hao3] to [nǐ hǎo], but it maps [zhong1guo2] to [zhóng1guo] and not
    to the [zhōngguó] that the specification and the repository's own test
    table expect. *)
Theorem convert_zhong1guo2_diverges :
  convert_pinyin_tone_numbers "ni3 hao3" = "nǐ hǎo"
  /\ convert_pinyin_tone_numbers "zhong1guo2" = "zhóng1guo"
  /\ convert_pinyin_tone_numbers "zhong1guo2" <> "zhōngguó".
Proof.
  split; [vm_compute; reflexivity|].
  split; [vm_compute; reflexivity|].
  vm_compute. discriminate.
Qed.

End PinyinFacts.

(** ** The Completion Reporter *)

Module CompletionFacts.
Import Py AiDataCompletion.

(** The guard of a rate: with no entry the rate is 0 and no division is
    attempted. *)
Lemma completion_rate_zero_total (n : Z) : completion_rate n 0 = Ok 0%Q.
Proof. reflexivity. Qed.

Lemma completion_rate_total (n total : Z) : exists q, completion_rate n total = Ok q.
Proof.
  unfold completion_rate, truediv.
  destruct (total >? 0) eqn:Hpos; [|eauto].
  destruct (total =? 0) eqn:Hz; [|simpl; eauto].
  apply Z.eqb_eq in Hz. subst total. discriminate Hpos.
Qed.

(** A dict built from column names has no key 0. *)
Lemma getitem_dict_row (description : list string) (cells : list Z) (i : Z) :
  getitem (make_row DictRows description cells) (KInt i) = Raise KeyError.
Proof.
  unfold make_row, getitem.
  assert (H : forall items : list (Key * Z),
            Forall (fun kv => exists s, fst kv = KStr s) items ->
            List.find (fun kv => key_eqb (fst kv) (KInt i)) items = None).
  { induction 1 as [|kv items [s Hs] _ IH]; [reflexivity|].
    cbn [List.find]. rewrite Hs. cbn [key_eqb]. exact IH. }
  rewrite H; [reflexivity|].
  clear H. revert cells.
  induction description as [|c description IH]; intros [|n cells]; cbn [map combine];
    constructor; [exists c; reflexivity | apply IH].
Qed.

(** On the connection of [__init__] no count is ever read. *)
Lemma fetch_count_dict_rows (rows : list Dictionary.Entry) (n : Z) :
  fetch_count (__init__ rows) n = Raise KeyError.
Proof. unfold fetch_count, fetchone. apply getitem_dict_row. Qed.

(** On a connection that hands out tuples, sqlite3's own rows, it is. *)
Lemma fetch_count_tuple_rows (rows : list Dictionary.Entry) (n : Z) :
  fetch_count (mkConnection TupleRows rows) n = Ok n.
Proof. reflexivity. Qed.

(** With tuples for rows the statistics never raise, whatever the table
    holds. *)
Lemma get_initial_statistics_total (rows : list Dictionary.Entry) :
  exists s, get_initial_statistics (mkConnection TupleRows rows) = Ok s.
Proof.
  unfold get_initial_statistics. rewrite !fetch_count_tuple_rows. cbn [bind dictionary].
  repeat match goal with
  | |- context [completion_rate ?n ?t] =>
      let q := fresh "q" in let H := fresh "H" in
      destruct (completion_rate_total n t) as [q H]; rewrite H; simpl
  end.
  eauto.
Qed.

(** With tuples for rows and no entry every count and every rate is 0: the
    guard on [total > 0] keeps the division away. *)
Example get_initial_statistics_empty_tuple_rows :
  get_initial_statistics (mkConnection TupleRows [])
  = Ok (mkStatistics 0 0 0 0 0 0 0 0 0 0 0).
Proof. reflexivity. Qed.

(** C10 (statistics on the empty store): on the object that [__init__]
    builds, with zero entries, [get_initial_statistics] raises [KeyError]:
    the first count is read with [[0]] from a row that the row factory made
    a dict.  No rate is reported and the guard on [total > 0] is not
    reached. *)
Theorem get_initial_statistics_empty_raises :
  get_initial_statistics (__init__ []) = Raise KeyError
  /\ forall s, get_initial_statistics (__init__ []) <> Ok s.
Proof.
  split; [reflexivity|]. intros s. discriminate.
Qed.

End CompletionFacts.

(** ** Queries: ORDER BY and LIMIT *)

Module SqlFacts.

Section OrderBy.
Context {A : Type} (leb : A -> A -> bool).

Lemma sql_insert_perm (x : A) (l : list A) :
  Permutation (sql_insert leb x l) (x :: l).
Proof.
  induction l as [|y r IH]; simpl.
  - apply Permutation_refl.
  - destruct (leb x y).
    + apply Permutation_refl.
    + eapply perm_trans; [apply perm_skip, IH | apply perm_swap].
Qed.

Lemma sql_order_by_perm (l : list A) : Permutation (sql_order_by leb l) l.
Proof.
  induction l as [|x r IH]; simpl.
  - apply perm_nil.
  - eapply perm_trans; [apply sql_insert_perm | apply perm_skip, IH].
Qed.

Lemma sql_order_by_In (x : A) (l : list A) :
  In x (sql_order_by leb l) <-> In x l.
Proof.
  split; apply Permutation_in;
    [apply sql_order_by_perm | apply Permutation_sym, sql_order_by_perm].
Qed.

(** An order that compares any two rows one way or the other. *)
Hypothesis leb_total : forall a b, leb a b = false -> leb b a = true.

Let le (a b : A) : Prop := leb a b = true.

Lemma sql_insert_hd (a x : A) (l : list A) :
  le a x -> HdRel le a l -> HdRel le a (sql_insert leb x l).
Proof.
  intros Hax Hal. destruct l as [|y r]; simpl.
  - constructor. exact Hax.
  - destruct (leb x y); constructor; [exact Hax|].
    inversion Hal; assumption.
Qed.

Lemma sql_insert_sorted (x : A) (l : list A) :
  Sorted le l -> Sorted le (sql_insert leb x l).
Proof.
  induction 1 as [|y r Hr IH Hhd]; simpl.
  - repeat constructor.
  - destruct (leb x y) eqn:Hxy.
    + constructor; [constructor; assumption|]. constructor. exact Hxy.
    + constructor; [exact IH|].
      apply sql_insert_hd; [apply leb_total; exact Hxy | exact Hhd].
Qed.

Lemma sql_order_by_sorted (l : list A) : Sorted le (sql_order_by leb l).
Proof.
  induction l as [|x r IH]; simpl.
  - constructor.
  - apply sql_insert_sorted. exact IH.
Qed.

End OrderBy.

Lemma filter_none {A : Type} (f : A -> bool) (l : list A) :
  (forall x, In x l -> f x = false) -> filter f l = [].
Proof.
  induction l as [|y r IH]; simpl; intros H; [reflexivity|].
  rewrite (H y (or_introl eq_refl)). apply IH. intros x Hx. apply H. right. exact Hx.
Qed.

Lemma Forall_append {A : Type} (P : A -> Prop) (l1 l2 : list A) :
  Forall P l1 -> Forall P l2 -> Forall P (l1 ++ l2).
Proof. intros H1 H2. apply Forall_app. split; assumption. Qed.

Lemma sql_limit_incl {A : Type} (n : Z) (l : list A) (x : A) :
  In x (sql_limit n l) -> In x l.
Proof.
  unfold sql_limit. destruct (n <? 0); [tauto|].
  revert l. induction (Z.to_nat n) as [|k IH]; intros [|y r]; simpl; try tauto.
  intros [H|H]; [left; exact H | right; apply IH; exact H].
Qed.

Lemma sql_limit_length {A : Type} (n : Z) (l : list A) :
  0 <= n -> Z.of_nat (List.length (sql_limit n l)) <= n.
Proof.
  intros Hn. unfold sql_limit.
  destruct (n <? 0) eqn:E; [apply Z.ltb_lt in E; lia|].
  pose proof (firstn_le_length (Z.to_nat n) l). lia.
Qed.

End SqlFacts.

(** ** The Enrichment Client and Scheduler *)

Module EnhancerFacts.
Import Py DeepseekEnhancer.

(** *** Rate limiting *)

Lemma rate_limit_sleep_short (st : State) :
  (Spec.elapsed st < request_delay st)%Q ->
  rate_limit_sleep st = Some (request_delay st - Spec.elapsed st)%Q.
Proof.
  intros Hlt. unfold rate_limit_sleep, Spec.elapsed in *.
  destruct (Qle_bool (request_delay st) (time st - last_request_time st)) eqn:E.
  - apply Qle_bool_iff in E. exfalso. apply (Qlt_not_le _ _ Hlt). exact E.
  - reflexivity.
Qed.

Lemma rate_limit_sleep_long (st : State) :
  (request_delay st <= Spec.elapsed st)%Q -> rate_limit_sleep st = None.
Proof.
  intros Hle. unfold rate_limit_sleep, Spec.elapsed in *.
  apply Qle_bool_iff in Hle. rewrite Hle. reflexivity.
Qed.

Lemma rate_limit_records_the_call (st : State) :
  last_request_time (_rate_limit st) = time (_rate_limit st)
  /\ request_delay (_rate_limit st) = request_delay st.
Proof.
  unfold _rate_limit. destruct (rate_limit_sleep st); split; reflexivity.
Qed.

(** C8 (rate limiting), amended: every API call starts with [_rate_limit],
    which records the clock when it returns.  At the next call, [d] seconds
    later by the clock, less than [request_delay] has elapsed when
    [d < request_delay]: the call then sleeps once, for exactly the
    remainder [request_delay - d], which is positive and, unless the clock
    was set back ([d < 0]), at most [request_delay]; when at least
    [request_delay] has elapsed it does not sleep. *)
Theorem consecutive_calls_are_spaced
    (post : Request -> Q -> option string) (r r' : Request) (st : State) (d : Q) :
  let prev := fst (_call_deepseek_api post r st) in
  let next := Spec.later d prev in
  let delay := request_delay st in
  fst (_call_deepseek_api post r' next) = _rate_limit next
  /\ last_request_time next = time prev
  /\ request_delay next = delay
  /\ (Spec.elapsed next == d)%Q
  /\ ((d < delay)%Q ->
      exists s,
        slept (_rate_limit next) = s :: slept next
        /\ (s == delay - d)%Q
        /\ (0 < s)%Q
        /\ ((0 <= d)%Q -> (s <= delay)%Q))
  /\ ((delay <= d)%Q -> slept (_rate_limit next) = slept next).
Proof.
  intros prev next delay.
  destruct (rate_limit_records_the_call st) as [Hlast Hdelay].
  assert (Hprev : prev = _rate_limit st) by reflexivity.
  assert (Hl : last_request_time next = time prev)
    by (subst prev next; cbn [Spec.later last_request_time fst _call_deepseek_api];
        exact Hlast).
  assert (Hd : request_delay next = delay)
    by (subst prev next delay; cbn [Spec.later request_delay fst _call_deepseek_api];
        exact Hdelay).
  assert (He : (Spec.elapsed next == d)%Q).
  { unfold Spec.elapsed. rewrite Hl. subst next. cbn [Spec.later time]. ring. }
  split; [reflexivity|]. split; [exact Hl|]. split; [exact Hd|]. split; [exact He|].
  split.
  - intros Hlt.
    assert (Hshort : (Spec.elapsed next < request_delay next)%Q)
      by (rewrite Hd, He; exact Hlt).
    exists (request_delay next - Spec.elapsed next)%Q.
    split; [|split; [|split]].
    + unfold _rate_limit. rewrite (rate_limit_sleep_short next Hshort). reflexivity.
    + rewrite Hd, He. reflexivity.
    + rewrite Hd, He. lra.
    + intros Hpos. rewrite Hd, He. lra.
  - intros Hle.
    assert (Hlong : (request_delay next <= Spec.elapsed next)%Q)
      by (rewrite Hd, He; exact Hle).
    unfold _rate_limit. rewrite (rate_limit_sleep_long next Hlong). reflexivity.
Qed.

(** *** Selection *)

Lemma before_total (a b : Dictionary.Entry) :
  before a b = false -> before b a = true.
Proof.
  unfold before.
  destruct (Dictionary.frequency_rank a) as [x|], (Dictionary.frequency_rank b) as [y|];
    try discriminate; try reflexivity; intros H.
  - apply orb_false_iff in H. destruct H as [H1 H2].
    apply Z.ltb_ge in H1. apply andb_false_iff in H2.
    apply orb_true_iff. destruct H2 as [H2|H2].
    + apply Z.eqb_neq in H2. left. apply Z.ltb_lt. lia.
    + apply Z.leb_gt in H2. destruct (Z.eq_dec x y) as [->|Hne].
      * right. rewrite Z.eqb_refl. simpl. apply Z.leb_le. lia.
      * left. apply Z.ltb_lt. lia.
  - apply Z.leb_gt in H. apply Z.leb_le. lia.
Qed.

Lemma before_precedes (a b : Dictionary.Entry) :
  before a b = true <-> Spec.precedes a b.
Proof.
  unfold before, Spec.precedes, Spec.rank_gt.
  destruct (Dictionary.frequency_rank a) as [x|], (Dictionary.frequency_rank b) as [y|].
  - rewrite orb_true_iff, andb_true_iff, Z.ltb_lt, Z.eqb_eq, Z.leb_le.
    split; intros [H|[H1 H2]]; auto.
    + right. split; [congruence | exact H2].
    + right. split; [congruence | exact H2].
  - split; auto.
  - split; [discriminate|]. intros [[]|[H _]]. discriminate H.
  - rewrite Z.leb_le. split; [auto|]. intros [[]|[_ H]]. exact H.
Qed.

#[local] Instance precedes_transitive : Transitive Spec.precedes.
Proof.
  intros a b c. unfold Spec.precedes, Spec.rank_gt.
  destruct (Dictionary.frequency_rank a) as [x|],
           (Dictionary.frequency_rank b) as [y|],
           (Dictionary.frequency_rank c) as [z|];
    intros [H1|[H1 H1']] [H2|[H2 H2']];
    try discriminate; try contradiction; try (injection H1 as H1);
    try (injection H2 as H2); try (left; exact I); try (left; lia);
    try (right; split; [congruence | lia]).
Qed.

Lemma order_by_rank_sorted (l : list Dictionary.Entry) :
  StronglySorted Spec.precedes (order_by_rank l).
Proof.
  apply Sorted_StronglySorted; [exact precedes_transitive|].
  pose proof (SqlFacts.sql_order_by_sorted before before_total l) as H.
  unfold order_by_rank.
  induction H as [|x r Hr IH Hhd]; constructor; [exact IH|].
  destruct Hhd; constructor. apply before_precedes. assumption.
Qed.

(** C7 (scheduler selection), amended: the candidate query returns the
    entries whose zhuyin, vi_meaning or hanviet_reading is NULL or empty
    (each as often as the table holds it) in descending order of frequency
    rank, entries without a rank last, and, within a rank, in ascending
    order of the row id; for a limit that is not negative it returns the
    first [limit] of them, for a negative limit all of them. *)
Theorem find_entries_needing_enhancement_by_id
    (limit : Z) (rows : list Dictionary.Entry) :
  exists ranked,
    Permutation ranked (filter needs_enhancement rows)
    /\ (forall e, In e ranked <->
          In e rows
          /\ (truthy (Dictionary.zhuyin e) = false
              \/ truthy (Dictionary.vi_meaning e) = false
              \/ truthy (Dictionary.hanviet_reading e) = false))
    /\ StronglySorted Spec.precedes ranked
    /\ (0 <= limit ->
        find_entries_needing_enhancement limit rows = firstn (Z.to_nat limit) ranked
        /\ Z.of_nat (List.length (find_entries_needing_enhancement limit rows)) <= limit)
    /\ (limit < 0 -> find_entries_needing_enhancement limit rows = ranked).
Proof.
  exists (order_by_rank (filter needs_enhancement rows)).
  split; [apply SqlFacts.sql_order_by_perm|].
  split.
  - intros e. unfold order_by_rank. rewrite SqlFacts.sql_order_by_In, filter_In.
    unfold needs_enhancement.
    rewrite !orb_true_iff, !negb_true_iff. tauto.
  - split; [apply order_by_rank_sorted|].
    unfold find_entries_needing_enhancement, sql_limit.
    split.
    + intros Hlimit. split.
      * destruct (limit <? 0) eqn:E; [apply Z.ltb_lt in E; lia | reflexivity].
      * apply (SqlFacts.sql_limit_length limit _ Hlimit).
    + intros Hneg. apply Z.ltb_lt in Hneg. rewrite Hneg. reflexivity.
Qed.

(** *** Extraction from a reply *)

Section Extraction.
Variable json_loads : Json.loads_fn.

Lemma extract_object_none (reply : option string) :
  Spec.no_valid_structure json_loads "{" "}" reply ->
  extract_object json_loads reply = Ok (Json.JObj []).
Proof.
  unfold Spec.no_valid_structure, extract_object.
  destruct reply as [r|]; [|reflexivity].
  destruct (negb (str_truthy r)); [reflexivity|].
  destruct (bracketed "{" "}" r); [|reflexivity].
  intros H. rewrite H. reflexivity.
Qed.

Lemma extract_array_none (reply : option string) :
  Spec.no_valid_structure json_loads "[" "]" reply ->
  extract_array json_loads reply = Ok (Json.JArr []).
Proof.
  unfold Spec.no_valid_structure, extract_array.
  destruct reply as [r|]; [|reflexivity].
  destruct (negb (str_truthy r)); [reflexivity|].
  destruct (bracketed "[" "]" r); [|reflexivity].
  intros H. rewrite H. reflexivity.
Qed.

Lemma bracketed_of_nonempty (open close : ascii) (r json_str : string) :
  bracketed open close r = Some json_str -> str_truthy r = true.
Proof. destruct r; [discriminate | reflexivity]. Qed.

(** What the extraction does when [json.loads] raises: it returns the empty
    value for the exceptions it catches and lets any other one through. *)
Lemma extract_object_raise (r json_str : string) (e : exn) :
  bracketed "{" "}" r = Some json_str ->
  json_loads json_str = Raise e ->
  extract_object json_loads (Some r)
  = if Spec.caught e then Ok (Json.JObj []) else Raise e.
Proof.
  intros Hb He. unfold extract_object.
  rewrite (bracketed_of_nonempty _ _ _ _ Hb), Hb, He. destruct e; reflexivity.
Qed.

Lemma extract_array_raise (r json_str : string) (e : exn) :
  bracketed "[" "]" r = Some json_str ->
  json_loads json_str = Raise e ->
  extract_array json_loads (Some r)
  = if Spec.caught e then Ok (Json.JArr []) else Raise e.
Proof.
  intros Hb He. unfold extract_array.
  rewrite (bracketed_of_nonempty _ _ _ _ Hb), Hb, He. destruct e; reflexivity.
Qed.

End Extraction.

(** C5 (malformed-output tolerance), amended: when the reply to a
    pronunciation or grammar request has no opening brace followed by a
    closing one, or [json.loads] raises [JSONDecodeError] on the text
    between them, the client returns the empty dict, and likewise the empty
    list for an examples request and square brackets; neither raises.  More
    generally, when [json.loads] raises on the bracketed text, the client
    returns the empty value if the exception is a [ValueError] and raises
    that exception otherwise. *)
Theorem malformed_reply_is_empty_unless_loads_escapes
    (json_loads : Json.loads_fn) (post : Request -> Q -> option string)
    (chinese_text : string) (vietnamese_meaning : option string) (st : State) :
  let reply := fun k => snd (_call_deepseek_api post k st) in
  let pronunciation := snd (enhance_missing_pronunciation json_loads post chinese_text st) in
  let grammar := snd (enhance_missing_grammar_info json_loads post chinese_text st) in
  let examples :=
    snd (enhance_missing_examples json_loads post chinese_text vietnamese_meaning st) in
  (Spec.no_valid_structure json_loads "{" "}" (reply (Pronunciation chinese_text)) ->
   pronunciation = Ok (Json.JObj []))
  /\ (Spec.no_valid_structure json_loads "{" "}" (reply (GrammarInfo chinese_text)) ->
      grammar = Ok (Json.JObj []))
  /\ (Spec.no_valid_structure json_loads "[" "]"
        (reply (Examples chinese_text vietnamese_meaning)) ->
      examples = Ok (Json.JArr []))
  /\ (forall r json_str e,
        reply (Pronunciation chinese_text) = Some r ->
        bracketed "{" "}" r = Some json_str ->
        json_loads json_str = Raise e ->
        pronunciation = if Spec.caught e then Ok (Json.JObj []) else Raise e)
  /\ (forall r json_str e,
        reply (GrammarInfo chinese_text) = Some r ->
        bracketed "{" "}" r = Some json_str ->
        json_loads json_str = Raise e ->
        grammar = if Spec.caught e then Ok (Json.JObj []) else Raise e)
  /\ (forall r json_str e,
        reply (Examples chinese_text vietnamese_meaning) = Some r ->
        bracketed "[" "]" r = Some json_str ->
        json_loads json_str = Raise e ->
        examples = if Spec.caught e then Ok (Json.JArr []) else Raise e).
Proof.
  intros reply pronunciation grammar examples.
  subst reply pronunciation grammar examples.
  unfold enhance_missing_pronunciation, enhance_missing_grammar_info,
    enhance_missing_examples.
  cbn [_call_deepseek_api fst snd].
  split; [apply extract_object_none|].
  split; [apply extract_object_none|].
  split; [apply extract_array_none|].
  split; [|split]; intros r json_str e Hr Hb He; rewrite Hr.
  - exact (extract_object_raise json_loads r json_str e Hb He).
  - exact (extract_object_raise json_loads r json_str e Hb He).
  - exact (extract_array_raise json_loads r json_str e Hb He).
Qed.

(** *** The batch loop *)

Section Batch.
Variable json_loads : Json.loads_fn.
Variable json_dumps : Json.dumps_fn.
Variable post : Request -> Q -> option string.
Variable bind_parameter : Json.value -> result string.
Variable isoformat : Q -> string.

Let enhance := enhance_entry json_loads json_dumps post bind_parameter isoformat.
Let process := process_entries json_loads json_dumps post bind_parameter isoformat.
Let loop := batch_loop json_loads json_dumps post bind_parameter isoformat.

(** One pass over a batch never takes [total_processed] beyond
    [max_entries], and it takes it further when the batch is not empty
    and the budget is not used up. *)
Lemma process_entries_progress (entries : list Dictionary.Entry) (max_entries : Z) :
  forall (st : State) (p : Progress),
    Spec.counters_ordered p ->
    total_processed p <= max_entries ->
    let p' := snd (process entries max_entries st p) in
    Spec.counters_ordered p'
    /\ total_processed p <= total_processed p' <= max_entries
    /\ (entries <> [] -> total_processed p < max_entries ->
        total_processed p < total_processed p').
Proof.
  unfold process, Spec.counters_ordered.
  induction entries as [|entry rest IH]; intros st p Hord Hmax; simpl.
  - repeat split; try lia. intros H. contradiction H. reflexivity.
  - destruct (total_processed p >=? max_entries) eqn:Hfull; simpl.
    + repeat split; try lia.
    + rewrite Z.geb_leb in Hfull. apply Z.leb_gt in Hfull.
      destruct (enhance_entry json_loads json_dumps post bind_parameter isoformat
                  entry st) as [st1 r].
      match goal with
      | |- context [process_entries _ _ _ _ _ rest max_entries st1 ?q] =>
          specialize (IH st1 q)
      end.
      destruct r as [[|]|e]; simpl in IH |- *;
        (destruct IH as (H1 & H2 & _); [lia | lia |]);
        (repeat split; try lia).
Qed.

Lemma batch_loop_step (fuel : nat) (batch_size max_entries : Z)
    (st : State) (p : Progress) :
  loop (S fuel) batch_size max_entries st p =
  if total_processed p <? max_entries then
    match find_entries_needing_enhancement batch_size (conn st) with
    | [] => Some (st, p)
    | entries =>
        let '(st1, p1) := process entries max_entries st p in
        loop fuel batch_size max_entries st1 p1
    end
  else Some (st, p).
Proof. reflexivity. Qed.

(** With as many selection queries as [max_entries] allows, the loop
    ends. *)
Lemma batch_loop_terminates (batch_size max_entries : Z) :
  forall (fuel : nat) (st : State) (p : Progress),
    Spec.counters_ordered p ->
    total_processed p <= max_entries ->
    max_entries - total_processed p <= Z.of_nat fuel ->
    exists st' p',
      loop fuel batch_size max_entries st p = Some (st', p')
      /\ Spec.counters_ordered p'
      /\ total_processed p' <= max_entries.
Proof.
  unfold loop.
  induction fuel as [|fuel IH]; intros st p Hord Hmax Hfuel; simpl.
  - destruct (total_processed p <? max_entries) eqn:Hlt.
    + apply Z.ltb_lt in Hlt. lia.
    + eauto.
  - destruct (total_processed p <? max_entries) eqn:Hlt; [|eauto].
    apply Z.ltb_lt in Hlt.
    destruct (find_entries_needing_enhancement batch_size (conn st))
      as [|entry rest] eqn:Hfind; [eauto|].
    pose proof (process_entries_progress (entry :: rest) max_entries st p Hord Hmax)
      as (H1 & H2 & H3).
    match goal with
    | |- context [let '(a, b) := ?X in _] =>
        change X with (process (entry :: rest) max_entries st p)
    end.
    destruct (process (entry :: rest) max_entries st p) as [st1 p1].
    simpl in H1, H2, H3.
    apply IH; try assumption; try lia.
    assert (total_processed p < total_processed p1)
      by (apply H3; [discriminate | exact Hlt]).
    lia.
Qed.

End Batch.

(** C4 (batch termination): for a budget [max_entries] that is not
    negative and any batch size, [enhance_batch] returns, whatever the
    table holds and whatever the API answers; it has then processed at
    most [max_entries] entries, and the count of enhanced entries it
    returns is between 0 and the number processed. *)
Theorem enhance_batch_terminates
    (json_loads : Json.loads_fn) (json_dumps : Json.dumps_fn)
    (post : Request -> Q -> option string)
    (bind_parameter : Json.value -> result string) (isoformat : Q -> string)
    (batch_size max_entries : Z) (st : State) :
  1 <= batch_size ->
  0 <= max_entries ->
  exists st' p',
    enhance_batch json_loads json_dumps post bind_parameter isoformat
      batch_size max_entries st = Some (st', p')
    /\ total_processed p' <= max_entries
    /\ 0 <= enhanced_count p' <= total_processed p'
    /\ enhanced_count p' <= max_entries.
Proof.
  intros _ Hmax. unfold enhance_batch.
  destruct (batch_loop_terminates json_loads json_dumps post bind_parameter isoformat
              batch_size max_entries (Z.to_nat max_entries) st (mkProgress 0 0))
    as (st' & p' & Hrun & Hord & Hle).
  - unfold Spec.counters_ordered. simpl. lia.
  - simpl. lia.
  - simpl. lia.
  - exists st', p'. unfold Spec.counters_ordered in Hord. repeat split; try assumption; lia.
Qed.

End EnhancerFacts.


(** ** The Reconciler *)

Module ReconcilerFacts.
Import Py IntegrateCedict.

Lemma mem_In (w : string) (ws : list string) : mem w ws = true <-> In w ws.
Proof.
  unfold mem. rewrite existsb_exists. split.
  - intros (x & Hx & Heq). apply String.eqb_eq in Heq. subst x. exact Hx.
  - intros H. exists w. split; [exact H | apply String.eqb_refl].
Qed.

Lemma mem_false (w : string) (ws : list string) : mem w ws = false <-> ~ In w ws.
Proof.
  rewrite <- mem_In. destruct (mem w ws); split; intros H; congruence.
Qed.

Lemma is_new_spec (existing_words : list string) (entry : Cedict.Entry) :
  is_new existing_words entry = true <->
  ~ In (Cedict.simplified entry) existing_words
  /\ ~ In (Cedict.traditional entry) existing_words.
Proof.
  unfold is_new. rewrite andb_true_iff, !negb_true_iff, !mem_false. tauto.
Qed.

(** What the filter loop keeps was kept before or passes the test. *)
Lemma select_new_In (existing_words : list string) (limit : Z) (entries : list Cedict.Entry) :
  forall (new_entries : list Cedict.Entry) (e : Cedict.Entry),
    In e (select_new existing_words limit entries new_entries) ->
    In e new_entries \/ (In e entries /\ is_new existing_words e = true).
Proof.
  induction entries as [|entry rest IH]; intros new_entries e; simpl.
  - auto.
  - destruct (is_new existing_words entry) eqn:Hnew.
    + destruct (Z.of_nat (List.length (new_entries ++ [entry])) >=? limit).
      * intros H. apply in_app_or in H. destruct H as [H|[H|[]]]; [auto|].
        subst e. right. auto.
      * intros H. apply IH in H. destruct H as [H|[H1 H2]]; [|auto].
        apply in_app_or in H. destruct H as [H|[H|[]]]; [auto|].
        subst e. right. auto.
    + intros H. apply IH in H. destruct H as [H|[H1 H2]]; auto.
Qed.

(** When the loop ends below the limit it has kept every entry that passes
    the test. *)
Lemma select_new_below_limit (existing_words : list string) (limit : Z)
    (entries : list Cedict.Entry) :
  forall new_entries : list Cedict.Entry,
    Z.of_nat (List.length (select_new existing_words limit entries new_entries)) < limit ->
    select_new existing_words limit entries new_entries
    = (new_entries ++ filter (is_new existing_words) entries)%list.
Proof.
  induction entries as [|entry rest IH]; intros new_entries; simpl.
  - intros _. rewrite app_nil_r. reflexivity.
  - destruct (is_new existing_words entry) eqn:Hnew.
    + destruct (Z.of_nat (List.length (new_entries ++ [entry])) >=? limit) eqn:Hfull.
      * intros H. rewrite Z.geb_leb in Hfull. apply Z.leb_le in Hfull. lia.
      * intros H. rewrite (IH _ H), <- app_assoc. reflexivity.
    + apply IH.
Qed.

(** A candidate for insertion is a Source entry neither of whose forms is
    an identity string of the table. *)
Lemma new_cedict_entries_In (limit : Z) (rows : list Dictionary.Entry)
    (cedict : list Cedict.Entry) (S : Cedict.Entry) :
  In S (new_cedict_entries limit rows cedict) ->
  In S cedict
  /\ ~ Spec.is_identity (Cedict.simplified S) rows
  /\ ~ Spec.is_identity (Cedict.traditional S) rows.
Proof.
  unfold new_cedict_entries, Spec.is_identity. intros H.
  apply select_new_In in H. destruct H as [[]|[Hin Hnew]].
  apply SqlFacts.sql_limit_incl in Hin.
  unfold order_by_length_simplified in Hin.
  apply SqlFacts.sql_order_by_In in Hin.
  apply is_new_spec in Hnew. tauto.
Qed.

Section Integrator.
Variable json_loads : Json.loads_fn.
Variable now : string.

(** The insert loop appends one row per candidate that reaches the INSERT. *)
Lemma insert_loop_shape (entries : list Cedict.Entry) :
  forall (rows : list Dictionary.Entry) (n : Z),
  exists ins,
    fold_left (insert_one json_loads now) entries (rows, n)
    = ((rows ++ ins)%list, n + Z.of_nat (List.length ins))
    /\ Forall2 (fun r S => exists i, r = inserted_row now i S)
         ins (filter (insertable json_loads) entries).
Proof.
  induction entries as [|entry rest IH]; intros rows n; simpl.
  - exists []. rewrite app_nil_r, Z.add_0_r. split; [reflexivity | constructor].
  - destruct (insertable json_loads entry) eqn:Hins.
    + destruct (IH (rows ++ [inserted_row now (Dictionary.next_id rows) entry])%list (n + 1))
        as (ins & Hrun & Hall).
      exists (inserted_row now (Dictionary.next_id rows) entry :: ins).
      split.
      * rewrite Hrun, <- app_assoc. simpl. f_equal. lia.
      * constructor; [eauto | exact Hall].
    + apply IH.
Qed.

Lemma add_new_cedict_entries_shape (limit : Z) (rows : list Dictionary.Entry)
    (cedict : list Cedict.Entry) :
  exists ins,
    add_new_cedict_entries json_loads now limit rows cedict
    = ((rows ++ ins)%list, Z.of_nat (List.length ins))
    /\ Forall2 (fun r S => exists i, r = inserted_row now i S)
         ins (Spec.inserted_sources json_loads limit rows cedict).
Proof.
  unfold add_new_cedict_entries, Spec.inserted_sources.
  destruct (insert_loop_shape (new_cedict_entries limit rows cedict) rows 0)
    as (ins & Hrun & Hall).
  exists ins. split; [rewrite Hrun; reflexivity | exact Hall].
Qed.

End Integrator.

(** C3 (no duplicate insertion): the insert phase only appends rows, one
    for each Source entry it inserts, and a Source entry whose simplified or
    traditional form is an identity string of the table when the phase
    starts is neither a candidate nor inserted. *)
Theorem no_duplicate_insertion
    (json_loads : Json.loads_fn) (now : string) (limit : Z)
    (rows : list Dictionary.Entry) (cedict : list Cedict.Entry) :
  exists ins,
    add_new_cedict_entries json_loads now limit rows cedict
    = ((rows ++ ins)%list, Z.of_nat (List.length ins))
    /\ Forall2 (fun r S => exists i, r = inserted_row now i S)
         ins (Spec.inserted_sources json_loads limit rows cedict)
    /\ forall S : Cedict.Entry,
         Spec.is_identity (Cedict.simplified S) rows
         \/ Spec.is_identity (Cedict.traditional S) rows ->
         ~ In S (new_cedict_entries limit rows cedict)
         /\ ~ In S (Spec.inserted_sources json_loads limit rows cedict).
Proof.
  destruct (add_new_cedict_entries_shape json_loads now limit rows cedict)
    as (ins & Hrun & Hall).
  exists ins. split; [exact Hrun|]. split; [exact Hall|].
  intros S Hdup.
  assert (Hcand : ~ In S (new_cedict_entries limit rows cedict)).
  { intros Hin. pose proof (new_cedict_entries_In _ _ _ _ Hin). tauto. }
  split; [exact Hcand|].
  unfold Spec.inserted_sources. rewrite filter_In. tauto.
Qed.

(** C6 (reconciliation scenario): with one Primary entry for the word, its
    translation empty and its other fields NULL, and the one Source entry of
    the scenario, whose definitions [json.loads] reads or rejects as
    malformed, [integrate_full 10] reports one match, one update and no
    insertion; the entry then has the Source pronunciation and English
    meaning, and its translation is still empty. *)
Theorem reconciliation_scenario
    (json_loads : Json.loads_fn) (now : string) (i c : Z) (d created : string) :
  (forall e, json_loads d = Raise e -> e = JSONDecodeError) ->
  exists entry,
    integrate_full json_loads now 10
      [Scenario.primary_entry i] [Scenario.source_entry c d created]
    = ([entry], mkResults 1 1 0 1 1)
    /\ Dictionary.id entry = i
    /\ Dictionary.word entry = "你好"
    /\ Dictionary.pinyin entry = Some "ni3 hao3"
    /\ Dictionary.en_meaning entry = Some "hello"
    /\ Dictionary.vi_meaning entry = Some EmptyString.
Proof.
  intros Hloads.
  assert (Hde : exists de,
             definitions_update json_loads (Scenario.source_entry c d created) = Ok de
             /\ (de = [] \/ de = [("cedict_definitions", d)])).
  { unfold definitions_update. cbn.
    destruct (str_truthy d); [|eauto].
    destruct (json_loads d) as [v|e] eqn:Hd.
    - destruct (Json.truthy v); eauto.
    - rewrite (Hloads e eq_refl). eauto. }
  destruct Hde as (de & Hde & Hcase).
  unfold integrate_full.
  change (find_matching_entries [Scenario.primary_entry i]
            [Scenario.source_entry c d created])
    with [(Scenario.primary_entry i, Scenario.source_entry c d created)].
  unfold update_existing_entries, update_one. cbn [fold_left].
  unfold enhance_entry_with_cedict. rewrite Hde.
  unfold add_new_cedict_entries, new_cedict_entries.
  destruct Hcase; subst de; cbn; rewrite Z.eqb_refl; cbn;
    (eexists; split; [reflexivity|]); cbn; auto 10.
Qed.

(** *** Two runs in succession *)

(** No SET clause touches the identity string or the id of a row. *)
Lemma set_keeps_identity (k v : string) (e e' : Dictionary.Entry) :
  Dictionary.set k v e = Some e' ->
  Dictionary.word e' = Dictionary.word e /\ Dictionary.id e' = Dictionary.id e.
Proof.
  destruct e. unfold Dictionary.set.
  repeat match goal with
  | |- context [String.eqb k ?c] => destruct (String.eqb k c)
  end; intros H; inversion H; subst; simpl; auto.
Qed.

Lemma set_all_keeps_identity (updates : list (string * string)) :
  forall e e' : Dictionary.Entry,
    Dictionary.set_all updates e = Some e' ->
    Dictionary.word e' = Dictionary.word e /\ Dictionary.id e' = Dictionary.id e.
Proof.
  induction updates as [|[k v] r IH]; intros e e'; simpl.
  - intros H. inversion H. auto.
  - destruct (Dictionary.set k v e) as [e1|] eqn:Hset; [|discriminate].
    intros H. apply IH in H. apply set_keeps_identity in Hset.
    destruct H, Hset. split; congruence.
Qed.

Lemma update_keeps_words (updates : list (string * string)) (i : Z)
    (rows rows' : list Dictionary.Entry) :
  Dictionary.update updates i rows = Ok rows' ->
  map Dictionary.word rows' = map Dictionary.word rows.
Proof.
  unfold Dictionary.update.
  destruct (forallb _ updates); [|discriminate].
  intros H. inversion H. subst rows'. clear H.
  rewrite map_map. apply map_ext. intros r.
  destruct (Dictionary.id r =? i); [|reflexivity].
  destruct (Dictionary.set_all updates r) as [r'|] eqn:Hset; [|reflexivity].
  apply set_all_keeps_identity in Hset. tauto.
Qed.

Section Runs.
Variable json_loads : Json.loads_fn.
Variable now : string.

Lemma update_one_keeps_words (m : Dictionary.Entry * Cedict.Entry)
    (st : list Dictionary.Entry * Z) :
  map Dictionary.word (fst (update_one json_loads now m st))
  = map Dictionary.word (fst st).
Proof.
  unfold update_one. destruct st as [rows n], m as [main_entry cedict_entry].
  destruct (enhance_entry_with_cedict json_loads main_entry cedict_entry)
    as [[|u us]|e]; try reflexivity.
  destruct (Dictionary.update _ _ rows) as [rows'|e] eqn:Hup; [|reflexivity].
  simpl. apply update_keeps_words in Hup. exact Hup.
Qed.

(** The update phase leaves the identity strings as they are. *)
Lemma update_existing_entries_keeps_words
    (matches : list (Dictionary.Entry * Cedict.Entry)) (rows : list Dictionary.Entry) :
  map Dictionary.word (fst (update_existing_entries json_loads now matches rows))
  = map Dictionary.word rows.
Proof.
  unfold update_existing_entries.
  change rows with (fst (rows, 0)) at 2.
  generalize (rows, 0). induction matches as [|m r IH]; intros st; simpl.
  - reflexivity.
  - rewrite IH. apply update_one_keeps_words.
Qed.

Lemma rows_before_insert_words (rows : list Dictionary.Entry) (cedict : list Cedict.Entry) :
  map Dictionary.word (Spec.rows_before_insert json_loads now rows cedict)
  = map Dictionary.word rows.
Proof. apply update_existing_entries_keeps_words. Qed.

(** The number of matches depends on the identity strings only. *)
Lemma find_matching_entries_length (rows : list Dictionary.Entry)
    (cedict : list Cedict.Entry) :
  List.length (find_matching_entries rows cedict)
  = List.length (filter (Spec.has_match cedict) (map Dictionary.word rows)).
Proof.
  induction rows as [|e r IH]; simpl; [reflexivity|].
  unfold Spec.has_match.
  destruct (lookup_cedict (Dictionary.word e) cedict); simpl; rewrite IH; reflexivity.
Qed.

(** The simplified form of a Source entry always has a match. *)
Lemma simplified_has_match (cedict : list Cedict.Entry) (S : Cedict.Entry) :
  In S cedict -> Spec.has_match cedict (Cedict.simplified S) = true.
Proof.
  intros Hin. unfold Spec.has_match, lookup_cedict.
  destruct (List.find (fun c => String.eqb (Cedict.simplified c) (Cedict.simplified S)) cedict)
    eqn:Hfind; [reflexivity|].
  pose proof (find_none _ _ Hfind S Hin) as H. simpl in H.
  rewrite String.eqb_refl in H. discriminate H.
Qed.

(** So has its traditional form, by the first lookup or by the second. *)
Lemma traditional_has_match (cedict : list Cedict.Entry) (S : Cedict.Entry) :
  In S cedict -> Spec.has_match cedict (Cedict.traditional S) = true.
Proof.
  intros Hin. unfold Spec.has_match, lookup_cedict.
  destruct (List.find (fun c => String.eqb (Cedict.simplified c) (Cedict.traditional S)) cedict);
    [reflexivity|].
  destruct (List.find (fun c => String.eqb (Cedict.traditional c) (Cedict.traditional S)) cedict)
    eqn:Hfind; [reflexivity|].
  pose proof (find_none _ _ Hfind S Hin) as H. simpl in H.
  rewrite String.eqb_refl in H. discriminate H.
Qed.

Lemma inserted_rows_words (ins : list Dictionary.Entry) (srcs : list Cedict.Entry) :
  Forall2 (fun r S => exists i, r = inserted_row now i S) ins srcs ->
  map Dictionary.word ins = map Cedict.traditional srcs.
Proof.
  induction 1 as [|r S ins srcs [i Hr] Hrest IH]; simpl; [reflexivity|].
  rewrite IH, Hr. reflexivity.
Qed.

(** [integrate_full] phase by phase. *)
Lemma integrate_full_phases (K : Z) (rows : list Dictionary.Entry)
    (cedict : list Cedict.Entry) :
  let updated := update_existing_entries json_loads now
                   (find_matching_entries rows cedict) rows in
  let added := add_new_cedict_entries json_loads now K
                 (Spec.rows_before_insert json_loads now rows cedict) cedict in
  integrate_full json_loads now K rows cedict
  = (fst added,
     mkResults (Z.of_nat (List.length (find_matching_entries rows cedict)))
       (snd updated) (snd added) (total_entries rows) (total_entries (fst added))).
Proof.
  unfold integrate_full, Spec.rows_before_insert.
  destruct (update_existing_entries json_loads now _ rows) as [rows1 n1]. simpl.
  destruct (add_new_cedict_entries json_loads now K rows1 cedict) as [rows2 n2].
  reflexivity.
Qed.

(** The identity strings after a run: those before it, then the [entry[1]]
    forms of the Source entries it inserted. *)
Lemma integrate_full_words (K : Z) (rows : list Dictionary.Entry)
    (cedict : list Cedict.Entry) :
  let srcs := Spec.inserted_sources json_loads K
                (Spec.rows_before_insert json_loads now rows cedict) cedict in
  map Dictionary.word (fst (integrate_full json_loads now K rows cedict))
  = (map Dictionary.word rows ++ map Cedict.traditional srcs)%list
  /\ added_entries (snd (integrate_full json_loads now K rows cedict))
     = Z.of_nat (List.length srcs).
Proof.
  intros srcs. rewrite integrate_full_phases. simpl.
  destruct (add_new_cedict_entries_shape json_loads now K
              (Spec.rows_before_insert json_loads now rows cedict) cedict)
    as (ins & Hrun & Hall).
  fold srcs in Hall. rewrite Hrun. simpl.
  rewrite map_app, rows_before_insert_words, (inserted_rows_words _ _ Hall).
  split; [reflexivity|].
  rewrite <- (length_map Dictionary.word ins), (inserted_rows_words _ _ Hall), length_map.
  reflexivity.
Qed.

End Runs.

(** C2 (reconciliation run twice), as the code has it: the second run
    matches again every entry the first run matched and every entry the
    first run inserted, so its matched count is the sum of the first run's
    matched and inserted counts; a Source entry inserted by the first run is
    not inserted by the second; and when the insert phase of the first run
    found fewer than K candidates the second run inserts nothing. *)
Theorem second_run_rematches_and_does_not_reinsert
    (json_loads : Json.loads_fn) (now : string) (K : Z)
    (rows : list Dictionary.Entry) (cedict : list Cedict.Entry) :
  let run1 := integrate_full json_loads now K rows cedict in
  let run2 := integrate_full json_loads now K (fst run1) cedict in
  let before1 := Spec.rows_before_insert json_loads now rows cedict in
  let before2 := Spec.rows_before_insert json_loads now (fst run1) cedict in
  matched_entries (snd run2)
    = matched_entries (snd run1) + added_entries (snd run1)
  /\ added_entries (snd run1)
     = Z.of_nat (List.length (Spec.inserted_sources json_loads K before1 cedict))
  /\ added_entries (snd run2)
     = Z.of_nat (List.length (Spec.inserted_sources json_loads K before2 cedict))
  /\ (forall S, In S (Spec.inserted_sources json_loads K before1 cedict) ->
                ~ In S (Spec.inserted_sources json_loads K before2 cedict))
  /\ (Z.of_nat (List.length (new_cedict_entries K before1 cedict)) < K ->
      added_entries (snd run2) = 0).
Proof.
  intros run1 run2 before1 before2.
  destruct (integrate_full_words json_loads now K rows cedict) as [Hw1 Ha1].
  destruct (integrate_full_words json_loads now K (fst run1) cedict) as [Hw2 Ha2].
  fold run1 before1 in Hw1, Ha1. fold run2 before2 in Hw2, Ha2.
  set (srcs1 := Spec.inserted_sources json_loads K before1 cedict) in *.
  set (srcs2 := Spec.inserted_sources json_loads K before2 cedict) in *.
  assert (Hwords2 : map Dictionary.word before2
                    = (map Dictionary.word rows ++ map Cedict.traditional srcs1)%list).
  { unfold before2. rewrite rows_before_insert_words. exact Hw1. }
  assert (Hsrc1 : forall S, In S srcs1 ->
            In S cedict /\ insertable json_loads S = true
            /\ In S (new_cedict_entries K before1 cedict)).
  { intros S HS. unfold srcs1, Spec.inserted_sources in HS.
    apply filter_In in HS. destruct HS as [Hc Hi].
    pose proof (new_cedict_entries_In _ _ _ _ Hc). tauto. }
  assert (Hnot2 : forall S, In S srcs1 -> ~ In S (new_cedict_entries K before2 cedict)).
  { intros S HS Hc. pose proof (new_cedict_entries_In _ _ _ _ Hc) as (_ & _ & Htr).
    apply Htr. unfold Spec.is_identity. rewrite Hwords2. apply in_or_app. right.
    apply in_map. exact HS. }
  split; [|split; [exact Ha1 | split; [exact Ha2 | split]]].
  - unfold run2 at 1. rewrite integrate_full_phases. simpl.
    unfold run1 at 2. rewrite integrate_full_phases. simpl.
    rewrite Ha1, !find_matching_entries_length, Hw1, filter_app, length_app.
    rewrite Nat2Z.inj_add. f_equal. f_equal.
    rewrite <- (length_map Cedict.traditional srcs1).
    f_equal. apply forallb_filter_id. apply forallb_forall.
    intros w Hw. apply in_map_iff in Hw. destruct Hw as (S & <- & HS).
    apply traditional_has_match. apply Hsrc1. exact HS.
  - intros S HS HS2. apply (Hnot2 S HS).
    unfold srcs2, Spec.inserted_sources in HS2. apply filter_In in HS2. tauto.
  - intros Hbelow. rewrite Ha2.
    assert (Hnil : srcs2 = []); [|rewrite Hnil; reflexivity].
    unfold srcs2, Spec.inserted_sources.
    apply SqlFacts.filter_none. intros S HS2.
    destruct (insertable json_loads S) eqn:Hins; [exfalso|reflexivity].
    apply (Hnot2 S); [|exact HS2].
    unfold srcs1, Spec.inserted_sources. apply filter_In. split; [|exact Hins].
    unfold new_cedict_entries in Hbelow |- *.
    rewrite (select_new_below_limit _ _ _ _ Hbelow). simpl.
    unfold new_cedict_entries in HS2.
    apply select_new_In in HS2. destruct HS2 as [[]|[Hwin Hnew2]].
    apply filter_In. split; [exact Hwin|].
    apply is_new_spec. apply is_new_spec in Hnew2.
    rewrite Hwords2 in Hnew2. unfold before1.
    rewrite rows_before_insert_words.
    destruct Hnew2 as [H1 H2]. split; intros Hin; [apply H1 | apply H2];
      apply in_or_app; left; exact Hin.
Qed.

End ReconcilerFacts.

(** ** Non-destructive merge *)

Module MergeFacts.
Import Py.

Lemma guarded_field (main_entry : Dictionary.Entry) (k v : string) (source_ok : bool) :
  In k Spec.reconciler_guarded ->
  Forall (Spec.reconciler_ok main_entry)
    (if IntegrateCedict.missing (Dictionary.get main_entry k) && source_ok
     then [(k, v)] else []).
Proof.
  intros Hk.
  destruct (IntegrateCedict.missing (Dictionary.get main_entry k)) eqn:Hm; simpl;
    [destruct source_ok|]; try apply Forall_nil.
  apply Forall_cons; [|apply Forall_nil]. split; simpl; assumption.
Qed.

Section Patches.
Variable json_loads : Json.loads_fn.
Variable json_dumps : Json.dumps_fn.
Variable post : DeepseekEnhancer.Request -> Q -> option string.

(** The Reconciler's patch: the guarded part, then the sidecar part, which
    is computed from the Source entry alone. *)
Lemma enhance_entry_with_cedict_patch (main_entry : Dictionary.Entry)
    (cedict_entry : Cedict.Entry) :
  match IntegrateCedict.enhance_entry_with_cedict json_loads main_entry cedict_entry with
  | Ok updates =>
      exists guarded sidecar,
        updates = (guarded ++ sidecar)%list
        /\ Forall (Spec.reconciler_ok main_entry) guarded
        /\ IntegrateCedict.definitions_update json_loads cedict_entry = Ok sidecar
        /\ (sidecar = []
            \/ sidecar = [("cedict_definitions", Cedict.definitions cedict_entry)])
  | Raise _ => True
  end.
Proof.
  unfold IntegrateCedict.enhance_entry_with_cedict.
  destruct (IntegrateCedict.definitions_update json_loads cedict_entry)
    as [sidecar|e] eqn:Hside; unfold bind; [|exact I].
  match goal with
  | |- exists g s, (?a ++ ?b ++ ?c ++ ?d ++ _)%list = _ /\ _ =>
      exists (a ++ b ++ c ++ d)%list, sidecar
  end.
  split; [rewrite <- !app_assoc; reflexivity|].
  split.
  - repeat apply SqlFacts.Forall_append;
      apply guarded_field; unfold Spec.reconciler_guarded; simpl; tauto.
  - split; [reflexivity|].
    unfold IntegrateCedict.definitions_update in Hside.
    destruct (str_truthy (Cedict.definitions cedict_entry)); [|inversion Hside; auto].
    destruct (json_loads (Cedict.definitions cedict_entry)) as [v|[]];
      try discriminate; [destruct (Json.truthy v)|]; inversion Hside; auto.
Qed.

Lemma take_ok (entry : Dictionary.Entry) (d : Json.value) (k field : string)
    (guard : bool) (l : list (string * Json.value)) :
  DeepseekEnhancer.take d k field guard = Ok l ->
  (guard = true -> Spec.scheduler_ok entry (field, Json.JNull)) ->
  Forall (Spec.scheduler_ok entry) l.
Proof.
  unfold DeepseekEnhancer.take. destruct (Json.get d k) as [v|e]; simpl; [|discriminate].
  destruct (Json.truthy v); simpl; [destruct guard|]; intros H Hok;
    inversion H; subst; try apply Forall_nil.
  apply Forall_cons; [|apply Forall_nil].
  destruct (Hok eq_refl) as [Hl|Hr]; [left | right]; assumption.
Qed.

Lemma pronunciation_updates_ok (entry : Dictionary.Entry) (st : DeepseekEnhancer.State) :
  match snd (DeepseekEnhancer.pronunciation_updates json_loads post entry st) with
  | Ok l => Forall (Spec.scheduler_ok entry) l
  | Raise _ => True
  end.
Proof.
  unfold DeepseekEnhancer.pronunciation_updates.
  destruct (negb (truthy (Dictionary.get entry "zhuyin"))
            || negb (truthy (Dictionary.get entry "hanviet_reading"))); [|apply Forall_nil].
  destruct (DeepseekEnhancer.enhance_missing_pronunciation json_loads post
              (Dictionary.word entry) st) as [st1 [d|e]]; simpl; [|exact I].
  destruct (DeepseekEnhancer.take d "zhuyin" "zhuyin" true) as [zh|e] eqn:Hzh;
    simpl; [|exact I].
  destruct (DeepseekEnhancer.take d "hanviet" "hanviet_reading" true) as [hv|e] eqn:Hhv;
    simpl; [|exact I].
  destruct (DeepseekEnhancer.take d "pinyin_tones" "pinyin" _) as [pt|e] eqn:Hpt;
    simpl; [|exact I].
  repeat apply SqlFacts.Forall_append.
  - apply (take_ok entry _ _ _ _ _ Hzh). intros _. right. simpl. tauto.
  - apply (take_ok entry _ _ _ _ _ Hhv). intros _. right. simpl. tauto.
  - apply (take_ok entry _ _ _ _ _ Hpt). intros Hg. left.
    apply negb_true_iff in Hg. split; [simpl; tauto | exact Hg].
Qed.

Lemma vietnamese_updates_ok (entry : Dictionary.Entry) (st : DeepseekEnhancer.State) :
  Forall (Spec.scheduler_ok entry)
    (snd (DeepseekEnhancer.vietnamese_updates post entry st)).
Proof.
  unfold DeepseekEnhancer.vietnamese_updates.
  destruct (negb (truthy (Dictionary.get entry "vi_meaning"))) eqn:Hg; [|apply Forall_nil].
  destruct (DeepseekEnhancer.enhance_missing_vietnamese post (Dictionary.word entry)
              (Dictionary.get entry "en_meaning") st) as [st1 vi]. simpl.
  destruct (str_truthy vi); [|apply Forall_nil].
  apply Forall_cons; [|apply Forall_nil]. left.
  apply negb_true_iff in Hg. split; [simpl; tauto | exact Hg].
Qed.

Lemma examples_updates_ok (entry : Dictionary.Entry)
    (vi : list (string * Json.value)) (st : DeepseekEnhancer.State) :
  match snd (DeepseekEnhancer.examples_updates json_loads json_dumps post entry vi st) with
  | Ok l => Forall (Spec.scheduler_ok entry) l
  | Raise _ => True
  end.
Proof.
  unfold DeepseekEnhancer.examples_updates.
  destruct (negb (truthy (Dictionary.get entry "examples"))) eqn:Hg; [|apply Forall_nil].
  destruct (DeepseekEnhancer.enhance_missing_examples json_loads post _ _ st)
    as [st1 [examples|e]]; simpl; [|exact I].
  destruct (Json.truthy examples); [|apply Forall_nil].
  apply Forall_cons; [|apply Forall_nil]. left.
  apply negb_true_iff in Hg. split; [simpl; tauto | exact Hg].
Qed.

Lemma grammar_updates_ok (entry : Dictionary.Entry) (st : DeepseekEnhancer.State) :
  match snd (DeepseekEnhancer.grammar_updates json_loads json_dumps post entry st) with
  | Ok l => Forall (Spec.scheduler_ok entry) l
  | Raise _ => True
  end.
Proof.
  unfold DeepseekEnhancer.grammar_updates.
  destruct (negb (truthy (Dictionary.get entry "grammar_info"))) eqn:Hg; [|apply Forall_nil].
  destruct (DeepseekEnhancer.enhance_missing_grammar_info json_loads post _ st)
    as [st1 [grammar_info|e]]; simpl; [|exact I].
  destruct (Json.truthy grammar_info); [|apply Forall_nil].
  apply Forall_cons; [|apply Forall_nil]. left.
  apply negb_true_iff in Hg. split; [simpl; tauto | exact Hg].
Qed.

Lemma entry_updates_ok (entry : Dictionary.Entry) (st : DeepseekEnhancer.State) :
  match snd (DeepseekEnhancer.entry_updates json_loads json_dumps post entry st) with
  | Ok l => Forall (Spec.scheduler_ok entry) l
  | Raise _ => True
  end.
Proof.
  unfold DeepseekEnhancer.entry_updates.
  pose proof (pronunciation_updates_ok entry st) as Hpr.
  destruct (DeepseekEnhancer.pronunciation_updates json_loads post entry st)
    as [st1 [pr|e]]; cbn beta iota delta [snd] in Hpr |- *; [|exact I].
  pose proof (vietnamese_updates_ok entry st1) as Hvi.
  destruct (DeepseekEnhancer.vietnamese_updates post entry st1) as [st2 vi].
  cbn beta iota delta [snd] in Hvi |- *.
  pose proof (examples_updates_ok entry vi st2) as Hex.
  destruct (DeepseekEnhancer.examples_updates json_loads json_dumps post entry vi st2)
    as [st3 [ex|e]]; cbn beta iota delta [snd] in Hex |- *; [|exact I].
  pose proof (grammar_updates_ok entry st3) as Hgr.
  destruct (DeepseekEnhancer.grammar_updates json_loads json_dumps post entry st3)
    as [st4 [gr|e]]; cbn beta iota delta [snd] in Hgr |- *; [|exact I].
  repeat apply SqlFacts.Forall_append; assumption.
Qed.

End Patches.

(** C1 (non-destructive merge), as the code has it: the Reconciler's patch
    assigns en_meaning, pinyin, traditional or simplified only when that
    field of the entry is NULL, empty or whitespace, and the Scheduler's
    patch assigns pinyin, vi_meaning, examples or grammar_info only when
    that field of the entry is NULL or empty; the sidecar cedict_definitions
    is computed from the Source entry alone and, when assigned, is the
    Source entry's definitions.  (For zhuyin and hanviet_reading nothing is
    stated.) *)
Theorem patches_assign_missing_fields
    (json_loads : Json.loads_fn) (json_dumps : Json.dumps_fn)
    (post : DeepseekEnhancer.Request -> Q -> option string)
    (main_entry : Dictionary.Entry) (cedict_entry : Cedict.Entry)
    (entry : Dictionary.Entry) (st : DeepseekEnhancer.State) :
  match IntegrateCedict.enhance_entry_with_cedict json_loads main_entry cedict_entry with
  | Ok updates =>
      exists guarded sidecar,
        updates = (guarded ++ sidecar)%list
        /\ Forall (Spec.reconciler_ok main_entry) guarded
        /\ IntegrateCedict.definitions_update json_loads cedict_entry = Ok sidecar
        /\ (sidecar = []
            \/ sidecar = [("cedict_definitions", Cedict.definitions cedict_entry)])
  | Raise _ => True
  end
  /\ match snd (DeepseekEnhancer.entry_updates json_loads json_dumps post entry st) with
     | Ok updates => Forall (Spec.scheduler_ok entry) updates
     | Raise _ => True
     end.
Proof.
  split; [apply enhance_entry_with_cedict_patch | apply entry_updates_ok].
Qed.

End MergeFacts.

(** ** The properties on concrete stores *)

Module Runs.
Import Py.

(** *** Merge *)

(** C1 as stated fails on the sidecar: an entry that already carries
    definitions is matched with the Source entry of the scenario; the patch
    assigns cedict_definitions although the field is not empty. *)
Lemma sidecar_patch_overwrites_definitions :
  IntegrateCedict.enhance_entry_with_cedict Json.loads Scenario.curated_entry
    (Scenario.source_entry 1 Scenario.hello_definitions "2024-01-01 00:00:00")
  = Ok [("cedict_definitions", Scenario.hello_definitions)]
  /\ truthy (Dictionary.get Scenario.curated_entry "cedict_definitions") = true
  /\ Dictionary.get Scenario.curated_entry "cedict_definitions"
     <> Some Scenario.hello_definitions
  /\ ~ Spec.non_destructive Scenario.curated_entry
         [("cedict_definitions", Scenario.hello_definitions)].
Proof.
  split; [vm_compute; reflexivity|].
  split; [vm_compute; reflexivity|].
  split; [vm_compute; discriminate|].
  intros H. inversion H as [|kv l Hkv Hl]. vm_compute in Hkv. discriminate Hkv.
Qed.

(** A field that holds only whitespace counts as missing for the
    Reconciler and is assigned. *)
Example whitespace_field_is_assigned :
  IntegrateCedict.enhance_entry_with_cedict Json.loads
    (Dictionary.mkEntry 1 "你好" None None (Some "ni3 hao3") None None (Some " ")
       None None None None None None None None None)
    (Scenario.source_entry 1 EmptyString "2024-01-01 00:00:00")
  = Ok [("en_meaning", "hello")].
Proof. vm_compute. reflexivity. Qed.

(** The Scheduler asks for both readings when one is missing and assigns
    zhuyin from the reply although the entry has one. *)
Example scheduler_patch_assigns_zhuyin :
  let reply := "{" ++ Scenario.quoted "zhuyin" ++ ": " ++ Scenario.quoted "ㄏㄠˇ" ++ "}" in
  snd (DeepseekEnhancer.entry_updates Json.loads Scenario.dumps_placeholder
         (Scenario.always reply) Scenario.curated_entry
         (Scenario.enhancer 100 [Scenario.curated_entry]))
  = Ok [("zhuyin", Json.JStr "ㄏㄠˇ"); ("grammar_info", Json.JStr "[...]")]
  /\ truthy (Dictionary.get Scenario.curated_entry "zhuyin") = true.
Proof. split; vm_compute; reflexivity. Qed.

(** *** Two runs *)

(** C2 as stated fails on the reconciliation scenario: the second run
    matches the entry again (and updates it again). *)
Lemma second_run_counts_are_not_zero :
  ~ Spec.second_run_counts_zero Json.loads "2024-01-02T00:00:00" 10
      Scenario.primary Scenario.source.
Proof.
  unfold Spec.second_run_counts_zero. intros [H _].
  vm_compute in H. discriminate H.
Qed.

Example second_run_of_the_scenario :
  let now := "2024-01-02T00:00:00" in
  let run1 := IntegrateCedict.integrate_full Json.loads now 10
                Scenario.primary Scenario.source in
  snd (IntegrateCedict.integrate_full Json.loads now 10 (fst run1) Scenario.source)
  = IntegrateCedict.mkResults 1 1 0 1 1.
Proof. vm_compute. reflexivity. Qed.

(** With a cap of one and two new Source entries, the second run inserts
    the entry the first run left out. *)
Example second_run_inserts_under_a_small_cap :
  let now := "2024-01-02T00:00:00" in
  let run1 := IntegrateCedict.integrate_full Json.loads now 1
                Scenario.primary Scenario.source3 in
  snd run1 = IntegrateCedict.mkResults 1 1 1 1 2
  /\ snd (IntegrateCedict.integrate_full Json.loads now 1 (fst run1) Scenario.source3)
     = IntegrateCedict.mkResults 2 2 1 2 3.
Proof. split; vm_compute; reflexivity. Qed.

Lemma second_run_rematches_witness :
  let now := "2024-01-02T00:00:00" in
  let run1 := IntegrateCedict.integrate_full Json.loads now 10
                Scenario.primary Scenario.source3 in
  let run2 := IntegrateCedict.integrate_full Json.loads now 10 (fst run1)
                Scenario.source3 in
  Z.of_nat (List.length
              (IntegrateCedict.new_cedict_entries 10
                 (Spec.rows_before_insert Json.loads now Scenario.primary Scenario.source3)
                 Scenario.source3)) < 10
  /\ IntegrateCedict.added_entries (snd run2) = 0
  /\ IntegrateCedict.matched_entries (snd run2)
     = IntegrateCedict.matched_entries (snd run1)
       + IntegrateCedict.added_entries (snd run1).
Proof.
  intros now run1 run2.
  pose proof (ReconcilerFacts.second_run_rematches_and_does_not_reinsert
                Json.loads now 10 Scenario.primary Scenario.source3) as H.
  cbv zeta in H. destruct H as (Hmatched & _ & _ & _ & Hzero).
  assert (Hbelow :
    Z.of_nat (List.length
                (IntegrateCedict.new_cedict_entries 10
                   (Spec.rows_before_insert Json.loads now Scenario.primary Scenario.source3)
                   Scenario.source3)) < 10)
    by (vm_compute; reflexivity).
  split; [exact Hbelow|]. split; [exact (Hzero Hbelow) | exact Hmatched].
Defined.

(** Two Source entries with one simplified form are both new to the table
    when the insert phase starts, and both are inserted. *)
Example homographs_are_both_inserted :
  let a := Cedict.mkEntry 1 "行" "行" "hang2" "row" EmptyString "2024-01-01 00:00:00" in
  let b := Cedict.mkEntry 2 "行" "行" "xing2" "to walk" EmptyString "2024-01-01 00:00:00" in
  map Dictionary.word
    (fst (IntegrateCedict.add_new_cedict_entries Json.loads "2024-01-02T00:00:00"
            10 [] [a; b]))
  = ["行"; "行"].
Proof. vm_compute. reflexivity. Qed.

(** The identity string of an inserted row is [entry[1]], the traditional
    form of the Source entry. *)
Example inserted_word_is_the_traditional_form :
  map (fun r => (Dictionary.word r, Dictionary.traditional r, Dictionary.simplified r))
    (fst (IntegrateCedict.add_new_cedict_entries Json.loads "2024-01-02T00:00:00"
            10 [] [Cedict.mkEntry 3 "貓" "猫" "mao1" "cat" EmptyString "2024-01-01 00:00:00"]))
  = [("貓", Some "猫", Some "貓")].
Proof. vm_compute. reflexivity. Qed.

Lemma reconciliation_scenario_witness :
  (forall e, Json.loads Scenario.hello_definitions = Raise e -> e = JSONDecodeError)
  /\ exists entry,
       IntegrateCedict.integrate_full Json.loads "2024-01-02T00:00:00" 10
         [Scenario.primary_entry 1]
         [Scenario.source_entry 1 Scenario.hello_definitions "2024-01-01 00:00:00"]
       = ([entry], IntegrateCedict.mkResults 1 1 0 1 1)
       /\ Dictionary.id entry = 1
       /\ Dictionary.word entry = "你好"
       /\ Dictionary.pinyin entry = Some "ni3 hao3"
       /\ Dictionary.en_meaning entry = Some "hello"
       /\ Dictionary.vi_meaning entry = Some EmptyString.
Proof.
  assert (Hloads : forall e,
            Json.loads Scenario.hello_definitions = Raise e -> e = JSONDecodeError).
  { intros e H. vm_compute in H. discriminate H. }
  split; [exact Hloads|].
  exact (ReconcilerFacts.reconciliation_scenario Json.loads "2024-01-02T00:00:00"
           1 1 Scenario.hello_definitions "2024-01-01 00:00:00" Hloads).
Defined.

(** *** Enrichment *)

(** The batch scenario: 25 entries without a translation, batches of 10, a
    budget of 15, an API that never answers; 15 entries are processed and
    none is enhanced. *)
Example batch_of_the_scenario :
  option_map snd
    (DeepseekEnhancer.enhance_batch Json.loads Scenario.dumps_placeholder
       Scenario.no_reply Scenario.bind_str Scenario.isoformat_epoch 10 15
       (Scenario.enhancer 100 Scenario.twenty_five))
  = Some (DeepseekEnhancer.mkProgress 0 15).
Proof. vm_compute. reflexivity. Qed.

Lemma enhance_batch_terminates_witness :
  1 <= 10 /\ 0 <= 15
  /\ exists st' p',
       DeepseekEnhancer.enhance_batch Json.loads Scenario.dumps_placeholder
         Scenario.no_reply Scenario.bind_str Scenario.isoformat_epoch 10 15
         (Scenario.enhancer 100 Scenario.twenty_five) = Some (st', p')
       /\ DeepseekEnhancer.total_processed p' <= 15
       /\ 0 <= DeepseekEnhancer.enhanced_count p' <= DeepseekEnhancer.total_processed p'
       /\ DeepseekEnhancer.enhanced_count p' <= 15.
Proof.
  assert (H1 : 1 <= 10) by lia. assert (H2 : 0 <= 15) by lia.
  split; [exact H1|]. split; [exact H2|].
  exact (EnhancerFacts.enhance_batch_terminates Json.loads Scenario.dumps_placeholder
           Scenario.no_reply Scenario.bind_str Scenario.isoformat_epoch 10 15
           (Scenario.enhancer 100 Scenario.twenty_five) H1 H2).
Defined.

(** A reply with braces around text that is not JSON, and an opening
    square bracket that is never closed. *)
Lemma malformed_reply_witness :
  let post := Scenario.always "Here you go: {oops} [1, 2" in
  let st := Scenario.enhancer 100 [] in
  Spec.no_valid_structure Json.loads "{" "}"
    (snd (DeepseekEnhancer._call_deepseek_api post (DeepseekEnhancer.Pronunciation "你好") st))
  /\ Spec.no_valid_structure Json.loads "[" "]"
    (snd (DeepseekEnhancer._call_deepseek_api post (DeepseekEnhancer.Examples "你好" None) st))
  /\ snd (DeepseekEnhancer.enhance_missing_pronunciation Json.loads post "你好" st)
     = Ok (Json.JObj [])
  /\ snd (DeepseekEnhancer.enhance_missing_grammar_info Json.loads post "你好" st)
     = Ok (Json.JObj [])
  /\ snd (DeepseekEnhancer.enhance_missing_examples Json.loads post "你好" None st)
     = Ok (Json.JArr []).
Proof.
  intros post st.
  assert (Hp : Spec.no_valid_structure Json.loads "{" "}"
                 (snd (DeepseekEnhancer._call_deepseek_api post
                         (DeepseekEnhancer.Pronunciation "你好") st)))
    by (vm_compute; reflexivity).
  assert (Hg : Spec.no_valid_structure Json.loads "{" "}"
                 (snd (DeepseekEnhancer._call_deepseek_api post
                         (DeepseekEnhancer.GrammarInfo "你好") st)))
    by (vm_compute; reflexivity).
  assert (He : Spec.no_valid_structure Json.loads "[" "]"
                 (snd (DeepseekEnhancer._call_deepseek_api post
                         (DeepseekEnhancer.Examples "你好" None) st)))
    by (vm_compute; exact I).
  split; [exact Hp|]. split; [exact He|].
  destruct (EnhancerFacts.malformed_reply_is_empty_unless_loads_escapes
              Json.loads post "你好" None st) as (Hp' & Hg' & He' & _).
  split; [exact (Hp' Hp)|]. split; [exact (Hg' Hg) | exact (He' He)].
Defined.

(** The decoder with the recursion limit agrees with the reference parser
    on the texts of the scenarios. *)
Example loads_limited_on_the_scenario :
  Json.loads_limited 1000 Scenario.hello_definitions
  = Json.loads Scenario.hello_definitions
  /\ Json.loads_limited 1000 "[[1, 2], {oops}]" = Raise JSONDecodeError
  /\ Json.loads_limited 2 "[[[1]]]" = Raise RecursionError
  /\ Json.loads_limited 3 "[[[1]]]" = Json.loads "[[[1]]]".
Proof. repeat split; vm_compute; reflexivity. Qed.

(** On a reply that nests arrays deeper than the interpreter allows,
    [json.loads] raises [RecursionError], which the extraction does not
    catch: the client raises. *)
Example deep_nesting_raises :
  let post := Scenario.always Scenario.deep_reply in
  let st := Scenario.enhancer 100 [] in
  DeepseekEnhancer.bracketed "[" "]" Scenario.deep_reply = Some Scenario.deep_reply
  /\ Json.loads_limited 1000 Scenario.deep_reply = Raise RecursionError
  /\ snd (DeepseekEnhancer.enhance_missing_examples (Json.loads_limited 1000) post
            "你好" None st) = Raise RecursionError.
Proof. repeat split; vm_compute; reflexivity. Qed.

(** C5 as stated fails on that reply: it holds no valid array structure,
    and the client does not return the empty list. *)
Lemma deep_nesting_is_not_tolerated :
  ~ Spec.tolerates_malformed_examples (Json.loads_limited 1000)
      (Scenario.always Scenario.deep_reply) "你好" None (Scenario.enhancer 100 []).
Proof.
  unfold Spec.tolerates_malformed_examples. intros H.
  assert (Hbad : Spec.not_a_document (Json.loads_limited 1000) "[" "]"
                   (snd (DeepseekEnhancer._call_deepseek_api
                           (Scenario.always Scenario.deep_reply)
                           (DeepseekEnhancer.Examples "你好" None)
                           (Scenario.enhancer 100 [])))).
  { vm_compute. intros v Hv. discriminate Hv. }
  specialize (H Hbad). vm_compute in H. discriminate H.
Qed.

Lemma find_entries_needing_enhancement_witness :
  let rows := [Scenario.curated_entry; Scenario.primary_entry 3; Scenario.primary_entry 2] in
  0 <= 2
  /\ map Dictionary.id (DeepseekEnhancer.find_entries_needing_enhancement 2 rows) = [7; 2]
  /\ exists ranked,
       Permutation ranked (filter DeepseekEnhancer.needs_enhancement rows)
       /\ StronglySorted Spec.precedes ranked
       /\ DeepseekEnhancer.find_entries_needing_enhancement 2 rows
          = firstn (Z.to_nat 2) ranked.
Proof.
  intros rows.
  assert (H : 0 <= 2) by lia.
  split; [exact H|]. split; [vm_compute; reflexivity|].
  destruct (EnhancerFacts.find_entries_needing_enhancement_by_id 2 rows)
    as (ranked & Hperm & _ & Hsorted & Hcap & _).
  destruct (Hcap H) as [Hfirst _].
  exists ranked. split; [exact Hperm|]. split; [exact Hsorted | exact Hfirst].
Defined.

(** C7 as stated fails twice.  Two candidates without a rank come in the
    order of their ids, which here is the descending order of their words;
    and with a negative limit the query returns a candidate, where a cap
    would return none. *)
Lemma selection_is_not_by_identity_nor_capped :
  ~ Spec.selection_as_stated 10 [Dictionary.blank 1 "b"; Dictionary.blank 2 "a"]
  /\ ~ Spec.selection_as_stated (-1) [Dictionary.blank 1 "a"].
Proof.
  split; unfold Spec.selection_as_stated; cbv zeta.
  - intros (_ & Hsorted & _).
    assert (Hout : DeepseekEnhancer.find_entries_needing_enhancement 10
                     [Dictionary.blank 1 "b"; Dictionary.blank 2 "a"]
                   = [Dictionary.blank 1 "b"; Dictionary.blank 2 "a"])
      by (vm_compute; reflexivity).
    rewrite Hout in Hsorted.
    inversion Hsorted as [|x l _ Hall]. subst.
    inversion Hall as [|y l' Hxy _]. subst.
    destruct Hxy as [Hrank|[_ Hword]].
    + exact Hrank.
    + vm_compute in Hword. discriminate Hword.
  - intros (_ & _ & Hcap). vm_compute in Hcap. apply Hcap. reflexivity.
Qed.

Example negative_limit_returns_every_candidate :
  map Dictionary.id
    (DeepseekEnhancer.find_entries_needing_enhancement (-1)
       [Scenario.curated_entry; Scenario.primary_entry 3; Scenario.primary_entry 2])
  = [7; 2; 3].
Proof. vm_compute. reflexivity. Qed.

(** A call a quarter of a second after the previous one sleeps for the
    remaining three quarters. *)
Lemma consecutive_calls_witness :
  let post := Scenario.no_reply in
  let st := Scenario.enhancer 1700000000 [] in
  let prev := fst (DeepseekEnhancer._call_deepseek_api post
                     (DeepseekEnhancer.Pronunciation "你好") st) in
  let next := Spec.later (1 # 4) prev in
  DeepseekEnhancer.slept prev = []
  /\ exists s,
       DeepseekEnhancer.slept (DeepseekEnhancer._rate_limit next) = [s]
       /\ (s == 3 # 4)%Q.
Proof.
  intros post st prev next.
  assert (Hfirst : DeepseekEnhancer.slept prev = []) by (vm_compute; reflexivity).
  split; [exact Hfirst|].
  destruct (EnhancerFacts.consecutive_calls_are_spaced post
              (DeepseekEnhancer.Pronunciation "你好") (DeepseekEnhancer.GrammarInfo "你好")
              st (1 # 4)) as (_ & _ & _ & _ & Hshort & _).
  assert (Hlt : (1 # 4 < DeepseekEnhancer.request_delay st)%Q) by reflexivity.
  destruct (Hshort Hlt) as (s & Hslept & Hs & _).
  exists s. split.
  - fold prev in Hslept. fold next in Hslept. rewrite Hslept.
    f_equal.
  - rewrite Hs. reflexivity.
Defined.

(** C8 as stated fails when the clock was set back between two calls: one
    second before the time recorded for the previous call, the call blocks
    for two seconds, twice the interval. *)
Lemma clock_set_back_blocks_longer :
  let st := DeepseekEnhancer.mkState 1 1700000010 1700000009 [] [] in
  (Spec.blocked st == 2)%Q /\ ~ Spec.rate_limit_as_stated st.
Proof.
  intros st. split; [vm_compute; reflexivity|].
  intros (_ & Hbound & _). vm_compute in Hbound. apply Hbound. reflexivity.
Qed.

End Runs.

(** ** Further properties of the Reconciler *)

Module ReconcilerExtra.
Import Py IntegrateCedict.





(** *** The update phase as a frame *)

Lemma kept_outside_refl (ids : list Z) (r : Dictionary.Entry) : Props.kept_outside ids r r.
Proof. unfold Props.kept_outside. auto. Qed.

Lemma kept_outside_all_refl (ids : list Z) (rows : list Dictionary.Entry) :
  Forall2 (Props.kept_outside ids) rows rows.
Proof. induction rows; constructor; [apply kept_outside_refl | assumption]. Qed.

Lemma kept_outside_trans (ids1 ids2 : list Z) (a b c : list Dictionary.Entry) :
  Forall2 (Props.kept_outside ids1) a b ->
  Forall2 (Props.kept_outside ids2) b c ->
  Forall2 (Props.kept_outside (ids1 ++ ids2)) a c.
Proof.
  intros Hab. revert c. induction Hab as [|x y a b Hxy Hab IH]; intros c Hbc.
  - inversion Hbc. constructor.
  - inversion Hbc as [|y' z b' c' Hyz Hbc']. subst. constructor; [|apply IH; exact Hbc'].
    destruct Hxy as (Hi1 & Hw1 & Hk1), Hyz as (Hi2 & Hw2 & Hk2).
    unfold Props.kept_outside. split; [congruence|]. split; [congruence|].
    intros Hnot. rewrite Hk2.
    + apply Hk1. intros H. apply Hnot. apply in_or_app. left. exact H.
    + rewrite Hi1. intros H. apply Hnot. apply in_or_app. right. exact H.
Qed.

(** An UPDATE ... WHERE id = i keeps the rows in place and touches only
    those with that id. *)
Lemma update_kept_outside (updates : list (string * string)) (i : Z)
    (rows rows' : list Dictionary.Entry) :
  Dictionary.update updates i rows = Ok rows' ->
  Forall2 (Props.kept_outside [i]) rows rows'.
Proof.
  unfold Dictionary.update.
  destruct (forallb _ updates); [|discriminate].
  intros H. inversion H. subst rows'. clear H.
  induction rows as [|r rest IH]; simpl; constructor; [|exact IH].
  unfold Props.kept_outside.
  destruct (Dictionary.id r =? i) eqn:Hid.
  - destruct (Dictionary.set_all updates r) as [r'|] eqn:Hset.
    + apply ReconcilerFacts.set_all_keeps_identity in Hset. destruct Hset as [Hw Hi].
      split; [exact Hi|]. split; [exact Hw|].
      intros Hnot. exfalso. apply Hnot. left. apply Z.eqb_eq in Hid. auto.
    + auto.
  - auto.
Qed.

Section Phases.
Variable json_loads : Json.loads_fn.
Variable now : string.

Lemma update_one_kept_outside (m : Dictionary.Entry * Cedict.Entry)
    (rows : list Dictionary.Entry) (n : Z) :
  Forall2 (Props.kept_outside [Dictionary.id (fst m)])
    rows (fst (update_one json_loads now m (rows, n)))
  /\ n <= snd (update_one json_loads now m (rows, n)) <= n + 1.
Proof.
  unfold update_one. destruct m as [main_entry cedict_entry]. simpl fst.
  destruct (enhance_entry_with_cedict json_loads main_entry cedict_entry)
    as [[|u us]|e]; simpl; try (split; [apply kept_outside_all_refl | lia]).
  destruct (Dictionary.update _ _ rows) as [rows'|e] eqn:Hup; simpl;
    try (split; [apply kept_outside_all_refl | lia]).
  split; [exact (update_kept_outside _ _ _ _ Hup) | lia].
Qed.

Lemma update_loop_kept_outside (matches : list (Dictionary.Entry * Cedict.Entry)) :
  forall (rows : list Dictionary.Entry) (n : Z),
    Forall2 (Props.kept_outside (map (fun m => Dictionary.id (fst m)) matches))
      rows (fst (fold_left (fun st m => update_one json_loads now m st) matches (rows, n)))
    /\ n <= snd (fold_left (fun st m => update_one json_loads now m st) matches (rows, n))
         <= n + Z.of_nat (List.length matches).
Proof.
  induction matches as [|m rest IH]; intros rows n.
  - simpl. split; [apply kept_outside_all_refl | lia].
  - cbn [fold_left map List.length].
    destruct (update_one_kept_outside m rows n) as [H1 H1n].
    destruct (update_one json_loads now m (rows, n)) as [rows1 n1].
    cbn [fst snd] in H1, H1n.
    destruct (IH rows1 n1) as [H2 H2n].
    split.
    + exact (kept_outside_trans [Dictionary.id (fst m)] _ _ _ _ H1 H2).
    + lia.
Qed.

End Phases.

(** X2.  The update phase keeps every row in its place with its id and its
    identity string, leaves every row whose id is not that of a matched
    entry exactly as it was, and counts at most one update per match. *)
Theorem update_existing_entries_frame
    (json_loads : Json.loads_fn) (now : string)
    (matches : list (Dictionary.Entry * Cedict.Entry)) (rows : list Dictionary.Entry) :
  Forall2 (Props.kept_outside (map (fun m => Dictionary.id (fst m)) matches))
    rows (fst (update_existing_entries json_loads now matches rows))
  /\ 0 <= snd (update_existing_entries json_loads now matches rows)
       <= Z.of_nat (List.length matches).
Proof.
  unfold update_existing_entries.
  destruct (update_loop_kept_outside json_loads now matches rows 0) as [H1 H2].
  split; [exact H1 | lia].
Qed.

(** X3.  A run never removes or reorders a row: the table after it is the
    table before it, each row in place with its id and identity string and
    untouched unless it was matched, followed by the inserted rows; the
    totals differ by the inserted count, and the counts are ordered. *)
Theorem integrate_full_only_adds
    (json_loads : Json.loads_fn) (now : string) (K : Z)
    (rows : list Dictionary.Entry) (cedict : list Cedict.Entry) :
  let run := integrate_full json_loads now K rows cedict in
  exists kept ins,
    fst run = (kept ++ ins)%list
    /\ Forall2 (Props.kept_outside
                  (map (fun m => Dictionary.id (fst m)) (find_matching_entries rows cedict)))
         rows kept
    /\ added_entries (snd run) = Z.of_nat (List.length ins)
    /\ total_after (snd run) = total_before (snd run) + added_entries (snd run)
    /\ 0 <= updated_entries (snd run) <= matched_entries (snd run)
    /\ matched_entries (snd run) <= total_before (snd run).
Proof.
  intros run. unfold run. rewrite ReconcilerFacts.integrate_full_phases.
  cbn [fst snd matched_entries updated_entries added_entries total_before total_after].
  destruct (update_loop_kept_outside json_loads now (find_matching_entries rows cedict) rows 0)
    as [Hframe Hcount].
  fold (update_existing_entries json_loads now (find_matching_entries rows cedict) rows)
    in Hframe, Hcount.
  destruct (ReconcilerFacts.add_new_cedict_entries_shape json_loads now K
              (Spec.rows_before_insert json_loads now rows cedict) cedict)
    as (ins & Hrun & _).
  exists (Spec.rows_before_insert json_loads now rows cedict), ins.
  rewrite Hrun. cbn [fst snd].
  split; [reflexivity|]. split; [exact Hframe|]. split; [reflexivity|].
  split.
  - unfold total_entries. rewrite length_app, Nat2Z.inj_add.
    apply Forall2_length in Hframe. unfold Spec.rows_before_insert. rewrite <- Hframe.
    reflexivity.
  - split; [lia|].
    rewrite ReconcilerFacts.find_matching_entries_length.
    unfold total_entries.
    pose proof (filter_length_le (Spec.has_match cedict) (map Dictionary.word rows)) as Hle.
    rewrite length_map in Hle. lia.
Qed.

Lemma select_new_length (existing_words : list string) (limit : Z)
    (entries : list Cedict.Entry) :
  forall new_entries : list Cedict.Entry,
    Z.of_nat (List.length (select_new existing_words limit entries new_entries))
    <= Z.max limit (Z.of_nat (List.length new_entries) + 1).
Proof.
  induction entries as [|entry rest IH]; intros new_entries; simpl; [lia|].
  destruct (is_new existing_words entry).
  - destruct (Z.of_nat (List.length (new_entries ++ [entry])) >=? limit) eqn:Hfull.
    + rewrite length_app. simpl. lia.
    + rewrite Z.geb_leb in Hfull. apply Z.leb_gt in Hfull.
      specialize (IH (new_entries ++ [entry])%list).
      rewrite length_app in IH, Hfull. simpl in IH, Hfull. lia.
  - apply IH.
Qed.

Lemma insert_loop_count (json_loads : Json.loads_fn) (now : string)
    (entries : list Cedict.Entry) (rows : list Dictionary.Entry) (n : Z) :
  n <= snd (fold_left (insert_one json_loads now) entries (rows, n))
    <= n + Z.of_nat (List.length entries).
Proof.
  destruct (ReconcilerFacts.insert_loop_shape json_loads now entries rows n)
    as (ins & Hrun & Hall).
  rewrite Hrun. cbn [snd]. apply Forall2_length in Hall. rewrite Hall.
  pose proof (filter_length_le (insertable json_loads) entries). lia.
Qed.

(** X4.  The insert phase adds at most [limit] rows for a positive limit;
    for a limit of zero it adds none and leaves the table as it is; for a
    negative limit, which SQLite reads as no limit on the query, the filter
    loop still stops after the first new entry, so at most one row is
    added. *)
Theorem add_new_cedict_entries_cap
    (json_loads : Json.loads_fn) (now : string) (limit : Z)
    (rows : list Dictionary.Entry) (cedict : list Cedict.Entry) :
  0 <= snd (add_new_cedict_entries json_loads now limit rows cedict) <= Z.max limit 1
  /\ (limit = 0 -> add_new_cedict_entries json_loads now limit rows cedict = (rows, 0)).
Proof.
  split.
  - unfold add_new_cedict_entries.
    pose proof (insert_loop_count json_loads now
                  (new_cedict_entries limit rows cedict) rows 0) as Hcount.
    pose proof (select_new_length (map Dictionary.word rows) limit
                  (sql_limit (limit * 3) (order_by_length_simplified cedict)) []) as Hsel.
    fold (new_cedict_entries limit rows cedict) in Hsel. simpl in Hsel. lia.
  - intros ->. reflexivity.
Qed.

Lemma find_matching_entries_no_source (rows : list Dictionary.Entry) :
  find_matching_entries rows [] = [].
Proof. induction rows as [|m r IH]; simpl; [reflexivity | exact IH]. Qed.

(** X5.  With an empty Source Store a run changes nothing: the table is
    returned as it is and the three counts are zero. *)
Theorem integrate_full_empty_source
    (json_loads : Json.loads_fn) (now : string) (K : Z) (rows : list Dictionary.Entry) :
  integrate_full json_loads now K rows []
  = (rows, mkResults 0 0 0 (total_entries rows) (total_entries rows)).
Proof.
  unfold integrate_full. rewrite find_matching_entries_no_source.
  unfold update_existing_entries, add_new_cedict_entries, new_cedict_entries.
  cbn [fold_left List.length Z.of_nat].
  replace (sql_limit (K * 3) (order_by_length_simplified [])) with (@nil Cedict.Entry).
  - reflexivity.
  - unfold sql_limit, order_by_length_simplified. simpl.
    destruct (K * 3 <? 0); [reflexivity | destruct (Z.to_nat (K * 3)); reflexivity].
Qed.

(** X6.  Reconciling an entry with the Source entry it was just reconciled
    with writes nothing but the update timestamp: either no UPDATE is issued
    or every column other than updated_at keeps its value. *)
Theorem reconciled_entry_is_stable
    (json_loads : Json.loads_fn) (now now' : string)
    (main_entry main' : Dictionary.Entry) (cedict_entry : Cedict.Entry) :
  Props.reconciled json_loads now main_entry cedict_entry = Some main' ->
  Props.reconciled json_loads now' main' cedict_entry = Some main'
  \/ Props.reconciled json_loads now' main' cedict_entry
     = Dictionary.set "updated_at" now' main'.
Proof.
  destruct main_entry as [i w tr si pi zh vi en po hs to fr hv ca ua cd so].
  destruct cedict_entry as [ci ctr csi cpi cen cde cca].
  unfold Props.reconciled, enhance_entry_with_cedict, definitions_update, bind.
  cbn -[missing str_truthy].
  rewrite (String.eqb_sym csi ctr).
  destruct (str_truthy cde) eqn:Ecde;
    [destruct (json_loads cde) as [v|[]] eqn:Eloads; [destruct (Json.truthy v) eqn:Ev| | | | | |]|];
  try (cbn -[missing str_truthy]; intros H; discriminate H);
  destruct (missing en) eqn:Een; destruct (str_truthy cen) eqn:Ecen;
  destruct (missing pi) eqn:Epi; destruct (str_truthy cpi) eqn:Ecpi;
  destruct (missing tr) eqn:Etr; destruct (String.eqb ctr csi) eqn:Ets;
  destruct (missing si) eqn:Esi;
  cbn -[missing str_truthy]; intros H; injection H as <-;
  cbn -[missing str_truthy];
  rewrite ?(String.eqb_sym csi ctr), ?Ecde, ?Eloads, ?Een, ?Ecen, ?Epi, ?Ecpi, ?Etr, ?Ets, ?Esi;
  cbn -[missing str_truthy]; rewrite ?Ev;
  repeat match goal with
  | |- context [missing (Some ?x)] => destruct (missing (Some x))
  end;
  cbn -[missing str_truthy]; auto.
Qed.

End ReconcilerExtra.

(** ** Further properties of the Enrichment Client and Scheduler *)

Module EnhancerExtra.
Import Py DeepseekEnhancer.

(** *** The clock *)

Lemma rate_limit_conn (st : State) : conn (_rate_limit st) = conn st.
Proof.
  unfold _rate_limit. destruct (rate_limit_sleep st); reflexivity.
Qed.

(** X7.  After [_rate_limit] the clock stands at least [request_delay] after
    the previous call and not before where it stood; the time of the call
    is recorded, and neither the delay nor the table is touched. *)
Theorem rate_limit_spaces_calls (st : State) :
  (last_request_time st + request_delay st <= time (_rate_limit st))%Q
  /\ (time st <= time (_rate_limit st))%Q
  /\ last_request_time (_rate_limit st) = time (_rate_limit st)
  /\ request_delay (_rate_limit st) = request_delay st
  /\ conn (_rate_limit st) = conn st.
Proof.
  unfold _rate_limit, rate_limit_sleep.
  destruct (Qle_bool (request_delay st) (time st - last_request_time st)) eqn:E; simpl.
  - apply Qle_bool_iff in E. repeat split; lra.
  - assert (Hlt : (time st - last_request_time st < request_delay st)%Q).
    { apply Qnot_le_lt. intros H. apply Qle_bool_iff in H. congruence. }
    repeat split; lra.
Qed.

(** *** One entry *)

Section OneEntry.
Variable json_loads : Json.loads_fn.
Variable json_dumps : Json.dumps_fn.
Variable post : Request -> Q -> option string.
Variable bind_parameter : Json.value -> result string.
Variable isoformat : Q -> string.

(** Computing the patch only moves the clock. *)
Lemma entry_updates_conn (entry : Dictionary.Entry) (st : State) :
  conn (fst (entry_updates json_loads json_dumps post entry st)) = conn st.
Proof.
  unfold entry_updates, pronunciation_updates, vietnamese_updates, examples_updates,
    grammar_updates, enhance_missing_pronunciation, enhance_missing_vietnamese,
    enhance_missing_examples, enhance_missing_grammar_info, _call_deepseek_api.
  repeat match goal with
  | |- context [if ?b then _ else _] => destruct b
  | |- context [match ?r with Ok _ => _ | Raise _ => _ end] => destruct r
  end; cbn [fst snd]; rewrite ?rate_limit_conn; reflexivity.
Qed.

Lemma bind_all_keys (updates : list (string * Json.value)) (values : list (string * string)) :
  bind_all bind_parameter updates = Ok values -> map fst values = map fst updates.
Proof.
  revert values. induction updates as [|[k v] r IH]; intros values; simpl.
  - intros H. inversion H. reflexivity.
  - destruct (bind_parameter v) as [s|e]; simpl; [|discriminate].
    destruct (bind_all bind_parameter r) as [r'|e]; simpl; [|discriminate].
    intros H. inversion H. simpl. rewrite (IH r' eq_refl). reflexivity.
Qed.

(** An UPDATE that names [examples] or [grammar_info] is refused. *)
Lemma update_refuses_unknown_column (k : string) (values : list (string * string))
    (i : Z) (rows : list Dictionary.Entry) :
  In k (map fst values) ->
  Dictionary.set k EmptyString (Dictionary.blank 0 EmptyString) = None ->
  Dictionary.update values i rows = Raise OtherError.
Proof.
  intros Hin Hset. unfold Dictionary.update.
  destruct (forallb _ values) eqn:Hall; [|reflexivity].
  exfalso. apply in_map_iff in Hin. destruct Hin as ([k' v] & Hk & Hin). simpl in Hk. subst k'.
  rewrite forallb_forall in Hall. specialize (Hall _ Hin). cbn [fst snd] in Hall.
  assert (Hnone : Dictionary.set k v (Dictionary.blank 0 EmptyString) = None).
  { revert Hset. unfold Dictionary.set, Dictionary.blank.
    repeat match goal with
    | |- context [String.eqb k ?c] => destruct (String.eqb k c)
    end; try discriminate; reflexivity. }
  rewrite Hnone in Hall. discriminate Hall.
Qed.

Lemma update_database_entry_refused (entry_id : Z)
    (updates : list (string * Json.value)) (now : string) (st : State) :
  In "examples" (map fst updates) \/ In "grammar_info" (map fst updates) ->
  _update_database_entry bind_parameter entry_id updates now st = (st, false).
Proof.
  intros Hkey. unfold _update_database_entry.
  destruct (bind_all bind_parameter updates) as [values|e] eqn:Hbind; [|reflexivity].
  apply bind_all_keys in Hbind.
  assert (Hraise : Dictionary.update (values ++ [("updated_at", now)])%list entry_id (conn st)
                   = Raise OtherError).
  { destruct Hkey as [Hk|Hk].
    - apply (update_refuses_unknown_column "examples"); [|reflexivity].
      rewrite map_app, Hbind. apply in_or_app. left. exact Hk.
    - apply (update_refuses_unknown_column "grammar_info"); [|reflexivity].
      rewrite map_app, Hbind. apply in_or_app. left. exact Hk. }
  rewrite Hraise. reflexivity.
Qed.

Lemma update_database_entry_frame (entry_id : Z)
    (updates : list (string * Json.value)) (now : string) (st : State) :
  Forall2 (Props.kept_outside [entry_id])
    (conn st) (conn (fst (_update_database_entry bind_parameter entry_id updates now st))).
Proof.
  unfold _update_database_entry.
  destruct (bind_all bind_parameter updates) as [values|e];
    [|apply ReconcilerExtra.kept_outside_all_refl].
  destruct (Dictionary.update _ entry_id (conn st)) as [rows|e] eqn:Hup;
    [|apply ReconcilerExtra.kept_outside_all_refl].
  simpl. exact (ReconcilerExtra.update_kept_outside _ _ _ _ Hup).
Qed.

End OneEntry.

Section ApiDown.
Variable json_loads : Json.loads_fn.
Variable json_dumps : Json.dumps_fn.
Variable post : Request -> Q -> option string.
Hypothesis down : forall r t, post r t = None.

Lemma pronunciation_down (entry : Dictionary.Entry) (st : State) :
  snd (pronunciation_updates json_loads post entry st) = Ok [].
Proof.
  unfold pronunciation_updates, enhance_missing_pronunciation, _call_deepseek_api.
  rewrite down. destruct (negb _ || negb _); reflexivity.
Qed.

Lemma vietnamese_down (entry : Dictionary.Entry) (st : State) :
  snd (vietnamese_updates post entry st) = [].
Proof.
  unfold vietnamese_updates, enhance_missing_vietnamese, _call_deepseek_api.
  rewrite down. destruct (negb _); reflexivity.
Qed.

Lemma examples_down (entry : Dictionary.Entry) (vi : list (string * Json.value))
    (st : State) :
  snd (examples_updates json_loads json_dumps post entry vi st) = Ok [].
Proof.
  unfold examples_updates, enhance_missing_examples, _call_deepseek_api.
  rewrite down. destruct (negb _); reflexivity.
Qed.

Lemma grammar_down (entry : Dictionary.Entry) (st : State) :
  snd (grammar_updates json_loads json_dumps post entry st) = Ok [].
Proof.
  unfold grammar_updates, enhance_missing_grammar_info, _call_deepseek_api.
  rewrite down. destruct (negb _); reflexivity.
Qed.

End ApiDown.

(** X8.  When every exchange with the API fails, [enhance_entry] returns
    False without raising and leaves the table as it is. *)
Theorem enhance_entry_without_api
    (json_loads : Json.loads_fn) (json_dumps : Json.dumps_fn)
    (post : Request -> Q -> option string)
    (bind_parameter : Json.value -> result string) (isoformat : Q -> string)
    (entry : Dictionary.Entry) (st : State) :
  (forall r t, post r t = None) ->
  snd (enhance_entry json_loads json_dumps post bind_parameter isoformat entry st) = Ok false
  /\ conn (fst (enhance_entry json_loads json_dumps post bind_parameter isoformat entry st))
     = conn st.
Proof.
  intros Hdown.
  assert (Hupd : snd (entry_updates json_loads json_dumps post entry st) = Ok []).
  { unfold entry_updates.
    pose proof (pronunciation_down json_loads post Hdown entry st) as Hpr.
    destruct (pronunciation_updates json_loads post entry st) as [st1 r1].
    cbn [snd] in Hpr. subst r1.
    pose proof (vietnamese_down post Hdown entry st1) as Hvi.
    destruct (vietnamese_updates post entry st1) as [st2 vi].
    cbn [snd] in Hvi. subst vi.
    pose proof (examples_down json_loads json_dumps post Hdown entry [] st2) as Hex.
    destruct (examples_updates json_loads json_dumps post entry [] st2) as [st3 r3].
    cbn [snd] in Hex. subst r3.
    pose proof (grammar_down json_loads json_dumps post Hdown entry st3) as Hgr.
    destruct (grammar_updates json_loads json_dumps post entry st3) as [st4 r4].
    cbn [snd] in Hgr. subst r4. reflexivity. }
  pose proof (entry_updates_conn json_loads json_dumps post entry st) as Hconn.
  unfold enhance_entry.
  destruct (entry_updates json_loads json_dumps post entry st) as [st1 r].
  simpl in Hupd, Hconn. subst r. simpl. auto.
Qed.

(** X9.  When the patch of [enhance_entry] holds example sentences or
    grammar information, the UPDATE names a column the table does not have,
    it is refused as a whole, and [enhance_entry] returns False with the
    table as it was: none of the fields of the patch is saved. *)
Theorem enhance_entry_saves_nothing_with_examples
    (json_loads : Json.loads_fn) (json_dumps : Json.dumps_fn)
    (post : Request -> Q -> option string)
    (bind_parameter : Json.value -> result string) (isoformat : Q -> string)
    (entry : Dictionary.Entry) (st : State) (updates : list (string * Json.value)) :
  snd (entry_updates json_loads json_dumps post entry st) = Ok updates ->
  In "examples" (map fst updates) \/ In "grammar_info" (map fst updates) ->
  snd (enhance_entry json_loads json_dumps post bind_parameter isoformat entry st) = Ok false
  /\ conn (fst (enhance_entry json_loads json_dumps post bind_parameter isoformat entry st))
     = conn st.
Proof.
  intros Hupd Hkey.
  pose proof (entry_updates_conn json_loads json_dumps post entry st) as Hconn.
  unfold enhance_entry.
  destruct (entry_updates json_loads json_dumps post entry st) as [st1 r].
  simpl in Hupd, Hconn. subst r.
  destruct updates as [|u us]; [destruct Hkey as [[]|[]]|].
  rewrite (update_database_entry_refused bind_parameter _ _ _ _ Hkey). simpl. auto.
Qed.

(** X10.  [enhance_entry] keeps every row in its place with its id and its
    identity string and touches no row but those with the id of the entry
    it was given. *)
Theorem enhance_entry_frame
    (json_loads : Json.loads_fn) (json_dumps : Json.dumps_fn)
    (post : Request -> Q -> option string)
    (bind_parameter : Json.value -> result string) (isoformat : Q -> string)
    (entry : Dictionary.Entry) (st : State) :
  Forall2 (Props.kept_outside [Dictionary.id entry])
    (conn st)
    (conn (fst (enhance_entry json_loads json_dumps post bind_parameter isoformat entry st))).
Proof.
  pose proof (entry_updates_conn json_loads json_dumps post entry st) as Hconn.
  unfold enhance_entry.
  destruct (entry_updates json_loads json_dumps post entry st) as [st1 [[|u us]|e]];
    simpl in Hconn; try (simpl; rewrite Hconn; apply ReconcilerExtra.kept_outside_all_refl).
  pose proof (update_database_entry_frame bind_parameter (Dictionary.id entry) (u :: us)
                (isoformat (time st1)) st1) as Hframe.
  destruct (_update_database_entry bind_parameter (Dictionary.id entry) (u :: us)
              (isoformat (time st1)) st1) as [st2 b].
  simpl in *. rewrite <- Hconn. exact Hframe.
Qed.

(** *** The batch loop *)

Section Exit.
Variable json_loads : Json.loads_fn.
Variable json_dumps : Json.dumps_fn.
Variable post : Request -> Q -> option string.
Variable bind_parameter : Json.value -> result string.
Variable isoformat : Q -> string.

Lemma batch_loop_exit (batch_size max_entries : Z) :
  forall (fuel : nat) (st st' : State) (p p' : Progress),
    Spec.counters_ordered p ->
    total_processed p <= max_entries ->
    batch_loop json_loads json_dumps post bind_parameter isoformat
      fuel batch_size max_entries st p = Some (st', p') ->
    total_processed p' = max_entries
    \/ find_entries_needing_enhancement batch_size (conn st') = [].
Proof.
  induction fuel as [|fuel IH]; intros st st' p p' Hord Hmax.
  - simpl. destruct (total_processed p <? max_entries) eqn:Hlt; [discriminate|].
    intros H. inversion H. subst. apply Z.ltb_ge in Hlt. left. lia.
  - rewrite EnhancerFacts.batch_loop_step.
    destruct (total_processed p <? max_entries) eqn:Hlt.
    + destruct (find_entries_needing_enhancement batch_size (conn st))
        as [|entry rest] eqn:Hfind.
      * intros H. inversion H. subst. right. exact Hfind.
      * pose proof (EnhancerFacts.process_entries_progress json_loads json_dumps post
                      bind_parameter isoformat (entry :: rest) max_entries st p Hord Hmax)
          as (H1 & H2 & _).
        match goal with
        | |- context [let '(a, b) := ?X in _] =>
            change X with (process_entries json_loads json_dumps post bind_parameter
                             isoformat (entry :: rest) max_entries st p)
        end.
        destruct (process_entries json_loads json_dumps post bind_parameter isoformat
                    (entry :: rest) max_entries st p) as [st1 p1].
        cbn [snd] in H1, H2. apply IH; [exact H1 | lia].
    + intros H. inversion H. subst. apply Z.ltb_ge in Hlt. left. lia.
Qed.

End Exit.

(** X11.  [enhance_batch] stops for one of two reasons only: the budget is
    used up, exactly, or the selection query finds no candidate in the table
    as the run left it. *)
Theorem enhance_batch_exit
    (json_loads : Json.loads_fn) (json_dumps : Json.dumps_fn)
    (post : Request -> Q -> option string)
    (bind_parameter : Json.value -> result string) (isoformat : Q -> string)
    (batch_size max_entries : Z) (st st' : State) (p' : Progress) :
  0 <= max_entries ->
  enhance_batch json_loads json_dumps post bind_parameter isoformat
    batch_size max_entries st = Some (st', p') ->
  total_processed p' = max_entries
  \/ find_entries_needing_enhancement batch_size (conn st') = [].
Proof.
  intros Hmax Hrun. unfold enhance_batch in Hrun.
  apply (batch_loop_exit json_loads json_dumps post bind_parameter isoformat
           batch_size max_entries (Z.to_nat max_entries) st st' (mkProgress 0 0) p');
    try exact Hrun.
  - unfold Spec.counters_ordered. simpl. lia.
  - simpl. exact Hmax.
Qed.

(** X12.  With a budget that is not positive, or with no candidate in the
    table, [enhance_batch] returns 0 at once: no entry is processed, no API
    call is made and the clock and the table are as before. *)
Theorem enhance_batch_nothing_to_do
    (json_loads : Json.loads_fn) (json_dumps : Json.dumps_fn)
    (post : Request -> Q -> option string)
    (bind_parameter : Json.value -> result string) (isoformat : Q -> string)
    (batch_size max_entries : Z) (st : State) :
  max_entries <= 0 \/ find_entries_needing_enhancement batch_size (conn st) = [] ->
  enhance_batch json_loads json_dumps post bind_parameter isoformat
    batch_size max_entries st = Some (st, mkProgress 0 0).
Proof.
  intros Hcase. unfold enhance_batch.
  destruct (Z.to_nat max_entries) as [|fuel] eqn:Hfuel.
  - simpl. destruct (0 <? max_entries) eqn:Hlt; [|reflexivity].
    apply Z.ltb_lt in Hlt. lia.
  - rewrite EnhancerFacts.batch_loop_step. cbn [total_processed].
    destruct (0 <? max_entries) eqn:Hlt; [|reflexivity].
    apply Z.ltb_lt in Hlt. destruct Hcase as [Hle|Hnone]; [lia|].
    rewrite Hnone. reflexivity.
Qed.

End EnhancerExtra.

(** ** Extraction from a reply with prose around the document *)

Module ExtractionExtra.
Import Py DeepseekEnhancer.

Lemma append_assoc (a b c : string) : ((a ++ b) ++ c)%string = (a ++ (b ++ c))%string.
Proof. induction a as [|x a IH]; simpl; [reflexivity | rewrite IH; reflexivity]. Qed.

Lemma find_from_skips (c : ascii) (pre rest : string) (i : Z) :
  PropsEnhancer.lacks c pre ->
  find_from c (pre ++ String c rest) i = i + Z.of_nat (String.length pre).
Proof.
  revert i. induction pre as [|d pre IH]; intros i Hlacks; simpl.
  - rewrite Ascii.eqb_refl. lia.
  - destruct Hlacks as [Hd Hrest].
    assert (Hneq : Ascii.eqb c d = false).
    { apply Ascii.eqb_neq. intros H. apply Hd. symmetry. exact H. }
    rewrite Hneq, (IH (i + 1) Hrest). lia.
Qed.

Lemma rfind_from_app (c : ascii) (a b : string) :
  forall (i best : Z),
    rfind_from c (a ++ b) i best
    = rfind_from c b (i + Z.of_nat (String.length a)) (rfind_from c a i best).
Proof.
  induction a as [|d a IH]; intros i best; simpl.
  - rewrite Z.add_0_r. reflexivity.
  - rewrite IH. f_equal. lia.
Qed.

Lemma rfind_from_lacks (c : ascii) (s : string) :
  forall (i best : Z), PropsEnhancer.lacks c s -> rfind_from c s i best = best.
Proof.
  induction s as [|d s IH]; intros i best Hlacks; simpl; [reflexivity|].
  destruct Hlacks as [Hd Hrest].
  assert (Hneq : Ascii.eqb c d = false).
  { apply Ascii.eqb_neq. intros H. apply Hd. symmetry. exact H. }
  rewrite Hneq. apply IH. exact Hrest.
Qed.

Lemma substring_skip (pre s : string) (n : nat) :
  substring (String.length pre) n (pre ++ s) = substring 0 n s.
Proof. induction pre as [|d pre IH]; simpl; [reflexivity | exact IH]. Qed.

Lemma substring_prefix (d s : string) :
  substring 0 (String.length d) (d ++ s) = d.
Proof.
  induction d as [|x d IH]; simpl.
  - destruct s; reflexivity.
  - rewrite IH. reflexivity.
Qed.

Lemma length_append (a b : string) :
  String.length (a ++ b) = (String.length a + String.length b)%nat.
Proof. induction a as [|x a IH]; simpl; [reflexivity | rewrite IH; reflexivity]. Qed.

(** The text from the first opening to the last closing bracket of a reply
    whose prose before the document has no opening bracket and whose prose
    after it has no closing one. *)
Lemma bracketed_in_prose (open close : ascii) (pre body suf : string) :
  PropsEnhancer.lacks open pre ->
  PropsEnhancer.lacks close suf ->
  bracketed open close (pre ++ String open (body ++ String close EmptyString) ++ suf)
  = Some (String open (body ++ String close EmptyString)).
Proof.
  intros Hpre Hsuf. unfold bracketed, find, rfind.
  assert (Hshape :
    (pre ++ String open (body ++ String close EmptyString) ++ suf)%string
    = ((pre ++ String open body) ++ String close suf)%string).
  { simpl. rewrite !append_assoc. simpl. reflexivity. }
  assert (Hfind : find_from open
                    (pre ++ String open (body ++ String close EmptyString) ++ suf) 0
                  = Z.of_nat (String.length pre)).
  { simpl. rewrite (find_from_skips open pre _ 0 Hpre). lia. }
  assert (Hrfind : rfind_from close
                     (pre ++ String open (body ++ String close EmptyString) ++ suf) 0 (-1)
                   = Z.of_nat (String.length pre) + 1 + Z.of_nat (String.length body)).
  { rewrite Hshape, rfind_from_app. simpl.
    rewrite Ascii.eqb_refl, (rfind_from_lacks close suf _ _ Hsuf).
    rewrite length_append. simpl. lia. }
  rewrite Hfind, Hrfind.
  assert (Hge : (Z.of_nat (String.length pre) >=? 0) = true)
    by (rewrite Z.geb_leb; apply Z.leb_le; lia).
  assert (Hgt : (Z.of_nat (String.length pre) + 1 + Z.of_nat (String.length body) + 1
                 >? Z.of_nat (String.length pre)) = true)
    by (rewrite Z.gtb_ltb; apply Z.ltb_lt; lia).
  rewrite Hge, Hgt. simpl andb. cbv iota. f_equal.
  unfold slice. rewrite Nat2Z.id.
  replace (Z.to_nat (Z.of_nat (String.length pre) + 1 + Z.of_nat (String.length body) + 1
                     - Z.of_nat (String.length pre)))
    with (String.length (String open (body ++ String close EmptyString))).
  - rewrite substring_skip. apply substring_prefix.
  - simpl. rewrite length_append. simpl. lia.
Qed.

(** X13.  Prose around a JSON object is ignored when the text before the
    object has no opening brace and the text after it has no closing brace:
    the client returns what [json.loads] makes of the object. *)
Theorem extract_object_ignores_prose
    (json_loads : Json.loads_fn) (pre body suf : string) (v : Json.value) :
  PropsEnhancer.lacks "{" pre ->
  PropsEnhancer.lacks "}" suf ->
  json_loads (String "{" (body ++ String "}" EmptyString)) = Ok v ->
  extract_object json_loads
    (Some (pre ++ String "{" (body ++ String "}" EmptyString) ++ suf)) = Ok v.
Proof.
  intros Hpre Hsuf Hloads. unfold extract_object.
  rewrite (bracketed_in_prose "{" "}" pre body suf Hpre Hsuf), Hloads.
  destruct pre; reflexivity.
Qed.

End ExtractionExtra.

(** ** Further properties of the Completion Reporter *)

Module ReporterExtra.
Import Py AiDataCompletion.

Lemma count_with_bounds (column : Dictionary.Entry -> option string)
    (rows : list Dictionary.Entry) :
  0 <= count_with column rows <= Z.of_nat (List.length rows).
Proof.
  unfold count_with.
  pose proof (filter_length_le (fun e => truthy (column e)) rows). lia.
Qed.

Lemma completion_rate_percentage (n total : Z) :
  0 <= n <= total ->
  exists q, completion_rate n total = Ok q /\ PropsReporter.percentage q.
Proof.
  intros Hn. unfold completion_rate, truediv, PropsReporter.percentage.
  destruct (total >? 0) eqn:Hpos.
  - rewrite Z.gtb_ltb in Hpos. apply Z.ltb_lt in Hpos.
    destruct (total =? 0) eqn:Hz; [apply Z.eqb_eq in Hz; lia|].
    simpl. eexists. split; [reflexivity|].
    destruct total as [|t|t]; try lia.
    unfold Qle, Qmult, Qdiv, Qinv, inject_Z. simpl. split; nia.
  - exists 0%Q. split; [reflexivity|]. split; unfold Qle; simpl; lia.
Qed.

(** With tuples for rows, as a connection without the row factory hands
    them out, every count lies between 0 and the number of entries, every
    rate and the overall score between 0 and 100. *)
Lemma tuple_rows_statistics_bounds (rows : list Dictionary.Entry) :
  exists s,
    get_initial_statistics (mkConnection TupleRows rows) = Ok s
    /\ total_entries s = Z.of_nat (List.length rows)
    /\ 0 <= with_english s <= total_entries s
    /\ 0 <= with_vietnamese s <= total_entries s
    /\ 0 <= with_pinyin s <= total_entries s
    /\ 0 <= with_zhuyin s <= total_entries s
    /\ 0 <= with_hanviet s <= total_entries s
    /\ PropsReporter.percentage (english_rate s)
    /\ PropsReporter.percentage (vietnamese_rate s)
    /\ PropsReporter.percentage (pinyin_rate s)
    /\ PropsReporter.percentage (zhuyin_rate s)
    /\ PropsReporter.percentage (hanviet_rate s)
    /\ PropsReporter.percentage (QualityCheck.avg_completion s).
Proof.
  unfold get_initial_statistics.
  rewrite !CompletionFacts.fetch_count_tuple_rows. cbn [bind dictionary].
  destruct (completion_rate_percentage _ _ (count_with_bounds Dictionary.en_meaning rows))
    as (q1 & E1 & B1).
  destruct (completion_rate_percentage _ _ (count_with_bounds Dictionary.vi_meaning rows))
    as (q2 & E2 & B2).
  destruct (completion_rate_percentage _ _ (count_with_bounds Dictionary.pinyin rows))
    as (q3 & E3 & B3).
  destruct (completion_rate_percentage _ _ (count_with_bounds Dictionary.zhuyin rows))
    as (q4 & E4 & B4).
  destruct (completion_rate_percentage _ _ (count_with_bounds Dictionary.hanviet_reading rows))
    as (q5 & E5 & B5).
  rewrite E1, E2, E3, E4, E5. cbn [bind].
  eexists. split; [reflexivity|].
  cbn [total_entries with_english with_vietnamese with_pinyin with_zhuyin with_hanviet
       english_rate vietnamese_rate pinyin_rate zhuyin_rate hanviet_rate].
  split; [reflexivity|].
  repeat (split; [first [apply count_with_bounds | assumption]|]).
  unfold QualityCheck.avg_completion, PropsReporter.percentage in *.
  cbn [english_rate vietnamese_rate pinyin_rate zhuyin_rate hanviet_rate].
  split.
  - apply Qle_shift_div_l; [reflexivity | lra].
  - apply Qle_shift_div_r; [reflexivity | lra].
Qed.

(** X14.  On the object that [__init__] builds, [get_initial_statistics]
    raises [KeyError] whatever the table holds: its first statement reads
    [[0]] from a row that the row factory made a dict keyed by column names.
    It returns no statistics for any store. *)
Theorem get_initial_statistics_raises (rows : list Dictionary.Entry) :
  get_initial_statistics (__init__ rows) = Raise KeyError
  /\ forall s, get_initial_statistics (__init__ rows) <> Ok s.
Proof.
  assert (H : get_initial_statistics (__init__ rows) = Raise KeyError).
  { unfold get_initial_statistics.
    rewrite (CompletionFacts.fetch_count_dict_rows rows). reflexivity. }
  split; [exact H|]. intros s. rewrite H. discriminate.
Qed.

(** *** The quality check *)

Lemma filter_length_mono {A : Type} (p q : A -> bool) (l : list A) :
  (forall x, p x = true -> q x = true) ->
  (List.length (filter p l) <= List.length (filter q l))%nat.
Proof.
  intros Hpq. induction l as [|x r IH]; simpl; [lia|].
  destruct (p x) eqn:Hp.
  - rewrite (Hpq x Hp). simpl. lia.
  - destruct (q x); simpl; lia.
Qed.

Lemma indicator_sum (x : string) (l : list string) :
  NoDup l ->
  fold_right (fun s acc => (if string_dec x s then 1 else 0) + acc) 0 l
  = if in_dec string_dec x l then 1 else 0.
Proof.
  induction 1 as [|y r Hy Hr IH]; simpl; [reflexivity|].
  rewrite IH. destruct (string_dec x y) as [Heq|Hne].
  - subst y. destruct (in_dec string_dec x r) as [Hin|Hnin]; [contradiction|].
    destruct (string_dec x x); [reflexivity | congruence].
  - destruct (in_dec string_dec x r); destruct (string_dec y x); try congruence; reflexivity.
Qed.

Lemma count_occ_sum (keys l : list string) :
  NoDup keys -> incl l keys ->
  fold_right (fun s acc => Z.of_nat (count_occ string_dec l s) + acc) 0 keys
  = Z.of_nat (List.length l).
Proof.
  intros Hnd. induction l as [|x r IH]; intros Hincl.
  - clear Hnd Hincl.
    induction keys as [|k ks IHk]; cbn [fold_right];
      [reflexivity | rewrite IHk; reflexivity].
  - assert (Hr : incl r keys) by (intros y Hy; apply Hincl; right; exact Hy).
    specialize (IH Hr).
    assert (Hsplit : forall ks,
      fold_right (fun s acc => Z.of_nat (count_occ string_dec (x :: r) s) + acc) 0 ks
      = fold_right (fun s acc => Z.of_nat (count_occ string_dec r s) + acc) 0 ks
        + fold_right (fun s acc => (if string_dec x s then 1 else 0) + acc) 0 ks).
    { induction ks as [|k ks IHks]; [reflexivity|].
      cbn [fold_right]. rewrite IHks. simpl count_occ.
      destruct (string_dec x k); [rewrite Nat2Z.inj_succ|]; lia. }
    rewrite Hsplit, IH, (indicator_sum x keys Hnd).
    destruct (in_dec string_dec x keys) as [Hyes|Hnot].
    + simpl List.length. lia.
    + exfalso. apply Hnot. apply Hincl. left. reflexivity.
Qed.

Lemma total_count_map (f : string -> Z) (keys : list string) :
  PropsReporter.total_count (map (fun s => (s, f s)) keys)
  = fold_right (fun s acc => f s + acc) 0 keys.
Proof.
  unfold PropsReporter.total_count.
  induction keys as [|k ks IH]; simpl; [reflexivity | rewrite IH; reflexivity].
Qed.

(** With tuples for rows, the entries without any pronunciation and the
    entries without any translation are among those missing critical
    information, which are among all entries; and the counts by source add
    up to the number of entries that have a source. *)
Lemma tuple_rows_quality_counts (rows : list Dictionary.Entry) :
  exists c groups,
    QualityCheck.step4_quality_check (mkConnection TupleRows rows) = Ok c
    /\ QualityCheck.source_counts c = QualityCheck.BySource groups
    /\ 0 <= QualityCheck.no_pronunciation c <= QualityCheck.missing_critical c
    /\ 0 <= QualityCheck.no_translation c <= QualityCheck.missing_critical c
    /\ QualityCheck.missing_critical c <= Z.of_nat (List.length rows)
    /\ PropsReporter.total_count groups
       = Z.of_nat (List.length (QualityCheck.sources rows))
    /\ Forall (fun kv => 1 <= snd kv) groups.
Proof.
  unfold QualityCheck.step4_quality_check.
  rewrite !CompletionFacts.fetch_count_tuple_rows. cbn [bind dictionary].
  eexists. exists (QualityCheck.group_by_source rows).
  split; [reflexivity|]. split; [reflexivity|].
  unfold QualityCheck.count.
  cbn [QualityCheck.no_pronunciation QualityCheck.missing_critical
       QualityCheck.no_translation].
  split; [split; [lia|]|].
  - apply inj_le. apply filter_length_mono. intros e H.
    apply andb_true_iff in H. destruct H as [H _]. rewrite H. reflexivity.
  - split; [split; [lia|]|].
    + apply inj_le. apply filter_length_mono. intros e H.
      apply andb_true_iff in H. destruct H as [H _]. rewrite H. apply orb_true_r.
    + split; [apply inj_le; apply filter_length_le|].
      split.
      * unfold QualityCheck.group_by_source.
        rewrite (total_count_map
                   (fun s => Z.of_nat (count_occ string_dec (QualityCheck.sources rows) s))).
        apply count_occ_sum; [apply NoDup_nodup|].
        intros x Hx. apply nodup_In. exact Hx.
      * unfold QualityCheck.group_by_source. apply Forall_map.
        apply Forall_forall. intros s Hs. cbn [snd].
        apply nodup_In in Hs.
        apply (count_occ_In string_dec) in Hs. lia.
Qed.

(** X15.  On the object that [__init__] builds, [step4_quality_check]
    raises [KeyError] whatever the table holds, for the same reason: the
    first count is read with [[0]] from a dict row.  No count is returned
    for any store. *)
Theorem step4_quality_check_raises (rows : list Dictionary.Entry) :
  QualityCheck.step4_quality_check (__init__ rows) = Raise KeyError
  /\ forall c, QualityCheck.step4_quality_check (__init__ rows) <> Ok c.
Proof.
  assert (H : QualityCheck.step4_quality_check (__init__ rows) = Raise KeyError).
  { unfold QualityCheck.step4_quality_check.
    rewrite (CompletionFacts.fetch_count_dict_rows rows). reflexivity. }
  split; [exact H|]. intros c. rewrite H. discriminate.
Qed.

End ReporterExtra.

(** ** Further properties of the tone-mark transform *)

Module PinyinExtra.
Import Py PinyinUtils.

Lemma split_chars_of_spaces (cs : list string) :
  forallb isspace cs = true -> split_chars cs None = [].
Proof.
  induction cs as [|c r IH]; simpl; [reflexivity|].
  intros H. apply andb_true_iff in H. destruct H as [Hc Hr].
  rewrite Hc. apply IH. exact Hr.
Qed.

(** X16.  A string that holds nothing but whitespace is turned into the
    empty string: the transform splits on whitespace and joins the words
    with single spaces, so the whitespace of its argument is not kept. *)
Theorem convert_whitespace_only (pinyin : string) :
  strip_is_empty pinyin = true ->
  convert_pinyin_tone_numbers pinyin = EmptyString.
Proof.
  intros Hblank. unfold convert_pinyin_tone_numbers.
  destruct pinyin as [|c r]; [reflexivity|].
  cbn [str_truthy negb]. unfold split.
  unfold strip_is_empty in Hblank.
  rewrite (split_chars_of_spaces _ Hblank). reflexivity.
Qed.

End PinyinExtra.

(** ** Schema evolution and the statistics of the Reconciler *)

Module SchemaExtra.
Import Py IntegrateCedictSchema.

Lemma same_column_refl (c : string) : same_column c c = true.
Proof. unfold same_column. apply String.eqb_refl. Qed.

Lemma exact_is_same (c : string) (columns : list string) :
  existsb (String.eqb c) columns = true -> existsb (same_column c) columns = true.
Proof.
  rewrite !existsb_exists. intros (x & Hx & Heq).
  apply String.eqb_eq in Heq. subst x. exists c. split; [exact Hx | apply same_column_refl].
Qed.

Lemma exact_is_same_all (columns : list string) :
  forall c, existsb (String.eqb c) columns = true -> existsb (same_column c) columns = true.
Proof. intros c. apply exact_is_same. Qed.

(** One step of the loop only appends, and only its own column. *)
Lemma add_if_missing_appends (existing columns : list string) (c : string) :
  exists added,
    add_if_missing existing columns c = (columns ++ added)%list
    /\ (added = [] \/ added = [c])
    /\ (existsb (String.eqb c) existing = false ->
        existsb (same_column c) (add_if_missing existing columns c) = true).
Proof.
  unfold add_if_missing, add_column.
  destruct (existsb (String.eqb c) existing) eqn:Hexact; simpl.
  - exists []. rewrite app_nil_r. split; [reflexivity|]. split; [auto | discriminate].
  - destruct (existsb (same_column c) columns) eqn:Hsame.
    + exists []. rewrite app_nil_r. auto.
    + exists [c]. split; [reflexivity|]. split; [auto|].
      intros _. rewrite existsb_app. simpl. rewrite same_column_refl.
      rewrite orb_true_r. reflexivity.
Qed.

Lemma add_loop (existing : list string) (required : list string) :
  forall columns : list string,
    (forall c, existsb (String.eqb c) existing = true -> existsb (same_column c) columns = true) ->
    exists added,
      fold_left (add_if_missing existing) required columns = (columns ++ added)%list
      /\ incl added required
      /\ forall c, In c required ->
           existsb (same_column c) (fold_left (add_if_missing existing) required columns) = true.
Proof.
  induction required as [|r rest IH]; intros columns Hex; simpl.
  - exists []. rewrite app_nil_r. split; [reflexivity|]. split; [apply incl_refl | intros c []].
  - destruct (add_if_missing_appends existing columns r) as (a1 & Hstep & Ha1 & Hr).
    rewrite Hstep.
    assert (Hex' : forall c, existsb (String.eqb c) existing = true ->
                             existsb (same_column c) (columns ++ a1) = true).
    { intros c Hc. rewrite existsb_app, (Hex c Hc). reflexivity. }
    destruct (IH (columns ++ a1)%list Hex') as (a2 & Hrest & Hincl & Hall).
    exists (a1 ++ a2)%list. split; [rewrite Hrest, app_assoc; reflexivity|].
    split.
    + intros x Hx. apply in_app_or in Hx. destruct Hx as [Hx|Hx].
      * destruct Ha1 as [->| ->]; [destruct Hx | destruct Hx as [<-|[]]; left; reflexivity].
      * right. apply Hincl. exact Hx.
    + intros c [<-|Hc]; [|apply Hall; exact Hc].
      rewrite Hrest, existsb_app.
      destruct (existsb (String.eqb r) existing) eqn:Hexact.
      * rewrite (Hex' r Hexact). reflexivity.
      * rewrite <- Hstep, (Hr eq_refl). reflexivity.
Qed.

Lemma add_loop_nothing (existing : list string) (required : list string) :
  forall columns : list string,
    (forall c, In c required -> existsb (same_column c) columns = true) ->
    fold_left (add_if_missing existing) required columns = columns.
Proof.
  induction required as [|r rest IH]; intros columns Hall; simpl; [reflexivity|].
  assert (Hstep : add_if_missing existing columns r = columns).
  { unfold add_if_missing, add_column.
    destruct (negb (existsb (String.eqb r) existing)); [|reflexivity].
    rewrite (Hall r (or_introl eq_refl)). reflexivity. }
  rewrite Hstep. apply IH. intros c Hc. apply Hall. right. exact Hc.
Qed.

(** X17.  The migration is additive and idempotent: it keeps the columns of
    the table in place and appends only required columns; afterwards the
    table has every required column, up to the case of the name; and a
    second run changes nothing. *)
Theorem add_missing_database_columns_idempotent (columns : list string) :
  (exists added,
     add_missing_database_columns columns = (columns ++ added)%list
     /\ incl added required_columns)
  /\ (forall c, In c required_columns ->
        existsb (same_column c) (add_missing_database_columns columns) = true)
  /\ add_missing_database_columns (add_missing_database_columns columns)
     = add_missing_database_columns columns.
Proof.
  unfold add_missing_database_columns.
  destruct (add_loop columns required_columns columns (exact_is_same_all columns))
    as (added & Hrun & Hincl & Hall).
  split; [exists added; auto|]. split; [exact Hall|].
  apply add_loop_nothing. exact Hall.
Qed.

End SchemaExtra.

(** ** merge_zhuyin.py *)

Module ZhuyinFacts.
Import Py MergeZhuyin.

Lemma set_zhuyin (z : string) (r : Dictionary.Entry) :
  Dictionary.set "zhuyin" z r = Some (ImportVietnameseData.with_zhuyin (Some z) r).
Proof. destruct r. reflexivity. Qed.

Lemma update_zhuyin_rows (z : string) (i : Z) (rows : list Dictionary.Entry) :
  Dictionary.update [("zhuyin", z)] i rows
  = Ok (map (fun r => if Dictionary.id r =? i
                      then ImportVietnameseData.with_zhuyin (Some z) r else r) rows).
Proof.
  unfold Dictionary.update. cbn [forallb fst snd].
  rewrite set_zhuyin. cbn [andb]. f_equal. apply map_ext. intros r.
  cbn [Dictionary.set_all]. rewrite set_zhuyin. reflexivity.
Qed.

Lemma zhuyin_map_truthy (zrows : list Row) (w z : string) :
  dict_get w (zhuyin_map zrows) = Some z -> str_truthy z = true.
Proof.
  induction zrows as [|r rest IH]; simpl; [discriminate|].
  destruct (zhuyin r) as [v|] eqn:Hz; simpl; [|exact IH].
  destruct (str_truthy v) eqn:Hv; [|exact IH].
  simpl. destruct (dict_get w (zhuyin_map rest)) as [z'|] eqn:Hrest.
  - intros H. inversion H. subst z'. apply IH. reflexivity.
  - destruct (String.eqb w (word r)); [|discriminate].
    intros H. inversion H. subst v. exact Hv.
Qed.

Lemma same_but_zhuyin_set (z : option string) (r : Dictionary.Entry) :
  PropsEnhancer.same_but_zhuyin r (ImportVietnameseData.with_zhuyin z r).
Proof. destruct r. reflexivity. Qed.

Lemma same_but_zhuyin_all_refl (rows : list Dictionary.Entry) :
  Forall2 PropsEnhancer.same_but_zhuyin rows rows.
Proof. induction rows; constructor; [reflexivity | assumption]. Qed.

Lemma same_but_zhuyin_trans (a b c : list Dictionary.Entry) :
  Forall2 PropsEnhancer.same_but_zhuyin a b ->
  Forall2 PropsEnhancer.same_but_zhuyin b c ->
  Forall2 PropsEnhancer.same_but_zhuyin a c.
Proof.
  intros Hab. revert c. induction Hab as [|x y a b Hxy Hab IH]; intros c Hbc.
  - inversion Hbc. constructor.
  - inversion Hbc as [|y' z b' c' Hyz Hbc']. subst.
    constructor; [|apply IH; exact Hbc'].
    unfold PropsEnhancer.same_but_zhuyin in *. congruence.
Qed.

Section Merge.
Variable zrows : list Row.
Let zmap := zhuyin_map zrows.

(** One iteration, by cases on the side table. *)
Lemma merge_one_step (rows : list Dictionary.Entry) (n : Z) (s : Dictionary.Entry) :
  merge_one zmap (Ok (rows, n)) s
  = match dict_get (Dictionary.word s) zmap with
    | Some z =>
        Ok (map (fun r => if Dictionary.id r =? Dictionary.id s
                          then ImportVietnameseData.with_zhuyin (Some z) r else r) rows,
            n + 1)
    | None => Ok (rows, n)
    end.
Proof.
  unfold merge_one. cbn [bind].
  destruct (dict_get (Dictionary.word s) zmap) as [z|] eqn:Hget; [|reflexivity].
  rewrite (zhuyin_map_truthy zrows _ _ Hget), update_zhuyin_rows. reflexivity.
Qed.

Lemma merge_loop_frame (snap : list Dictionary.Entry) :
  forall (cur : list Dictionary.Entry) (n : Z),
  exists cur',
    fold_left (merge_one zmap) snap (Ok (cur, n))
    = Ok (cur', n + Z.of_nat (List.length (filter (PropsImport.in_map zmap) snap)))
    /\ Forall2 PropsEnhancer.same_but_zhuyin cur cur'.
Proof.
  induction snap as [|s rest IH]; intros cur n.
  - exists cur. simpl. rewrite Z.add_0_r.
    split; [reflexivity | apply same_but_zhuyin_all_refl].
  - cbn [fold_left filter]. rewrite merge_one_step. unfold PropsImport.in_map at 1.
    destruct (dict_get (Dictionary.word s) zmap) as [z|].
    + destruct (IH (map (fun r => if Dictionary.id r =? Dictionary.id s
                                  then ImportVietnameseData.with_zhuyin (Some z) r else r) cur)
                   (n + 1)) as (cur' & Hrun & Hsame).
      exists cur'. split.
      * rewrite Hrun. f_equal. f_equal. cbn [List.length]. lia.
      * eapply same_but_zhuyin_trans; [|exact Hsame].
        clear. induction cur as [|r cur IHc]; simpl; constructor; [|exact IHc].
        destruct (Dictionary.id r =? Dictionary.id s);
          [apply same_but_zhuyin_set | reflexivity].
    + apply IH.
Qed.

Lemma merged_id (r : Dictionary.Entry) :
  Dictionary.id (PropsImport.merged zmap r) = Dictionary.id r.
Proof.
  unfold PropsImport.merged.
  destruct (dict_get (Dictionary.word r) zmap); [destruct r|]; reflexivity.
Qed.

Lemma merged_word (r : Dictionary.Entry) :
  Dictionary.word (PropsImport.merged zmap r) = Dictionary.word r.
Proof.
  unfold PropsImport.merged.
  destruct (dict_get (Dictionary.word r) zmap); [destruct r|]; reflexivity.
Qed.

Lemma merged_twice (r : Dictionary.Entry) :
  PropsImport.merged zmap (PropsImport.merged zmap r) = PropsImport.merged zmap r.
Proof.
  unfold PropsImport.merged at 1. rewrite merged_word.
  unfold PropsImport.merged.
  destruct (dict_get (Dictionary.word r) zmap); [destruct r|]; reflexivity.
Qed.

Lemma in_map_merged (r : Dictionary.Entry) :
  PropsImport.in_map zmap (PropsImport.merged zmap r) = PropsImport.in_map zmap r.
Proof. unfold PropsImport.in_map. rewrite merged_word. reflexivity. Qed.

Lemma count_merged (rows : list Dictionary.Entry) :
  List.length (filter (PropsImport.in_map zmap) (map (PropsImport.merged zmap) rows))
  = List.length (filter (PropsImport.in_map zmap) rows).
Proof.
  induction rows as [|r rows IH]; [reflexivity|].
  cbn [map filter]. rewrite in_map_merged.
  destruct (PropsImport.in_map zmap r); cbn [List.length]; rewrite IH; reflexivity.
Qed.

Lemma update_other_ids (f : Dictionary.Entry -> Dictionary.Entry) (i : Z)
    (l : list Dictionary.Entry) :
  ~ In i (map Dictionary.id l) ->
  map (fun r => if Dictionary.id r =? i then f r else r) l = l.
Proof.
  induction l as [|r l IH]; simpl; [reflexivity|].
  intros Hnot. destruct (Dictionary.id r =? i) eqn:Hid.
  - apply Z.eqb_eq in Hid. exfalso. apply Hnot. left. exact Hid.
  - rewrite IH; [reflexivity|]. intros H. apply Hnot. right. exact H.
Qed.

Lemma merge_loop_values (snap : list Dictionary.Entry) :
  forall (done : list Dictionary.Entry) (n : Z),
    NoDup (map Dictionary.id (done ++ snap)) ->
    fold_left (merge_one zmap) snap (Ok ((map (PropsImport.merged zmap) done ++ snap)%list, n))
    = Ok (map (PropsImport.merged zmap) (done ++ snap),
          n + Z.of_nat (List.length (filter (PropsImport.in_map zmap) snap))).
Proof.
  induction snap as [|s rest IH]; intros done n Hnd.
  - simpl. rewrite !app_nil_r, Z.add_0_r. reflexivity.
  - cbn [fold_left filter]. rewrite merge_one_step.
    assert (Hnd' : NoDup (map Dictionary.id ((done ++ [s]) ++ rest)))
      by (rewrite <- app_assoc; exact Hnd).
    assert (Hsplit : NoDup (map Dictionary.id done ++ Dictionary.id s :: map Dictionary.id rest))
      by (rewrite map_app in Hnd; exact Hnd).
    assert (Hdone : ~ In (Dictionary.id s) (map Dictionary.id (map (PropsImport.merged zmap) done))).
    { rewrite map_map. rewrite (map_ext _ Dictionary.id merged_id).
      intros Hin. apply NoDup_remove_2 in Hsplit. apply Hsplit.
      apply in_or_app. left. exact Hin. }
    assert (Hrest : ~ In (Dictionary.id s) (map Dictionary.id rest)).
    { intros Hin. apply NoDup_remove_2 in Hsplit. apply Hsplit.
      apply in_or_app. right. exact Hin. }
    specialize (IH (done ++ [s])%list).
    rewrite <- app_assoc in IH. cbn [app] in IH.
    unfold PropsImport.in_map at 1.
    destruct (dict_get (Dictionary.word s) zmap) as [z|] eqn:Hget.
    + rewrite map_app. cbn [map]. rewrite Z.eqb_refl.
      rewrite (update_other_ids _ _ _ Hdone), (update_other_ids _ _ _ Hrest).
      assert (Hs : ImportVietnameseData.with_zhuyin (Some z) s = PropsImport.merged zmap s)
        by (unfold PropsImport.merged; rewrite Hget; reflexivity).
      rewrite Hs.
      replace (map (PropsImport.merged zmap) done ++ PropsImport.merged zmap s :: rest)%list
        with (map (PropsImport.merged zmap) (done ++ [s]) ++ rest)%list
        by (rewrite map_app, <- app_assoc; reflexivity).
      rewrite (IH (n + 1)); [|rewrite <- app_assoc in Hnd'; exact Hnd'].
      f_equal. f_equal. cbn [List.length]. lia.
    + assert (Hs : s = PropsImport.merged zmap s)
        by (unfold PropsImport.merged; rewrite Hget; reflexivity).
      replace (map (PropsImport.merged zmap) done ++ s :: rest)%list
        with (map (PropsImport.merged zmap) (done ++ [s]) ++ rest)%list
        by (rewrite map_app, <- app_assoc; cbn [map app]; rewrite <- Hs; reflexivity).
      apply IH. rewrite <- app_assoc in Hnd'. exact Hnd'.
Qed.

End Merge.

(** X18.  The script ends without an error; it keeps every row in place
    and changes no column but zhuyin; its count is the number of entries
    whose word has a zhuyin in the side table. *)
Theorem merge_zhuyin_frame (zrows : list Row) (rows : list Dictionary.Entry) :
  exists rows',
    merge_zhuyin zrows rows
    = Ok (rows', Z.of_nat (List.length (filter (PropsImport.in_map (zhuyin_map zrows)) rows)))
    /\ Forall2 PropsEnhancer.same_but_zhuyin rows rows'.
Proof.
  unfold merge_zhuyin.
  destruct (merge_loop_frame zrows rows rows 0) as (rows' & Hrun & Hsame).
  exists rows'. split; [rewrite Hrun; reflexivity | exact Hsame].
Qed.

(** X19.  When the ids of the table are distinct, the script sets the zhuyin
    of every entry whose word is in the side table to the latest zhuyin the
    side table has for that word, whatever zhuyin the entry had, and leaves
    the other entries alone; running it again gives the same table. *)
Theorem merge_zhuyin_overwrites (zrows : list Row) (rows : list Dictionary.Entry) :
  NoDup (map Dictionary.id rows) ->
  let zmap := zhuyin_map zrows in
  let n := Z.of_nat (List.length (filter (PropsImport.in_map zmap) rows)) in
  merge_zhuyin zrows rows = Ok (map (PropsImport.merged zmap) rows, n)
  /\ merge_zhuyin zrows (map (PropsImport.merged zmap) rows)
     = Ok (map (PropsImport.merged zmap) rows, n).
Proof.
  intros Hnd zmap n. subst zmap n.
  assert (Hrun : forall l, NoDup (map Dictionary.id l) ->
            merge_zhuyin zrows l
            = Ok (map (PropsImport.merged (zhuyin_map zrows)) l,
                  Z.of_nat (List.length
                              (filter (PropsImport.in_map (zhuyin_map zrows)) l)))).
  { intros l Hl. unfold merge_zhuyin.
    exact (merge_loop_values zrows l [] 0 Hl). }
  split; [apply Hrun; exact Hnd|].
  rewrite Hrun.
  - rewrite map_map, (map_ext _ _ (merged_twice zrows)), count_merged. reflexivity.
  - rewrite map_map, (map_ext _ Dictionary.id (merged_id zrows)). exact Hnd.
Qed.

End ZhuyinFacts.

(** ** import_vietnamese_data.py: import_existing_databases *)

Module ImportFacts.
Import ImportVietnameseData.

Lemma zhuyin_loop_rows (data : list (string * option string)) :
  forall rows, fold_left update_zhuyin data rows
               = map (fun r => fold_left PropsImport.zhuyin_step data r) rows.
Proof.
  induction data as [|[w z] data IH]; intros rows; simpl.
  - symmetry. apply map_id.
  - rewrite IH, map_map. reflexivity.
Qed.

Lemma hanviet_loop_rows (data : list (string * option string)) :
  forall rows, fold_left update_hanviet data rows
               = map (fun r => fold_left PropsImport.hanviet_step data r) rows.
Proof.
  induction data as [|[w z] data IH]; intros rows; simpl.
  - symmetry. apply map_id.
  - rewrite IH, map_map. reflexivity.
Qed.

Lemma import_rows (zhuyin_data hanviet_data : list (string * option string))
    (rows : list Dictionary.Entry) :
  import_existing_databases zhuyin_data hanviet_data rows
  = map (fun r => fold_left PropsImport.hanviet_step hanviet_data (fold_left PropsImport.zhuyin_step zhuyin_data r))
        rows.
Proof.
  unfold import_existing_databases.
  rewrite zhuyin_loop_rows, hanviet_loop_rows, map_map. reflexivity.
Qed.

(** The loop over the zhuyin rows, on one row. *)
Lemma zhuyin_loop_row (data : list (string * option string)) :
  forall r,
    let r' := fold_left PropsImport.zhuyin_step data r in
    with_zhuyin None r' = with_zhuyin None r
    /\ (Dictionary.zhuyin r <> None -> r' = r)
    /\ (Dictionary.zhuyin r = None ->
        Dictionary.zhuyin r' = PropsImport.first_reading (Dictionary.word r) data).
Proof.
  induction data as [|[w z] data IH]; intros r; cbn [fold_left].
  - repeat split; try reflexivity. intros H. rewrite H. reflexivity.
  - destruct (IH (PropsImport.zhuyin_step r (w, z))) as (Hframe & Hkeep & Hfill).
    unfold PropsImport.zhuyin_step in *. cbn [fst snd] in *.
    unfold PropsImport.first_reading. cbn [List.find fst snd].
    destruct r as [i wd tr si pi zh vi en po hs to fr hv ca ua cd so].
    cbn [Dictionary.word Dictionary.zhuyin] in *.
    rewrite (String.eqb_sym w wd).
    destruct (String.eqb wd w) eqn:Hw; cbn [andb] in *.
    + destruct zh as [old|]; cbn [is_null] in *.
      * repeat split; [exact Hframe| |discriminate].
        intros H. apply Hkeep. exact H.
      * cbn [with_zhuyin Dictionary.zhuyin Dictionary.word] in *.
        destruct z as [v|]; cbn [is_null negb].
        -- repeat split; [exact Hframe|congruence|].
           intros _. rewrite Hkeep; [reflexivity|discriminate].
        -- repeat split; [exact Hframe|congruence|].
           intros _. rewrite Hfill; reflexivity.
    + repeat split; [exact Hframe|exact Hkeep|exact Hfill].
Qed.

Lemma hanviet_loop_row (data : list (string * option string)) :
  forall r,
    let r' := fold_left PropsImport.hanviet_step data r in
    with_hanviet None r' = with_hanviet None r
    /\ (Dictionary.hanviet_reading r <> None -> r' = r)
    /\ (Dictionary.hanviet_reading r = None ->
        Dictionary.hanviet_reading r'
        = PropsImport.first_reading (Dictionary.word r) data).
Proof.
  induction data as [|[w z] data IH]; intros r; cbn [fold_left].
  - repeat split; try reflexivity. intros H. rewrite H. reflexivity.
  - destruct (IH (PropsImport.hanviet_step r (w, z))) as (Hframe & Hkeep & Hfill).
    unfold PropsImport.hanviet_step in *. cbn [fst snd] in *.
    unfold PropsImport.first_reading. cbn [List.find fst snd].
    destruct r as [i wd tr si pi zh vi en po hs to fr hv ca ua cd so].
    cbn [Dictionary.word Dictionary.hanviet_reading] in *.
    rewrite (String.eqb_sym w wd).
    destruct (String.eqb wd w) eqn:Hw; cbn [andb] in *.
    + destruct hv as [old|]; cbn [is_null] in *.
      * repeat split; [exact Hframe| |discriminate].
        intros H. apply Hkeep. exact H.
      * cbn [with_hanviet Dictionary.hanviet_reading Dictionary.word] in *.
        destruct z as [v|]; cbn [is_null negb].
        -- repeat split; [exact Hframe|congruence|].
           intros _. rewrite Hkeep; [reflexivity|discriminate].
        -- repeat split; [exact Hframe|congruence|].
           intros _. rewrite Hfill; reflexivity.
    + repeat split; [exact Hframe|exact Hkeep|exact Hfill].
Qed.

Lemma Forall2_map_right {A : Type} (P : A -> A -> Prop) (g : A -> A) (l : list A) :
  (forall x, P x (g x)) -> Forall2 P l (map g l).
Proof. intros H. induction l; simpl; constructor; [apply H | assumption]. Qed.

Lemma with_zhuyin_fields (v : option string) (r : Dictionary.Entry) :
  Dictionary.word (with_zhuyin v r) = Dictionary.word r
  /\ Dictionary.hanviet_reading (with_zhuyin v r) = Dictionary.hanviet_reading r
  /\ Dictionary.zhuyin (with_zhuyin v r) = v.
Proof. destruct r. repeat split. Qed.

Lemma with_hanviet_fields (v : option string) (r : Dictionary.Entry) :
  Dictionary.word (with_hanviet v r) = Dictionary.word r
  /\ Dictionary.zhuyin (with_hanviet v r) = Dictionary.zhuyin r
  /\ Dictionary.hanviet_reading (with_hanviet v r) = v.
Proof. destruct r. repeat split. Qed.

Lemma with_swap (r : Dictionary.Entry) :
  with_zhuyin None (with_hanviet None r) = with_hanviet None (with_zhuyin None r).
Proof. destruct r. reflexivity. Qed.

(** What both loops do to one row. *)
Lemma import_row (zhuyin_data hanviet_data : list (string * option string))
    (r : Dictionary.Entry) :
  let r' := fold_left PropsImport.hanviet_step hanviet_data (fold_left PropsImport.zhuyin_step zhuyin_data r) in
  PropsImport.filled r r'
  /\ (Dictionary.zhuyin r = None ->
      Dictionary.zhuyin r' = PropsImport.first_reading (Dictionary.word r) zhuyin_data)
  /\ (Dictionary.hanviet_reading r = None ->
      Dictionary.hanviet_reading r'
      = PropsImport.first_reading (Dictionary.word r) hanviet_data).
Proof.
  intros r'. subst r'.
  destruct (zhuyin_loop_row zhuyin_data r) as (Hz1 & Hz2 & Hz3).
  destruct (hanviet_loop_row hanviet_data (fold_left PropsImport.zhuyin_step zhuyin_data r))
    as (Hh1 & Hh2 & Hh3).
  set (rz := fold_left PropsImport.zhuyin_step zhuyin_data r) in *.
  set (rh := fold_left PropsImport.hanviet_step hanviet_data rz) in *.
  assert (Hword : Dictionary.word rz = Dictionary.word r).
  { pose proof (f_equal Dictionary.word Hz1) as H.
    rewrite (proj1 (with_zhuyin_fields None rz)),
            (proj1 (with_zhuyin_fields None r)) in H. exact H. }
  assert (Hhv : Dictionary.hanviet_reading rz = Dictionary.hanviet_reading r).
  { pose proof (f_equal Dictionary.hanviet_reading Hz1) as H.
    rewrite (proj1 (proj2 (with_zhuyin_fields None rz))),
            (proj1 (proj2 (with_zhuyin_fields None r))) in H. exact H. }
  assert (Hzh : Dictionary.zhuyin rh = Dictionary.zhuyin rz).
  { pose proof (f_equal Dictionary.zhuyin Hh1) as H.
    rewrite (proj1 (proj2 (with_hanviet_fields None rh))),
            (proj1 (proj2 (with_hanviet_fields None rz))) in H. exact H. }
  split; [|split].
  - unfold PropsImport.filled. split; [|split].
    + rewrite Hh1, !with_swap, Hz1. reflexivity.
    + intros H. rewrite Hzh, (Hz2 H). reflexivity.
    + intros H. rewrite Hh2; [exact Hhv | rewrite Hhv; exact H].
  - intros H. rewrite Hzh. apply Hz3. exact H.
  - intros H. rewrite Hh3, Hword; [reflexivity | rewrite Hhv; exact H].
Qed.

(** X20.  The import keeps every row in place and changes nothing in a row
    but a zhuyin or a hanviet_reading that is NULL: a reading that is there,
    the empty string included, is never replaced. *)
Theorem import_existing_databases_only_fills
    (zhuyin_data hanviet_data : list (string * option string))
    (rows : list Dictionary.Entry) :
  Forall2 PropsImport.filled rows
          (import_existing_databases zhuyin_data hanviet_data rows).
Proof.
  rewrite import_rows. apply Forall2_map_right. intros r.
  exact (proj1 (import_row zhuyin_data hanviet_data r)).
Qed.

(** X21.  A zhuyin that is NULL becomes the first zhuyin that is not NULL
    among the rows of the side table for the word of the entry (and stays
    NULL when there is none); likewise for hanviet_reading. *)
Theorem import_existing_databases_first_reading
    (zhuyin_data hanviet_data : list (string * option string))
    (rows : list Dictionary.Entry) :
  Forall2 (fun r r' =>
             (Dictionary.zhuyin r = None ->
              Dictionary.zhuyin r'
              = PropsImport.first_reading (Dictionary.word r) zhuyin_data)
             /\ (Dictionary.hanviet_reading r = None ->
                 Dictionary.hanviet_reading r'
                 = PropsImport.first_reading (Dictionary.word r) hanviet_data))
          rows (import_existing_databases zhuyin_data hanviet_data rows).
Proof.
  rewrite import_rows. apply Forall2_map_right. intros r.
  exact (proj2 (import_row zhuyin_data hanviet_data r)).
Qed.

End ImportFacts.

(** ** download_cedict.py: create_cedict_database *)

Module CedictImportFacts.
Import DownloadCedict.

Lemma key_eqb_eq (a b : string * string * string) : key_eqb a b = true <-> a = b.
Proof.
  destruct a as [[a1 a2] a3], b as [[b1 b2] b3]. unfold key_eqb.
  rewrite !Bool.andb_true_iff, !String.eqb_eq. split.
  - intros [[-> ->] ->]. reflexivity.
  - intros H. inversion H. auto.
Qed.

Lemma held_In (k : string * string * string) (rows : list Cedict.Entry) :
  existsb (fun r => key_eqb (key r) k) rows = true <-> In k (map key rows).
Proof.
  rewrite existsb_exists, in_map_iff. split.
  - intros (r & Hin & Heq). exists r. split; [apply key_eqb_eq; exact Heq | exact Hin].
  - intros (r & Heq & Hin). exists r. split; [exact Hin | apply key_eqb_eq; exact Heq].
Qed.

Section Importer.
Variable dumps_definitions : list string -> string.
Variable current_timestamp : string.

Let insert := insert_or_ignore dumps_definitions current_timestamp.

Lemma insert_loop (entries : list Parsed) :
  forall (rows : list Cedict.Entry) (i s : Z),
  exists new,
    fold_left insert entries (rows, i, s)
    = ((rows ++ new)%list, i + Z.of_nat (List.length new),
       s + Z.of_nat (List.length entries) - Z.of_nat (List.length new))
    /\ (NoDup (map key rows) -> NoDup (map key (rows ++ new)))
    /\ (forall e, In e entries -> In (parsed_key e) (map key (rows ++ new)))
    /\ (forall c, In c new -> In (key c) (map parsed_key entries)
                              /\ ~ In (key c) (map key rows)).
Proof.
  induction entries as [|e entries IH]; intros rows i s.
  - exists []. cbn [fold_left List.length]. rewrite app_nil_r.
    split; [f_equal; [f_equal|]; lia|].
    split; [auto|]. split; intros x Hx; destruct Hx.
  - cbn [fold_left]. unfold insert at 2, insert_or_ignore.
    destruct (existsb (fun r => key_eqb (key r) (parsed_key e)) rows) eqn:Hheld.
    + destruct (IH rows i (s + 1)) as (new & Hrun & Hnd & Hall & Hnew).
      exists new. fold insert. rewrite Hrun. split; [|split; [|split]].
      * f_equal. cbn [List.length]. lia.
      * exact Hnd.
      * intros e' [<-|Hin]; [|apply Hall; exact Hin].
        rewrite map_app. apply in_or_app. left. apply held_In. exact Hheld.
      * intros c Hc. destruct (Hnew c Hc) as [H1 H2].
        split; [right; exact H1 | exact H2].
    + set (c0 := Cedict.mkEntry (next_id rows) (traditional e) (simplified e) (pinyin e)
                   (english e) (dumps_definitions (definitions e)) current_timestamp).
      assert (Hkey : key c0 = parsed_key e) by reflexivity.
      assert (Hfresh : ~ In (parsed_key e) (map key rows)).
      { intros Hin. apply held_In in Hin. congruence. }
      destruct (IH (rows ++ [c0])%list (i + 1) s) as (new & Hrun & Hnd & Hall & Hnew).
      exists (c0 :: new). fold insert. rewrite Hrun.
      rewrite <- app_assoc. cbn [app]. split; [|split; [|split]].
      * f_equal; [f_equal|]; cbn [List.length]; lia.
      * intros Hrows. rewrite <- app_assoc in Hnd. cbn [app] in Hnd. apply Hnd.
        rewrite map_app. cbn [map]. rewrite Hkey.
        apply NoDup_Add with (a := parsed_key e) (l := map key rows).
        -- rewrite <- (app_nil_r (map key rows)) at 1. apply Add_app.
        -- split; [exact Hrows | exact Hfresh].
      * intros e' [<-|Hin].
        -- rewrite map_app. apply in_or_app. right. left. exact Hkey.
        -- specialize (Hall e' Hin). rewrite <- app_assoc in Hall. exact Hall.
      * intros c [<-|Hc].
        -- split; [left; symmetry; exact Hkey | rewrite Hkey; exact Hfresh].
        -- destruct (Hnew c Hc) as [H1 H2]. split; [right; exact H1|].
           intros Hin. apply H2. rewrite map_app. apply in_or_app. left. exact Hin.
Qed.

Lemma insert_loop_all_held (entries : list Parsed) :
  forall (rows : list Cedict.Entry) (i s : Z),
    (forall e, In e entries -> In (parsed_key e) (map key rows)) ->
    fold_left insert entries (rows, i, s)
    = (rows, i, s + Z.of_nat (List.length entries)).
Proof.
  induction entries as [|e entries IH]; intros rows i s Hall.
  - cbn [fold_left List.length]. f_equal. lia.
  - cbn [fold_left]. unfold insert at 2, insert_or_ignore.
    rewrite (proj2 (held_In (parsed_key e) rows) (Hall e (or_introl eq_refl))).
    fold insert. rewrite IH; [|intros e' He'; apply Hall; right; exact He'].
    f_equal. cbn [List.length]. lia.
Qed.

End Importer.

(** X22.  The import only appends rows; every parsed entry is counted once,
    as inserted or as skipped; the number of appended rows is [inserted];
    afterwards the table holds a row with the key (traditional, simplified,
    pinyin) of every parsed entry; each appended row has the key of a parsed
    entry that the table did not hold; and a table whose keys are distinct
    stays so. *)
Theorem create_cedict_database_unique
    (dumps_definitions : list string -> string) (current_timestamp : string)
    (entries : list Parsed) (rows : list Cedict.Entry) :
  exists new inserted skipped,
    create_cedict_database dumps_definitions current_timestamp entries rows
    = ((rows ++ new)%list, inserted, skipped)
    /\ inserted = Z.of_nat (List.length new)
    /\ inserted + skipped = Z.of_nat (List.length entries)
    /\ (forall e, In e entries -> In (parsed_key e) (map key (rows ++ new)))
    /\ (forall c, In c new -> In (key c) (map parsed_key entries)
                              /\ ~ In (key c) (map key rows))
    /\ (NoDup (map key rows) -> NoDup (map key (rows ++ new))).
Proof.
  unfold create_cedict_database.
  destruct (insert_loop dumps_definitions current_timestamp entries rows 0 0)
    as (new & Hrun & Hnd & Hall & Hnew).
  exists new, (Z.of_nat (List.length new)),
    (Z.of_nat (List.length entries) - Z.of_nat (List.length new)).
  rewrite Hrun. repeat split; try assumption; try lia.
  - apply Hnew. assumption.
  - apply Hnew. assumption.
Qed.

(** X23.  Importing the same parsed entries a second time inserts nothing,
    skips every entry and leaves the table as the first import left it. *)
Theorem create_cedict_database_again
    (dumps_definitions : list string -> string) (current_timestamp later : string)
    (entries : list Parsed) (rows : list Cedict.Entry) :
  let rows1 :=
    fst (fst (create_cedict_database dumps_definitions current_timestamp entries rows)) in
  create_cedict_database dumps_definitions later entries rows1
  = (rows1, 0, Z.of_nat (List.length entries)).
Proof.
  intros rows1. subst rows1. unfold create_cedict_database.
  destruct (insert_loop dumps_definitions current_timestamp entries rows 0 0)
    as (new & Hrun & Hnd & Hall & Hnew).
  rewrite Hrun. cbn [fst].
  rewrite (insert_loop_all_held dumps_definitions later entries (rows ++ new) 0 0 Hall).
  reflexivity.
Qed.

End CedictImportFacts.

(** ** integrate_cedict.py: get_cedict_stats, get_main_dict_stats *)

Module StatsFacts.
Import IntegrateCedictSchema.

Lemma nodup_length_le (l : list string) :
  (List.length (nodup string_dec l) <= List.length l)%nat.
Proof.
  induction l as [|x l IH]; simpl; [lia|].
  destruct (in_dec string_dec x l); simpl; lia.
Qed.

Lemma nodup_nonempty (l : list string) :
  l <> [] -> (1 <= List.length (nodup string_dec l))%nat.
Proof.
  induction l as [|x l IH]; [congruence|]. intros _. simpl.
  destruct (in_dec string_dec x l) as [Hin|Hnot]; simpl; [|lia].
  apply IH. intros ->. destruct Hin.
Qed.

Lemma count_distinct_bounds (column : Cedict.Entry -> string) (cedict : list Cedict.Entry) :
  count_distinct column cedict <= Z.of_nat (List.length cedict)
  /\ (cedict <> [] -> 1 <= count_distinct column cedict).
Proof.
  unfold count_distinct. split.
  - pose proof (nodup_length_le (map column cedict)) as H.
    rewrite length_map in H. lia.
  - intros Hne.
    assert (Hmap : map column cedict <> []) by (destruct cedict; [congruence | discriminate]).
    pose proof (nodup_nonempty _ Hmap). lia.
Qed.

(** X24.  In the statistics of the Source table the two distinct counts are
    at most the number of rows, and at least 1 when the table has a row; in
    the statistics of the dictionary the two counts of filled meanings are
    between 0 and the number of rows. *)
Theorem stats_bounds (rows : list Dictionary.Entry) (cedict : list Cedict.Entry) :
  let c := get_cedict_stats cedict in
  let m := get_main_dict_stats rows in
  unique_simplified c <= cedict_total_entries c
  /\ unique_traditional c <= cedict_total_entries c
  /\ (cedict <> [] -> 1 <= unique_simplified c /\ 1 <= unique_traditional c)
  /\ 0 <= with_english m <= total_entries m
  /\ 0 <= with_vietnamese m <= total_entries m.
Proof.
  cbn [get_cedict_stats get_main_dict_stats unique_simplified unique_traditional
       cedict_total_entries with_english with_vietnamese total_entries].
  destruct (count_distinct_bounds Cedict.simplified cedict) as [Hs1 Hs2].
  destruct (count_distinct_bounds Cedict.traditional cedict) as [Ht1 Ht2].
  unfold count_filled.
  pose proof (filter_length_le (fun e => Py.truthy (Dictionary.en_meaning e)) rows).
  pose proof (filter_length_le (fun e => Py.truthy (Dictionary.vi_meaning e)) rows).
  repeat split; auto; lia.
Qed.

End StatsFacts.

(** ** Runs of the further properties *)

Module ExtraRuns.
Import Py.

(** The entry of the reconciliation scenario, reconciled once and then once
    more with the same Source entry. *)
Lemma reconciled_entry_is_stable_witness :
  let c := Scenario.source_entry 1 Scenario.hello_definitions "2024-01-01 00:00:00" in
  exists main',
    Props.reconciled Json.loads "2024-01-02T00:00:00" (Scenario.primary_entry 1) c
    = Some main'
    /\ (Props.reconciled Json.loads "2024-01-03T00:00:00" main' c = Some main'
        \/ Props.reconciled Json.loads "2024-01-03T00:00:00" main' c
           = Dictionary.set "updated_at" "2024-01-03T00:00:00" main').
Proof.
  intros c.
  destruct (Props.reconciled Json.loads "2024-01-02T00:00:00" (Scenario.primary_entry 1) c)
    as [main'|] eqn:Hfirst; [|vm_compute in Hfirst; discriminate Hfirst].
  exists main'. split; [reflexivity|].
  exact (ReconcilerExtra.reconciled_entry_is_stable Json.loads "2024-01-02T00:00:00"
           "2024-01-03T00:00:00" (Scenario.primary_entry 1) main' c Hfirst).
Defined.

Lemma enhance_entry_without_api_witness :
  let st := Scenario.enhancer 100 [Scenario.primary_entry 1] in
  let run := DeepseekEnhancer.enhance_entry Json.loads Scenario.dumps_placeholder
               Scenario.no_reply Scenario.bind_str Scenario.isoformat_epoch
               (Scenario.primary_entry 1) st in
  (forall r t, Scenario.no_reply r t = None)
  /\ snd run = Ok false
  /\ DeepseekEnhancer.conn (fst run) = DeepseekEnhancer.conn st.
Proof.
  intros st run.
  assert (Hdown : forall r t, Scenario.no_reply r t = None) by reflexivity.
  split; [exact Hdown|].
  exact (EnhancerExtra.enhance_entry_without_api Json.loads Scenario.dumps_placeholder
           Scenario.no_reply Scenario.bind_str Scenario.isoformat_epoch
           (Scenario.primary_entry 1) st Hdown).
Defined.

(** The reply has a zhuyin for an entry that lacks only the borrowed-script
    reading; the patch carries grammar information as well, and nothing is
    saved. *)
Lemma enhance_entry_saves_nothing_witness :
  let reply := "{" ++ Scenario.quoted "zhuyin" ++ ": " ++ Scenario.quoted "ㄏㄠˇ" ++ "}" in
  let post := Scenario.always reply in
  let st := Scenario.enhancer 100 [Scenario.curated_entry] in
  let updates := [("zhuyin", Json.JStr "ㄏㄠˇ"); ("grammar_info", Json.JStr "[...]")] in
  let run := DeepseekEnhancer.enhance_entry Json.loads Scenario.dumps_placeholder
               post Scenario.bind_str Scenario.isoformat_epoch Scenario.curated_entry st in
  snd (DeepseekEnhancer.entry_updates Json.loads Scenario.dumps_placeholder post
         Scenario.curated_entry st) = Ok updates
  /\ snd run = Ok false
  /\ DeepseekEnhancer.conn (fst run) = DeepseekEnhancer.conn st.
Proof.
  intros reply post st updates run.
  assert (Hupd : snd (DeepseekEnhancer.entry_updates Json.loads Scenario.dumps_placeholder
                        post Scenario.curated_entry st) = Ok updates)
    by (vm_compute; reflexivity).
  assert (Hkey : In "examples" (map fst updates) \/ In "grammar_info" (map fst updates))
    by (right; right; left; reflexivity).
  split; [exact Hupd|].
  exact (EnhancerExtra.enhance_entry_saves_nothing_with_examples Json.loads
           Scenario.dumps_placeholder post Scenario.bind_str Scenario.isoformat_epoch
           Scenario.curated_entry st updates Hupd Hkey).
Defined.

(** The batch scenario stops because its budget of 15 is used up. *)
Lemma enhance_batch_exit_witness :
  0 <= 15
  /\ exists st' p',
       DeepseekEnhancer.enhance_batch Json.loads Scenario.dumps_placeholder
         Scenario.no_reply Scenario.bind_str Scenario.isoformat_epoch 10 15
         (Scenario.enhancer 100 Scenario.twenty_five) = Some (st', p')
       /\ (DeepseekEnhancer.total_processed p' = 15
           \/ DeepseekEnhancer.find_entries_needing_enhancement 10
                (DeepseekEnhancer.conn st') = []).
Proof.
  assert (Hmax : 0 <= 15) by lia.
  split; [exact Hmax|].
  destruct (DeepseekEnhancer.enhance_batch Json.loads Scenario.dumps_placeholder
              Scenario.no_reply Scenario.bind_str Scenario.isoformat_epoch 10 15
              (Scenario.enhancer 100 Scenario.twenty_five))
    as [[st' p']|] eqn:Hrun; [|vm_compute in Hrun; discriminate Hrun].
  exists st', p'. split; [reflexivity|].
  exact (EnhancerExtra.enhance_batch_exit Json.loads Scenario.dumps_placeholder
           Scenario.no_reply Scenario.bind_str Scenario.isoformat_epoch 10 15
           (Scenario.enhancer 100 Scenario.twenty_five) st' p' Hmax Hrun).
Defined.

(** A table whose only entry is complete has no candidate. *)
Lemma enhance_batch_nothing_to_do_witness :
  let complete :=
    Dictionary.mkEntry 7 "你好" None None (Some "nǐ hǎo") (Some "ㄋㄧˇ ㄏㄠˇ")
      (Some "xin chào") (Some "hi") None None None (Some 5) (Some "nhĩ hảo")
      None None None None in
  let st := Scenario.enhancer 100 [complete] in
  (15 <= 0 \/ DeepseekEnhancer.find_entries_needing_enhancement 10
                (DeepseekEnhancer.conn st) = [])
  /\ DeepseekEnhancer.enhance_batch Json.loads Scenario.dumps_placeholder
       (Scenario.always "{}") Scenario.bind_str Scenario.isoformat_epoch 10 15 st
     = Some (st, DeepseekEnhancer.mkProgress 0 0).
Proof.
  intros complete st.
  assert (Hcase : 15 <= 0 \/ DeepseekEnhancer.find_entries_needing_enhancement 10
                               (DeepseekEnhancer.conn st) = [])
    by (right; vm_compute; reflexivity).
  split; [exact Hcase|].
  exact (EnhancerExtra.enhance_batch_nothing_to_do Json.loads Scenario.dumps_placeholder
           (Scenario.always "{}") Scenario.bind_str Scenario.isoformat_epoch 10 15 st Hcase).
Defined.

(** A reply with a sentence before the object and one after it. *)
Lemma extract_object_ignores_prose_witness :
  let pre := "Sure! Here it is: " in
  let body := Scenario.quoted "zhuyin" ++ ": " ++ Scenario.quoted "ㄋㄧˇ" in
  let suf := " Hope this helps." in
  let v := Json.JObj [("zhuyin", Json.JStr "ㄋㄧˇ")] in
  PropsEnhancer.lacks "{" pre
  /\ PropsEnhancer.lacks "}" suf
  /\ Json.loads (String "{" (body ++ String "}" EmptyString)) = Ok v
  /\ DeepseekEnhancer.extract_object Json.loads
       (Some (pre ++ String "{" (body ++ String "}" EmptyString) ++ suf)) = Ok v.
Proof.
  intros pre body suf v.
  assert (Hpre : PropsEnhancer.lacks "{" pre)
    by (cbn; repeat split; intros H; discriminate H).
  assert (Hsuf : PropsEnhancer.lacks "}" suf)
    by (cbn; repeat split; intros H; discriminate H).
  assert (Hloads : Json.loads (String "{" (body ++ String "}" EmptyString)) = Ok v)
    by (vm_compute; reflexivity).
  split; [exact Hpre|]. split; [exact Hsuf|]. split; [exact Hloads|].
  exact (ExtractionExtra.extract_object_ignores_prose Json.loads pre body suf v
           Hpre Hsuf Hloads).
Defined.

Lemma convert_whitespace_only_witness :
  strip_is_empty "   " = true
  /\ PinyinUtils.convert_pinyin_tone_numbers "   " = EmptyString.
Proof.
  assert (H : strip_is_empty "   " = true) by reflexivity.
  split; [exact H|].
  exact (PinyinExtra.convert_whitespace_only "   " H).
Defined.

(** The side table has two rows for one word; the entry that carries a
    zhuyin already and the one that does not both get the later one. *)
Lemma merge_zhuyin_overwrites_witness :
  let zrows := [MergeZhuyin.mkRow "你好" (Some "ㄋㄧˇ");
                MergeZhuyin.mkRow "你好" (Some "ㄋㄧˇ ㄏㄠˇ ");
                MergeZhuyin.mkRow "貓" None] in
  let rows := [Scenario.primary_entry 1; Scenario.curated_entry;
               Dictionary.blank 9 "貓"] in
  NoDup (map Dictionary.id rows)
  /\ option_map (fun out => (map Dictionary.zhuyin (fst out), snd out))
       (match MergeZhuyin.merge_zhuyin zrows rows with Ok out => Some out | Raise _ => None end)
     = Some ([Some "ㄋㄧˇ ㄏㄠˇ "; Some "ㄋㄧˇ ㄏㄠˇ "; None], 2)
  /\ MergeZhuyin.merge_zhuyin zrows
       (map (PropsImport.merged (MergeZhuyin.zhuyin_map zrows)) rows)
     = MergeZhuyin.merge_zhuyin zrows rows.
Proof.
  intros zrows rows.
  assert (Hnd : NoDup (map Dictionary.id rows)).
  { cbn. repeat constructor; cbn; intuition discriminate. }
  split; [exact Hnd|].
  destruct (ZhuyinFacts.merge_zhuyin_overwrites zrows rows Hnd) as [Hrun Hagain].
  split; [rewrite Hrun; vm_compute; reflexivity|].
  rewrite Hagain, Hrun. reflexivity.
Defined.

End ExtraRuns.
